(** * fileshaare.py: registry and link engine of the file-store bot

    A shallow embedding of [src/fileshaare.py] and the properties of its
    registry (files numbered per group), its share links and its expiry
    worker.

    - The PostgreSQL tables are lists of records in heap (insertion) order,
      each with the sequence behind its [SERIAL] key.  A query without
      [ORDER BY] yields rows in that order.
    - SQL statements are actions of a small state-and-exception monad over
      the database.  No handler opens a transaction, so the writes made
      before an exception stay.
    - Handlers run one at a time, and the store itself does not fail; the
      exceptions modelled are the [UNIQUE] violations of the schema and the
      failures of the Bot API calls that the handlers catch, which an
      environment value answers.
    - Timestamps are integers (seconds), numbers are unbounded (the ranges
      of [INTEGER] and [BIGINT] columns are not modelled), and texts are
      strings of characters whose letters fold case as ASCII does.
    - Callback data and menu labels are the byte strings of the source;
      Python's [int] on a text is a parameter of the callback parser, and
      the text router starts from the stripped message text.  A call of a
      name the file does not define is an outcome of its own. *)

From Stdlib Require Import ZArith NArith List String Ascii Bool Lia FinFun.
From Stdlib.Strings Require Import Byte.
From Stdlib Require Import DecimalString DecimalPos DecimalZ.
Import ListNotations.

Local Open Scope Z_scope.

(** ** Utilities: [gen_code] (line 40) *)

Module Base64.

(** [base64]'s standard alphabet, [binascii]'s [table_b2a_base64]. *)
Definition table_b2a_base64 : list ascii :=
  list_ascii_of_string
    "ABCDEFGHIJKLMNOPQRSTUVWXYZabcdefghijklmnopqrstuvwxyz0123456789+/".

Definition b2a (i : N) : ascii :=
  nth (N.to_nat i) table_b2a_base64 "A"%char.

Definition pad : ascii := "="%char.

(** RFC 4648 section 4, as [binascii.b2a_base64] computes it: three bytes give
    four sextets; one or two left-over bytes give two or three sextets and
    padding. *)
Definition sextet0 (a : N) : N := N.shiftr a 2.
Definition sextet1 (a b : N) : N := N.lor (N.shiftl (N.land a 3) 4) (N.shiftr b 4).
Definition sextet2 (b c : N) : N := N.lor (N.shiftl (N.land b 15) 2) (N.shiftr c 6).
Definition sextet3 (c : N) : N := N.land c 63.

Fixpoint b64encode (bs : list byte) : list ascii :=
  match bs with
  | [] => []
  | [a] =>
      let a := Byte.to_N a in
      [b2a (sextet0 a); b2a (sextet1 a 0); pad; pad]
  | [a; b] =>
      let a := Byte.to_N a in
      let b := Byte.to_N b in
      [b2a (sextet0 a); b2a (sextet1 a b); b2a (sextet2 b 0); pad]
  | a :: b :: c :: rest =>
      let a := Byte.to_N a in
      let b := Byte.to_N b in
      let c := Byte.to_N c in
      b2a (sextet0 a) :: b2a (sextet1 a b) :: b2a (sextet2 b c)
        :: b2a (sextet3 c) :: b64encode rest
  end.

(** [base64._urlsafe_encode_translation]: [+] becomes [-], [/] becomes [_]. *)
Definition urlsafe_translate (c : ascii) : ascii :=
  if Ascii.eqb c "+" then "-"%char
  else if Ascii.eqb c "/" then "_"%char
  else c.

Definition urlsafe_b64encode (bs : list byte) : list ascii :=
  map urlsafe_translate (b64encode bs).

(** The URL-safe alphabet: A-Z, a-z, 0-9, [-] and [_]. *)
Definition urlsafe_char (c : ascii) : bool :=
  let n := N_of_ascii c in
  ((65 <=? n) && (n <=? 90) || (97 <=? n) && (n <=? 122)
   || (48 <=? n) && (n <=? 57) || (n =? 45) || (n =? 95))%N.

End Base64.

Module Uuid.

(** [int.from_bytes(bs, 'big')] and [int.to_bytes(n, 'big')]. *)
Definition from_bytes_be (bs : list byte) : N :=
  fold_left (fun acc b => (acc * 256 + Byte.to_N b)%N) bs 0%N.

Definition byte_of_N (x : N) : byte :=
  match Byte.of_N (x mod 256) with
  | Some b => b
  | None => x00
  end.

Fixpoint to_bytes_be (n : nat) (x : N) : list byte :=
  match n with
  | O => []
  | S k => to_bytes_be k (x / 256) ++ [byte_of_N x]
  end.

(** [uuid.uuid4()]: [UUID(bytes=os.urandom(16), version=4)].  The constructor
    sets the RFC 4122 variant and the version in the 128-bit integer; [rand]
    stands for the sixteen bytes [os.urandom] returned. *)
Definition uuid4_int (rand : list byte) : N :=
  let i := from_bytes_be rand in
  let i := N.ldiff i (N.shiftl 0xc000 48) in
  let i := N.lor i (N.shiftl 0x8000 48) in
  let i := N.ldiff i (N.shiftl 0xf000 64) in
  N.lor i (N.shiftl 4 76).

(** [UUID.bytes]. *)
Definition uuid4_bytes (rand : list byte) : list byte :=
  to_bytes_be 16 (uuid4_int rand).

End Uuid.

(** [str.rstrip(c)] on a list of characters. *)
Fixpoint rstrip (c : ascii) (s : list ascii) : list ascii :=
  match s with
  | [] => []
  | x :: s' =>
      match rstrip c s' with
      | [] => if Ascii.eqb x c then [] else [x]
      | r => x :: r
      end
  end.

(** [gen_code()]:
    [base64.urlsafe_b64encode(uuid.uuid4().bytes).decode('utf-8').rstrip('=')[:18]]. *)
Definition gen_code (rand : list byte) : string :=
  string_of_list_ascii
    (firstn 18 (rstrip "=" (Base64.urlsafe_b64encode (Uuid.uuid4_bytes rand)))).


(** ** Telegram objects the handlers read *)

Module Tg.

Record user := {
  id : Z;
  username : option string;
  first_name : option string
}.

(** A [Document], [Video], [Audio], [Voice] or [PhotoSize]; a [PhotoSize]
    has no [file_name]. *)
Record file := {
  file_unique_id : string;
  file_name : option string;
  file_size : option Z
}.

Record message := {
  document : option file;
  photo : list file;
  video : option file;
  audio : option file;
  voice : option file
}.

(** What a Bot API call answers: a value, [RetryAfter] (imported as
    [FloodWaitError]) or another error. *)
Inductive answer (A : Type) : Type :=
  | Done (a : A)
  | RetryAfter
  | Failed.
Arguments Done {A} a.
Arguments RetryAfter {A}.
Arguments Failed {A}.

End Tg.

(** ** Tables ([init_db], lines 55-78) *)

Module Users.
Record row := {
  id : Z;
  user_id : Z;
  username : option string;
  first_name : option string;
  joined_at : Z;
  is_active : bool
}.
End Users.

Module Groups.
Record row := {
  id : Z;
  name : string;
  owner_id : Z;
  created_at : Z;
  total_files : Z;
  total_size : Z
}.
End Groups.

Module Files.
Record row := {
  id : Z;
  group_id : Z;
  serial : Z;
  unique_id : string;
  file_name : option string;
  file_type : string;
  file_size : Z;
  storage_message_id : Z;
  uploader_id : Z;
  created_at : Z
}.
End Files.

Module Links.
Record row := {
  id : Z;
  code : string;
  file_id : Z;
  group_id : Z;
  owner_id : Z;
  expires_at : option Z;
  max_downloads : option Z;
  downloads : Z;
  created_at : Z;
  active : bool
}.

(** [UPDATE links SET active = FALSE] on one row. *)
Definition deactivate (l : row) : row :=
  {| id := id l; code := code l; file_id := file_id l; group_id := group_id l;
     owner_id := owner_id l; expires_at := expires_at l;
     max_downloads := max_downloads l; downloads := downloads l;
     created_at := created_at l; active := false |}.
End Links.

Module Stats.
Record row := {
  id : Z;
  user_id : Z;
  uploads : Z;
  downloads : Z;
  last_active : option Z
}.
End Stats.

(** The database: the five tables, each with the sequence behind its
    [SERIAL] key ([*_id_seq] holds the value [nextval] hands out next). *)
Record db := {
  users : list Users.row;
  groups : list Groups.row;
  files : list Files.row;
  links : list Links.row;
  stats : list Stats.row;
  users_id_seq : Z;
  groups_id_seq : Z;
  files_id_seq : Z;
  links_id_seq : Z;
  stats_id_seq : Z
}.

(** The state [init_db] leaves on a fresh database. *)
Definition empty_db : db :=
  {| users := []; groups := []; files := []; links := []; stats := [];
     users_id_seq := 1; groups_id_seq := 1; files_id_seq := 1;
     links_id_seq := 1; stats_id_seq := 1 |}.

Definition set_users (us : list Users.row) (seq : Z) (d : db) : db :=
  {| users := us; groups := groups d; files := files d; links := links d;
     stats := stats d; users_id_seq := seq; groups_id_seq := groups_id_seq d;
     files_id_seq := files_id_seq d; links_id_seq := links_id_seq d;
     stats_id_seq := stats_id_seq d |}.

Definition set_groups (gs : list Groups.row) (d : db) : db :=
  {| users := users d; groups := gs; files := files d; links := links d;
     stats := stats d; users_id_seq := users_id_seq d;
     groups_id_seq := groups_id_seq d; files_id_seq := files_id_seq d;
     links_id_seq := links_id_seq d; stats_id_seq := stats_id_seq d |}.

Definition set_files (fs : list Files.row) (seq : Z) (d : db) : db :=
  {| users := users d; groups := groups d; files := fs; links := links d;
     stats := stats d; users_id_seq := users_id_seq d;
     groups_id_seq := groups_id_seq d; files_id_seq := seq;
     links_id_seq := links_id_seq d; stats_id_seq := stats_id_seq d |}.

Definition set_links (ls : list Links.row) (seq : Z) (d : db) : db :=
  {| users := users d; groups := groups d; files := files d; links := ls;
     stats := stats d; users_id_seq := users_id_seq d;
     groups_id_seq := groups_id_seq d; files_id_seq := files_id_seq d;
     links_id_seq := seq; stats_id_seq := stats_id_seq d |}.

Definition set_stats (ss : list Stats.row) (seq : Z) (d : db) : db :=
  {| users := users d; groups := groups d; files := files d; links := links d;
     stats := ss; users_id_seq := users_id_seq d;
     groups_id_seq := groups_id_seq d; files_id_seq := files_id_seq d;
     links_id_seq := links_id_seq d; stats_id_seq := seq |}.

(** ** Statements: state and exceptions

    A connection from the pool runs each statement in its own transaction
    (no handler opens one), so a statement that raises leaves the earlier
    statements' writes in place: the state survives a [Raise]. *)

Inductive exn : Type :=
  | UniqueViolationError (constraint : string)
  | FloodWaitError
  | TelegramError.

Inductive result (A : Type) : Type :=
  | Ok (a : A)
  | Raise (e : exn).
Arguments Ok {A} a.
Arguments Raise {A} e.

Definition M (A : Type) : Type := db -> result A * db.

Definition ret {A} (a : A) : M A := fun d => (Ok a, d).

Definition raise {A} (e : exn) : M A := fun d => (Raise e, d).

Definition bind {A B} (m : M A) (k : A -> M B) : M B :=
  fun d =>
    match m d with
    | (Ok a, d') => k a d'
    | (Raise e, d') => (Raise e, d')
    end.

Notation "x <- c1 ;; c2" := (bind c1 (fun x => c2))
  (at level 61, c1 at next level, right associativity).
Notation "c1 ;; c2" := (bind c1 (fun _ => c2))
  (at level 61, right associativity).

Definition get {A} (f : db -> A) : M A := fun d => (Ok (f d), d).

Definition modify (f : db -> db) : M unit := fun d => (Ok tt, f d).

(** An awaited Bot API call: it touches no table. *)
Definition await {A} (a : Tg.answer A) : M A :=
  match a with
  | Tg.Done v => ret v
  | Tg.RetryAfter => raise FloodWaitError
  | Tg.Failed => raise TelegramError
  end.

(** ** Configuration and per-user conversation state *)

(** [is_admin(uid)]: [uid in ADMIN_IDS]. *)
Definition is_admin (ADMIN_IDS : list Z) (uid : Z) : bool :=
  existsb (Z.eqb uid) ADMIN_IDS.

(** The keys of [ctx.user_data] the handlers below use; an absent key is
    [None]. *)
Record user_data := {
  upload_group_id : option Z;
  is_bulk_upload : option bool;
  awaiting_new_group : option bool
}.

Definition no_user_data : user_data :=
  {| upload_group_id := None; is_bulk_upload := None;
     awaiting_new_group := None |}.

(** What the outside world answers during one update: the bytes
    [os.urandom(16)] returns inside [gen_code], and the Bot API calls that
    stand before or between the handler's writes.  The acknowledgement a
    handler sends last is taken to arrive. *)
Record env := {
  urandom : list byte;
  forward : Tg.answer Z;
  copy_message : Tg.answer unit;
  delete_message : Tg.answer unit
}.

(** ** User registration ([ensure_user], lines 121-124) *)

(** [INSERT INTO users ... ON CONFLICT (user_id) DO NOTHING].  The default
    of [id] draws from the sequence before the conflict is seen. *)
Definition insert_user (now : Z) (u : Tg.user) : M unit :=
  modify (fun d =>
    let k := users_id_seq d in
    if existsb (fun r => Users.user_id r =? Tg.id u) (users d)
    then set_users (users d) (k + 1) d
    else set_users
           (users d ++
            [{| Users.id := k; Users.user_id := Tg.id u;
                Users.username := Tg.username u;
                Users.first_name := Tg.first_name u;
                Users.joined_at := now; Users.is_active := true |}])
           (k + 1) d).

(** [INSERT INTO stats ... ON CONFLICT (user_id) DO UPDATE SET ...]: [fresh]
    builds the row to insert from its key, [on_conflict] is the [SET] list. *)
Definition upsert_stats (uid : Z) (fresh : Z -> Stats.row)
    (on_conflict : Stats.row -> Stats.row) : M unit :=
  modify (fun d =>
    let k := stats_id_seq d in
    if existsb (fun r => Stats.user_id r =? uid) (stats d)
    then set_stats
           (map (fun r => if Stats.user_id r =? uid then on_conflict r else r)
              (stats d))
           (k + 1) d
    else set_stats (stats d ++ [fresh k]) (k + 1) d).

Definition set_last_active (now : Z) (r : Stats.row) : Stats.row :=
  {| Stats.id := Stats.id r; Stats.user_id := Stats.user_id r;
     Stats.uploads := Stats.uploads r; Stats.downloads := Stats.downloads r;
     Stats.last_active := Some now |}.

(** [INSERT INTO stats (user_id,last_active) VALUES ($1,NOW())
     ON CONFLICT (user_id) DO UPDATE SET last_active=NOW()]. *)
Definition touch_stats (now uid : Z) : M unit :=
  upsert_stats uid
    (fun k => {| Stats.id := k; Stats.user_id := uid; Stats.uploads := 0;
                 Stats.downloads := 0; Stats.last_active := Some now |})
    (set_last_active now).

(** [... (user_id,uploads,last_active) VALUES ($1,1,NOW()) ON CONFLICT
     (user_id) DO UPDATE SET uploads = stats.uploads + 1, last_active = NOW()]. *)
Definition count_upload (now uid : Z) : M unit :=
  upsert_stats uid
    (fun k => {| Stats.id := k; Stats.user_id := uid; Stats.uploads := 1;
                 Stats.downloads := 0; Stats.last_active := Some now |})
    (fun r => {| Stats.id := Stats.id r; Stats.user_id := Stats.user_id r;
                 Stats.uploads := Stats.uploads r + 1;
                 Stats.downloads := Stats.downloads r;
                 Stats.last_active := Some now |}).

(** [... (user_id,downloads,last_active) VALUES($1,1,NOW()) ON CONFLICT
     (user_id) DO UPDATE SET downloads = stats.downloads + 1, last_active=NOW()]. *)
Definition count_download (now uid : Z) : M unit :=
  upsert_stats uid
    (fun k => {| Stats.id := k; Stats.user_id := uid; Stats.uploads := 0;
                 Stats.downloads := 1; Stats.last_active := Some now |})
    (fun r => {| Stats.id := Stats.id r; Stats.user_id := Stats.user_id r;
                 Stats.uploads := Stats.uploads r;
                 Stats.downloads := Stats.downloads r + 1;
                 Stats.last_active := Some now |}).

Definition ensure_user (now : Z) (u : Tg.user) : M unit :=
  insert_user now u ;;
  touch_stats now (Tg.id u).

(** ** Registry statements *)

(** [MAX] over a column: [NULL] on no row. *)
Definition sql_max (xs : list Z) : option Z :=
  match xs with
  | [] => None
  | x :: xs' => Some (fold_left Z.max xs' x)
  end.

Definition coalesce (o : option Z) (dflt : Z) : Z :=
  match o with
  | Some v => v
  | None => dflt
  end.

Definition in_group (gid : Z) (f : Files.row) : bool :=
  Files.group_id f =? gid.

Definition at_serial (gid serial : Z) (f : Files.row) : bool :=
  (Files.group_id f =? gid) && (Files.serial f =? serial).

(** The serials of a group's files, in table order. *)
Definition serials (gid : Z) (d : db) : list Z :=
  map Files.serial (filter (in_group gid) (files d)).

(** [SELECT COALESCE(MAX(serial),0)+1 FROM files WHERE group_id = $1]. *)
Definition next_serial (gid : Z) (d : db) : Z :=
  coalesce (sql_max (serials gid d)) 0 + 1.

(** [INSERT INTO files (group_id,serial,unique_id,file_name,file_type,
     file_size,storage_message_id,uploader_id) VALUES (...)]; [unique_id] is
    [UNIQUE]. *)
Definition insert_file (now gid serial : Z) (uid : string)
    (fname : option string) (fsize sid uploader : Z) : M unit :=
  fun d =>
    let k := files_id_seq d in
    if existsb (fun f => String.eqb (Files.unique_id f) uid) (files d)
    then (Raise (UniqueViolationError "files_unique_id_key"),
          set_files (files d) (k + 1) d)
    else (Ok tt,
          set_files
            (files d ++
             [{| Files.id := k; Files.group_id := gid; Files.serial := serial;
                 Files.unique_id := uid; Files.file_name := fname;
                 Files.file_type := "file"; Files.file_size := fsize;
                 Files.storage_message_id := sid;
                 Files.uploader_id := uploader; Files.created_at := now |}])
            (k + 1) d).

(** [UPDATE groups SET total_files = total_files + 1,
     total_size = total_size + $1 WHERE id = $2] (line 188). *)
Definition inc_totals (fsize : Z) (g : Groups.row) : Groups.row :=
  {| Groups.id := Groups.id g; Groups.name := Groups.name g;
     Groups.owner_id := Groups.owner_id g;
     Groups.created_at := Groups.created_at g;
     Groups.total_files := Groups.total_files g + 1;
     Groups.total_size := Groups.total_size g + fsize |}.

(** [UPDATE groups SET total_files = total_files - 1 WHERE id=$1] (line 284). *)
Definition dec_total_files (g : Groups.row) : Groups.row :=
  {| Groups.id := Groups.id g; Groups.name := Groups.name g;
     Groups.owner_id := Groups.owner_id g;
     Groups.created_at := Groups.created_at g;
     Groups.total_files := Groups.total_files g - 1;
     Groups.total_size := Groups.total_size g |}.

Definition update_group (gid : Z) (f : Groups.row -> Groups.row) : M unit :=
  modify (fun d =>
    set_groups (map (fun g => if Groups.id g =? gid then f g else g) (groups d)) d).

(** [fetchrow]/[fetchval]: the first row the query yields, if any. *)
Definition select_file (gid serial : Z) : M (option Files.row) :=
  get (fun d => find (at_serial gid serial) (files d)).

Definition select_group (gid : Z) : M (option Groups.row) :=
  get (fun d => find (fun g => Groups.id g =? gid) (groups d)).

(** [DELETE FROM files WHERE id=$1]. *)
Definition delete_file (fid : Z) : M unit :=
  modify (fun d =>
    set_files (filter (fun f => negb (Files.id f =? fid)) (files d))
      (files_id_seq d) d).

(** ** Upload ([handle_upload], lines 170-199) *)

Inductive reply : Type :=
  | Welcome
  | SelectGroup
  | SelectGroupFirst
  | UnsupportedFileType
  | Saved (fname : option string) (serial : Z)
  | RateLimited
  | UploadFailed
  | Selected (name : option string)
  | SendGroupName
  | GroupNotFound
  | Opened (g : Groups.row)
  | FileNotFound
  | FileSent
  | CouldNotSendFile
  | ChooseExpiry
  | CouldNotCreateLink
  | LinkCreated (code : string)
  | NotPermitted
  | Deleted
  | HomeMenu
  | UnknownAction
  | ErrorProcessingAction
  | NoResults
  | Results (rows : list (Z * Z * option string)).

(** [x or 0] on an optional size. *)
Definition or_zero (o : option Z) : Z :=
  match o with
  | Some n => n
  | None => 0
  end.

(** [fobj.file_name or f"video_{fobj.file_unique_id}"]: an empty name is
    falsy too. *)
Definition video_name (f : Tg.file) : string :=
  match Tg.file_name f with
  | Some n => if String.eqb n "" then ("video_" ++ Tg.file_unique_id f)%string else n
  | None => ("video_" ++ Tg.file_unique_id f)%string
  end.

(** The [if msg.document ... elif msg.photo ... elif msg.video ... else]
    chain: the name and size to store, or [None] on the [else] branch. *)
Definition upload_media (msg : Tg.message) : option (option string * Z) :=
  match Tg.document msg with
  | Some f => Some (Tg.file_name f, or_zero (Tg.file_size f))
  | None =>
      match rev (Tg.photo msg) with
      | f :: _ =>
          Some (Some ("photo_" ++ Tg.file_unique_id f ++ ".jpg")%string,
                or_zero (Tg.file_size f))
      | [] =>
          match Tg.video msg with
          | Some f => Some (Some (video_name f), or_zero (Tg.file_size f))
          | None => None
          end
      end
  end.

(** [ctx.user_data.get('upload_group_id')] followed by [if not gid]: the group
    to upload into, where a missing key and 0 both count as none selected. *)
Definition selected_group (ud : user_data) : option Z :=
  match upload_group_id ud with
  | Some gid => if gid =? 0 then None else Some gid
  | None => None
  end.

(** The four statements of the [try] block (lines 185-189). *)
Definition register_file (now gid : Z) (e : env) (fname : option string)
    (fsize sid uploader : Z) : M Z :=
  serial <- get (next_serial gid) ;;
  insert_file now gid serial (gen_code (urandom e)) fname fsize sid uploader ;;
  update_group gid (inc_totals fsize) ;;
  count_upload now uploader ;;
  ret serial.

(** The [finally] clause (line 199). *)
Definition after_upload (ud : user_data) : user_data :=
  match is_bulk_upload ud with
  | Some true => ud
  | _ => {| upload_group_id := None; is_bulk_upload := is_bulk_upload ud;
            awaiting_new_group := awaiting_new_group ud |}
  end.

Definition upload_reply (fname : option string) (r : result Z) : reply :=
  match r with
  | Ok serial => Saved fname serial
  | Raise FloodWaitError => RateLimited
  | Raise _ => UploadFailed
  end.

Definition handle_upload (now : Z) (e : env) (user : Tg.user)
    (msg : Tg.message) (ud : user_data) (d : db) : reply * user_data * db :=
  let d := snd (ensure_user now user d) in
  match selected_group ud with
  | None => (SelectGroupFirst, ud, d)
  | Some gid =>
      match upload_media msg with
      | None => (UnsupportedFileType, ud, d)
      | Some (fname, fsize) =>
          let '(r, d') :=
            (sid <- await (forward e) ;;
             register_file now gid e fname fsize sid (Tg.id user)) d in
          (upload_reply fname r, after_upload ud, d')
      end
  end.

(** ** Links ([create_share_link], lines 232-239) *)

(** [INSERT INTO links (code,file_id,group_id,owner_id,expires_at,
     max_downloads) VALUES(...)]; [code] is [UNIQUE], [downloads] and
    [active] take their defaults 0 and [TRUE]. *)
Definition insert_link (now : Z) (code : string) (fid gid owner : Z)
    (expires_at max_downloads : option Z) : M unit :=
  fun d =>
    let k := links_id_seq d in
    if existsb (fun l => String.eqb (Links.code l) code) (links d)
    then (Raise (UniqueViolationError "links_code_key"),
          set_links (links d) (k + 1) d)
    else (Ok tt,
          set_links
            (links d ++
             [{| Links.id := k; Links.code := code; Links.file_id := fid;
                 Links.group_id := gid; Links.owner_id := owner;
                 Links.expires_at := expires_at;
                 Links.max_downloads := max_downloads; Links.downloads := 0;
                 Links.created_at := now; Links.active := true |}])
            (k + 1) d).

(** [if expires_seconds: expires_at = datetime.utcnow() +
     timedelta(seconds=expires_seconds)]: [None] and 0 are falsy. *)
Definition expiry_of (now : Z) (expires_seconds : option Z) : option Z :=
  match expires_seconds with
  | Some s => if s =? 0 then None else Some (now + s)
  | None => None
  end.

(** Returns the code, or [None] when [if not file_id] holds: no row, or a
    row whose id is 0. *)
Definition create_share_link (now : Z) (e : env) (group_id serial owner_id : Z)
    (expires_seconds max_downloads : option Z) : M (option string) :=
  let code := gen_code (urandom e) in
  let expires_at := expiry_of now expires_seconds in
  file <- select_file group_id serial ;;
  match file with
  | None => ret None
  | Some f =>
      if Files.id f =? 0 then ret None
      else
        insert_link now code (Files.id f) group_id owner_id expires_at
          max_downloads ;;
        ret (Some code)
  end.

(** ** Handlers *)

(** [try: m except Exception: h]. *)
Definition catch {A} (m : M A) (h : exn -> M A) : M A :=
  fun d =>
    match m d with
    | (Raise e, d') => h e d'
    | r => r
    end.

(** [cmd_start] (lines 127-129).  [args] is [ctx.args], the payload of a
    deep link [https://t.me/<bot>?start=<code>]; the handler does not read it. *)
Definition cmd_start (now : Z) (user : Tg.user) (args : list string) : M reply :=
  ensure_user now user ;;
  ret Welcome.

(** [choose_group_ui] (lines 137-147); the keyboard it shows is not modelled. *)
Definition choose_group_ui (now : Z) (user : Tg.user) (bulk : bool)
    (ud : user_data) (d : db) : reply * user_data * db :=
  (SelectGroup,
   {| upload_group_id := upload_group_id ud; is_bulk_upload := Some bulk;
      awaiting_new_group := awaiting_new_group ud |},
   snd (ensure_user now user d)).

(** [query.data] after [split(":")] and [int(...)]: the action and its
    arguments.  [Malformed] is a known action whose arguments do not parse
    (the [IndexError] or [ValueError] reaches the outer [except]); [Other] is
    any other action. *)
Inductive callback : Type :=
  | Pick (gid : Z)
  | NewGroup
  | Open (gid : Z)
  | Download (gid serial : Z)
  | Share (gid serial : Z)
  | ShareC (gid serial seconds : Z)
  | Delete (gid serial : Z)
  | Home
  | Other
  | Malformed.

(** [query.from_user.id != owner and not is_admin(query.from_user.id)], where
    [owner] is [None] when the group has no row. *)
Definition not_permitted (ADMIN_IDS : list Z) (uid : Z)
    (owner : option Z) : bool :=
  negb (match owner with Some o => uid =? o | None => false end)
  && negb (is_admin ADMIN_IDS uid).

(** The [delete] branch (lines 276-287). *)
Definition delete_item (ADMIN_IDS : list Z) (e : env) (uid gid serial : Z)
    : M reply :=
  row <- select_file gid serial ;;
  match row with
  | None => ret FileNotFound
  | Some f =>
      g <- select_group gid ;;
      if not_permitted ADMIN_IDS uid (option_map Groups.owner_id g)
      then ret NotPermitted
      else
        delete_file (Files.id f) ;;
        update_group gid dec_total_files ;;
        catch (await (delete_message e)) (fun _ => ret tt) ;;
        ret Deleted
  end.

(** The [download] branch (lines 253-263). *)
Definition download_item (now : Z) (e : env) (uid gid serial : Z) : M reply :=
  row <- select_file gid serial ;;
  match row with
  | None => ret FileNotFound
  | Some _ =>
      catch (await (copy_message e) ;; count_download now uid ;; ret FileSent)
        (fun _ => ret CouldNotSendFile)
  end.

(** The [sharec] branch (lines 271-275). *)
Definition share_item (now : Z) (e : env) (uid gid serial seconds : Z)
    : M reply :=
  code <- create_share_link now e gid serial uid
            (if 0 <? seconds then Some seconds else None) None ;;
  match code with
  | None => ret CouldNotCreateLink
  | Some c => if String.eqb c "" then ret CouldNotCreateLink else ret (LinkCreated c)
  end.

(** [open_group] (lines 215-229); the file list it renders is not modelled. *)
Definition open_group (gid : Z) : M reply :=
  g <- select_group gid ;;
  match g with
  | None => ret GroupNotFound
  | Some g => ret (Opened g)
  end.

Definition set_upload_group (gid : Z) (ud : user_data) : user_data :=
  {| upload_group_id := Some gid; is_bulk_upload := is_bulk_upload ud;
     awaiting_new_group := awaiting_new_group ud |}.

Definition set_awaiting_new_group (ud : user_data) : user_data :=
  {| upload_group_id := upload_group_id ud; is_bulk_upload := is_bulk_upload ud;
     awaiting_new_group := Some true |}.

(** [callback_handler] (lines 242-295): each branch runs inside the outer
    [try], whose [except] answers "Error processing action." *)
Definition callback_handler (ADMIN_IDS : list Z) (now : Z) (e : env)
    (uid : Z) (cb : callback) (ud : user_data) (d : db)
    : reply * user_data * db :=
  let run (m : M reply) (ud' : user_data) :=
    match m d with
    | (Ok r, d') => (r, ud', d')
    | (Raise _, d') => (ErrorProcessingAction, ud', d')
    end in
  match cb with
  | Pick gid =>
      run (g <- select_group gid ;; ret (Selected (option_map Groups.name g)))
        (set_upload_group gid ud)
  | NewGroup => run (ret SendGroupName) (set_awaiting_new_group ud)
  | Open gid => run (open_group gid) ud
  | Download gid serial => run (download_item now e uid gid serial) ud
  | Share _ _ => run (ret ChooseExpiry) ud
  | ShareC gid serial seconds => run (share_item now e uid gid serial seconds) ud
  | Delete gid serial => run (delete_item ADMIN_IDS e uid gid serial) ud
  | Home => run (ret HomeMenu) ud
  | Other => run (ret UnknownAction) ud
  | Malformed => (ErrorProcessingAction, ud, d)
  end.

(** ** Callback data (line 243) and the keyboards that carry it *)

(** [s.split(sep)] for a separator of one character. *)
Fixpoint split (sep : ascii) (s : string) : list string :=
  match s with
  | EmptyString => [EmptyString]
  | String c s' =>
      if Ascii.eqb c sep then EmptyString :: split sep s'
      else
        match split sep s' with
        | p :: ps => String c p :: ps
        | [] => [String c EmptyString]
        end
  end.

(** [str(n)], which is what [f"{n}"] puts for an integer: its decimal
    numeral, with [-] before a negative one. *)
Definition py_str (n : Z) : string := NilZero.string_of_int (Z.to_int n).

Section CallbackData.

(** [int(s)] on a text: the number, or [None] for [ValueError]. *)
Variable int : string -> option Z.

(** [int(parts[i])]; [None] stands for [IndexError] too. *)
Definition int_part (parts : list string) (i : nat) : option Z :=
  match nth_error parts i with
  | Some p => int p
  | None => None
  end.

Definition with_gid (parts : list string) (k : Z -> callback) : callback :=
  match int_part parts 1 with
  | Some gid => k gid
  | None => Malformed
  end.

Definition with_serial (parts : list string) (k : Z -> Z -> callback)
    : callback :=
  with_gid parts (fun gid =>
    match int_part parts 2 with
    | Some serial => k gid serial
    | None => Malformed
    end).

Definition with_seconds (parts : list string) (k : Z -> Z -> Z -> callback)
    : callback :=
  with_serial parts (fun gid serial =>
    match int_part parts 3 with
    | Some seconds => k gid serial seconds
    | None => Malformed
    end).

(** The [if action == ... elif ...] chain with the [int(parts[i])] of each
    branch. *)
Definition of_parts (parts : list string) : callback :=
  let action := hd EmptyString parts in
  if String.eqb action "pick" then with_gid parts Pick
  else if String.eqb action "newgroup" then NewGroup
  else if String.eqb action "open" then with_gid parts Open
  else if String.eqb action "download" || String.eqb action "download_file"
  then with_serial parts Download
  else if String.eqb action "share" then with_serial parts Share
  else if String.eqb action "sharec" then with_seconds parts ShareC
  else if String.eqb action "delete" then with_serial parts Delete
  else if String.eqb action "home" then Home
  else Other.

(** [data = (query.data or ""); parts = data.split(":")]. *)
Definition parse_callback (data : option string) : callback :=
  of_parts
    (split ":" (match data with Some s => s | None => EmptyString end)).

(** [callback_handler] on the data the button carried. *)
Definition on_callback_query (ADMIN_IDS : list Z) (now : Z) (e : env)
    (uid : Z) (data : option string) (ud : user_data) (d : db)
    : reply * user_data * db :=
  callback_handler ADMIN_IDS now e uid (parse_callback data) ud d.

End CallbackData.

(** The [callback_data] of the inline keyboards, button by button. *)
Module Keyboard.

Definition data1 (action : string) (a : Z) : string :=
  (action ++ ":" ++ py_str a)%string.

Definition data2 (action : string) (a b : Z) : string :=
  (action ++ ":" ++ py_str a ++ ":" ++ py_str b)%string.

Definition data3 (action : string) (a b c : Z) : string :=
  (action ++ ":" ++ py_str a ++ ":" ++ py_str b ++ ":" ++ py_str c)%string.

(** [file_actions_inline] (lines 108-118). *)
Definition file_actions_inline (group_id serial : Z) : list string :=
  [data2 "download" group_id serial; data2 "share" group_id serial;
   data2 "rename" group_id serial; data2 "caption" group_id serial;
   data2 "stats" group_id serial; data2 "delete" group_id serial;
   data2 "replace" group_id serial; "home"%string].

(** The expiry menu of the [share] branch (lines 266-269). *)
Definition expiry_options (gid serial : Z) : list string :=
  [data3 "sharec" gid serial 300; data3 "sharec" gid serial 600;
   data3 "sharec" gid serial 1800; data3 "sharec" gid serial 3600;
   data3 "sharec" gid serial 86400; data3 "sharec" gid serial 0;
   "home"%string].

(** [choose_group_ui] (lines 142-145) over the ids of the listed groups. *)
Definition choose_group (ids : list Z) : list string :=
  map (data1 "pick") ids ++ ["newgroup"; "home"]%string.

(** [list_groups_ui] (lines 206-212) over the ids of the listed groups;
    without groups the answer has no inline keyboard. *)
Definition list_groups (ids : list Z) : list string :=
  match ids with
  | [] => []
  | _ :: _ => map (data1 "open") ids ++ ["home"%string]
  end.

(** [open_group] (lines 222-228), when the group exists, over the serials
    of the listed files. *)
Definition open_group (gid : Z) (serials : list Z) : list string :=
  flat_map
    (fun serial =>
       [data2 "download" gid serial; data2 "share" gid serial;
        data2 "delete" gid serial])
    serials
  ++ ["home"%string].

(** [manage_files_ui] (lines 313-317) over the listed rows; without rows
    the answer has no inline keyboard. *)
Definition manage_files (rows : list (Z * Z * option string)) : list string :=
  match rows with
  | [] => []
  | _ :: _ =>
      map (fun r => data2 "openf" (fst (fst r)) (snd (fst r))) rows
      ++ ["home"%string]
  end.

(** [do_search] (lines 324-328) over the rows found; without rows the
    answer has no inline keyboard. *)
Definition search_results (rows : list (Z * Z * option string)) : list string :=
  match rows with
  | [] => []
  | _ :: _ =>
      map (fun r => data2 "download" (fst (fst r)) (snd (fst r))) rows
      ++ ["home"%string]
  end.

(** [admin_ui] (line 334). *)
Definition admin : list string := ["admin_stats"; "admin_backup"; "home"]%string.

End Keyboard.

(** ** Background expiry worker ([expiry_worker], lines 81-91) *)

(** [active = TRUE AND expires_at IS NOT NULL AND expires_at <= NOW()]. *)
Definition expired (now : Z) (l : Links.row) : bool :=
  Links.active l
  && match Links.expires_at l with
     | Some t => t <=? now
     | None => false
     end.

(** [UPDATE links SET active = FALSE WHERE id = $1]. *)
Definition deactivate_link (lid : Z) (d : db) : db :=
  set_links
    (map (fun l => if Links.id l =? lid then Links.deactivate l else l) (links d))
    (links_id_seq d) d.

(** One pass of the loop body.  [stop] is [Some n] when an exception ends the
    pass after [n] updates (the worker logs it and sleeps 5 seconds), [None]
    when the pass completes. *)
Definition expiry_cycle (now : Z) (stop : option nat) (d : db) : db :=
  let rows := filter (expired now) (links d) in
  let done :=
    match stop with
    | Some n => firstn n rows
    | None => rows
    end in
  fold_left (fun d r => deactivate_link (Links.id r) d) done d.

(** Any number of passes of the [while True] loop, each at its own time. *)
Definition expiry_worker (passes : list (Z * option nat)) (d : db) : db :=
  fold_left (fun d p => expiry_cycle (fst p) (snd p) d) passes d.

(** ** Search ([do_search], lines 320-329) *)

Module Like.

(** PostgreSQL's [ILIKE]: [%] matches any run of characters, [_] any one
    character, a backslash takes the next character literally; letters are
    compared after lowering them (ASCII letters here). *)
Inductive token : Type :=
  | AnyRun
  | AnyOne
  | Lit (c : ascii).

(** [None]: the pattern ends in an escape character, which PostgreSQL
    rejects. *)
Fixpoint tokens (p : list ascii) : option (list token) :=
  match p with
  | [] => Some []
  | c :: p' =>
      if Ascii.eqb c "\" then
        match p' with
        | [] => None
        | x :: p'' => option_map (cons (Lit x)) (tokens p'')
        end
      else if Ascii.eqb c "%" then option_map (cons AnyRun) (tokens p')
      else if Ascii.eqb c "_" then option_map (cons AnyOne) (tokens p')
      else option_map (cons (Lit c)) (tokens p')
  end.

Definition lower (c : ascii) : ascii :=
  let n := N_of_ascii c in
  if ((65 <=? n) && (n <=? 90))%N then ascii_of_N (n + 32) else c.

Definition same_letter (x c : ascii) : bool :=
  Ascii.eqb (lower x) (lower c).

Fixpoint matches (ts : list token) (s : list ascii) : bool :=
  match ts with
  | [] =>
      match s with
      | [] => true
      | _ :: _ => false
      end
  | AnyRun :: ts' =>
      (fix skip (s : list ascii) : bool :=
         matches ts' s
         || match s with
            | [] => false
            | _ :: s' => skip s'
            end) s
  | AnyOne :: ts' =>
      match s with
      | [] => false
      | _ :: s' => matches ts' s'
      end
  | Lit c :: ts' =>
      match s with
      | [] => false
      | x :: s' => same_letter x c && matches ts' s'
      end
  end.

End Like.

(** [file_name ILIKE $1] as a [WHERE] condition: a [NULL] name is not
    selected. *)
Definition name_ilike (ts : list Like.token) (f : Files.row) : bool :=
  match Files.file_name f with
  | Some n => Like.matches ts (list_ascii_of_string n)
  | None => false
  end.

Definition search_row (f : Files.row) : Z * Z * option string :=
  (Files.group_id f, Files.serial f, Files.file_name f).

(** [SELECT group_id,serial,file_name FROM files WHERE file_name ILIKE $1
     LIMIT 25] with [$1 = f"%{q}%"]: the rows come in the order the table is
    scanned, the query has no [ORDER BY]. *)
Definition search_files (q : string) (d : db) : option (list Files.row) :=
  option_map (fun ts => firstn 25 (filter (name_ilike ts) (files d)))
    (Like.tokens (list_ascii_of_string ("%" ++ q ++ "%"))).

Definition do_search (q : string) (d : db) : option reply :=
  option_map
    (fun rows =>
       match rows with
       | [] => NoResults
       | _ :: _ => Results (map search_row rows)
       end)
    (search_files q d).

(** ** Text messages ([message_router], lines 149-168) *)

(** The labels of the reply keyboard, byte for byte as the source file has
    them (UTF-8): a pictogram, a space and the words. *)
Module Menu.

Definition label (pictogram : list byte) (words : string) : string :=
  (string_of_list_byte pictogram ++ " " ++ words)%string.

Definition upload : string :=
  label [xef; xa3; xbf; xc3; xbc; xc3; xac; xc2; xa7] "Upload".
Definition bulk_upload : string :=
  label [xef; xa3; xbf; xc3; xbc; xc3; xac; xc2; xb6] "Bulk Upload".
Definition my_links : string :=
  label [xef; xa3; xbf; xc3; xbc; xc3; xae; xc3; xb3] "My Links".
Definition my_files : string :=
  label [xef; xa3; xbf; xc3; xbc; xc3; xac; xc3; x87] "My Files".
Definition my_groups : string :=
  label [xef; xa3; xbf; xc3; xbc; xc3; xab; xe2; x80; xa2] "My Groups".
Definition search : string :=
  label [xef; xa3; xbf; xc3; xbc; xc3; xae; xc3; xa9] "Search".
Definition settings : string :=
  label [xe2; x80; x9a; xc3; xb6; xc3; xb4; xc3; x94; xe2; x88; x8f; xc3; xa8]
    "Settings".
Definition help : string :=
  label [xe2; x80; x9a; xc3; xb9; xc3; xac] "Help".
Definition admin : string :=
  label [xef; xa3; xbf; xc3; xbc; xc3; xab; xc3; xab] "Admin".

(** [main_keyboard] (lines 94-103), row by row. *)
Definition main_keyboard (is_admin_user : bool) : list string :=
  [upload; bulk_upload; my_links; my_files; my_groups; search; settings; help]
  ++ (if is_admin_user then [admin] else []).

End Menu.

(** [ctx.user_data] with the key the router adds to those of [user_data]. *)
Record router_data := {
  handler_data : user_data;
  awaiting_search : option bool
}.

(** [ctx.user_data.get(key)] as a condition. *)
Definition truthy (flag : option bool) : bool :=
  match flag with
  | Some b => b
  | None => false
  end.

(** What a text message leads to: the answer of a handler modelled above, a
    listing or a notice whose text is not modelled, or the call of a name the
    file does not define, which raises [NameError]. *)
Inductive routed : Type :=
  | Answered (r : reply)
  | MyLinks
  | MyFiles
  | MyGroups
  | SendSearchText
  | HelpText
  | AdminPanel
  | AdminsOnly
  | QueryRefused
  | UseTheButtons
  | Undefined (name : string).

(** [admin_ui] (lines 332-335). *)
Definition admin_ui (ADMIN_IDS : list Z) (uid : Z) : routed :=
  if negb (is_admin ADMIN_IDS uid) then AdminsOnly else AdminPanel.

(** [any([msg.document, msg.photo, msg.video, msg.audio, msg.voice])]. *)
Definition has_media (msg : Tg.message) : bool :=
  match Tg.document msg, Tg.photo msg, Tg.video msg, Tg.audio msg, Tg.voice msg with
  | None, [], None, None, None => false
  | _, _, _, _, _ => true
  end.

Definition pop_awaiting_new_group (ud : user_data) : user_data :=
  {| upload_group_id := upload_group_id ud; is_bulk_upload := is_bulk_upload ud;
     awaiting_new_group := None |}.

(** [txt] is the message text after [(text or "").strip()]. *)
Definition message_router (ADMIN_IDS : list Z) (now : Z) (e : env)
    (user : Tg.user) (txt : string) (msg : Tg.message) (rd : router_data)
    (d : db) : routed * router_data * db :=
  let choose (bulk : bool) :=
    let '(r, ud, d') := choose_group_ui now user bulk (handler_data rd) d in
    (Answered r,
     {| handler_data := ud; awaiting_search := awaiting_search rd |}, d') in
  if String.eqb txt Menu.upload then choose false
  else if String.eqb txt Menu.bulk_upload then choose true
  else if String.eqb txt Menu.my_links then (MyLinks, rd, d)
  else if String.eqb txt Menu.my_files then (MyFiles, rd, d)
  else if String.eqb txt Menu.my_groups then (MyGroups, rd, d)
  else if String.eqb txt Menu.search
  then (SendSearchText,
        {| handler_data := handler_data rd; awaiting_search := Some true |}, d)
  else if String.eqb txt Menu.settings then (Undefined "settings_ui", rd, d)
  else if String.eqb txt Menu.help then (HelpText, rd, d)
  else if String.eqb txt Menu.admin && is_admin ADMIN_IDS (Tg.id user)
  then (admin_ui ADMIN_IDS (Tg.id user), rd, d)
  else if truthy (awaiting_search rd) && negb (String.eqb txt EmptyString)
  then (match do_search txt d with
        | Some r => Answered r
        | None => QueryRefused
        end,
        {| handler_data := handler_data rd; awaiting_search := None |}, d)
  else if truthy (awaiting_new_group (handler_data rd))
          && negb (String.eqb txt EmptyString)
  then (Undefined "create_group_from_text",
        {| handler_data := pop_awaiting_new_group (handler_data rd);
           awaiting_search := awaiting_search rd |}, d)
  else if has_media msg
  then
    let '(r, ud, d') := handle_upload now e user msg (handler_data rd) d in
    (Answered r,
     {| handler_data := ud; awaiting_search := awaiting_search rd |}, d')
  else (UseTheButtons, rd, d).

(** ** The bot as a transition system *)

Inductive update : Type :=
  | Start (user : Tg.user) (args : list string)
  | ChooseGroup (user : Tg.user) (bulk : bool)
  | Upload (e : env) (user : Tg.user) (msg : Tg.message)
  | Callback (e : env) (uid : Z) (cb : callback)
  | Search (q : string)
  | ExpiryPass (stop : option nat).

Record state := {
  st_db : db;
  st_user_data : Z -> user_data
}.

Definition initial_state : state :=
  {| st_db := empty_db; st_user_data := fun _ => no_user_data |}.

Definition put_user_data (uid : Z) (ud : user_data) (s : Z -> user_data)
    : Z -> user_data :=
  fun u => if u =? uid then ud else s u.

(** One update handled at time [now]; the reply is dropped. *)
Definition step (ADMIN_IDS : list Z) (s : state) (ev : Z * update) : state :=
  let now := fst ev in
  match snd ev with
  | Start user args =>
      {| st_db := snd (cmd_start now user args (st_db s));
         st_user_data := st_user_data s |}
  | ChooseGroup user bulk =>
      let '(_, ud, d) :=
        choose_group_ui now user bulk (st_user_data s (Tg.id user)) (st_db s) in
      {| st_db := d; st_user_data := put_user_data (Tg.id user) ud (st_user_data s) |}
  | Upload e user msg =>
      let '(_, ud, d) :=
        handle_upload now e user msg (st_user_data s (Tg.id user)) (st_db s) in
      {| st_db := d; st_user_data := put_user_data (Tg.id user) ud (st_user_data s) |}
  | Callback e uid cb =>
      let '(_, ud, d) :=
        callback_handler ADMIN_IDS now e uid cb (st_user_data s uid) (st_db s) in
      {| st_db := d; st_user_data := put_user_data uid ud (st_user_data s) |}
  | Search _ => s
  | ExpiryPass stop =>
      {| st_db := expiry_cycle now stop (st_db s); st_user_data := st_user_data s |}
  end.

Definition run (ADMIN_IDS : list Z) (evs : list (Z * update)) (s : state)
    : state :=
  fold_left (step ADMIN_IDS) evs s.

(** ** Vocabulary of the statements below *)

(** The updates that delete a file. *)
Definition deletes (u : update) : bool :=
  match u with
  | Callback _ _ (Delete _ _) => true
  | _ => false
  end.

(** The list 1, 2, ..., n. *)
Definition one_to (n : nat) : list Z := map Z.of_nat (seq 1 n).

(** One user sending files one after another: [handle_upload] once per
    message, the user's conversation state and the database passed along. *)
Fixpoint upload_all (user : Tg.user) (reqs : list (Z * env * Tg.message))
    (ud : user_data) (d : db) : list reply * user_data * db :=
  match reqs with
  | [] => ([], ud, d)
  | (now, e, msg) :: reqs' =>
      let '(r, ud1, d1) := handle_upload now e user msg ud d in
      let '(rs, ud2, d2) := upload_all user reqs' ud1 d1 in
      (r :: rs, ud2, d2)
  end.

(** The serial number a reply reports, when it reports a stored file. *)
Definition saved_serial (r : reply) : option Z :=
  match r with
  | Saved _ n => Some n
  | _ => None
  end.

(** A user's uploads counter: the [uploads] of the user's [stats] rows,
    0 when the user has none. *)
Definition uploads_of (uid : Z) (d : db) : Z :=
  fold_right Z.add 0
    (map Stats.uploads (filter (fun r => Stats.user_id r =? uid) (stats d))).

(** What the schema's keys guarantee: [id] is a [SERIAL PRIMARY KEY], so
    the ids of a table are distinct values its sequence has handed out
    (the sequences start at 1). *)
Record keys_ok (d : db) : Prop := {
  file_ids_distinct : NoDup (map Files.id (files d));
  file_ids_issued : Forall (fun f => 1 <= Files.id f < files_id_seq d) (files d);
  link_ids_distinct : NoDup (map Links.id (links d));
  link_ids_issued : Forall (fun l => 1 <= Links.id l < links_id_seq d) (links d);
  files_seq_started : 1 <= files_id_seq d;
  links_seq_started : 1 <= links_id_seq d
}.

(** A statement, or a handler's sequence of statements, keeps an invariant
    of the database whether it returns or raises. *)
Definition preserves {A} (P : db -> Prop) (m : M A) : Prop :=
  forall d, P d -> P (snd (m d)).

(** Two link rows that agree on every column but [active]. *)
Definition same_but_active (l l' : Links.row) : Prop :=
  Links.id l' = Links.id l /\ Links.code l' = Links.code l
  /\ Links.file_id l' = Links.file_id l /\ Links.group_id l' = Links.group_id l
  /\ Links.owner_id l' = Links.owner_id l
  /\ Links.expires_at l' = Links.expires_at l
  /\ Links.max_downloads l' = Links.max_downloads l
  /\ Links.downloads l' = Links.downloads l
  /\ Links.created_at l' = Links.created_at l.

(** The outcomes the specification names for resolving a link code. *)
Inductive resolution : Type :=
  | Resolved
  | Expired
  | Exhausted
  | NotFound
  | Inactive.

(** The outcome a reply tells the user.  The source hands out files through
    the [download] button, by group and serial; none of its replies says that
    a link is expired, exhausted or inactive. *)
Definition reported_resolution (r : reply) : option resolution :=
  match r with
  | FileSent => Some Resolved
  | FileNotFound => Some NotFound
  | _ => None
  end.

(** [n] visits of one user through the deep link of [code], one per second
    from [now] on: the replies, and the database after the last. *)
Fixpoint visits (n : nat) (now : Z) (user : Tg.user) (code : string) (d : db)
    : list (result reply) * db :=
  match n with
  | O => ([], d)
  | S n' =>
      let '(r, d1) := cmd_start now user [code] d in
      let '(rs, d2) := visits n' (now + 1) user code d1 in
      (r :: rs, d2)
  end.

(** No link of the database counts a download. *)
Definition never_downloaded (d : db) : Prop :=
  Forall (fun l => Links.downloads l = 0) (links d).






(** ** Sample data for the worked examples *)

Definition sample_env : env :=
  {| urandom := [x00; x01; x02; x03; x04; x05; x06; x07;
                 x08; x09; x0a; x0b; x0c; x0d; x0e; x0f];
     forward := Tg.Done 77;
     copy_message := Tg.Done tt;
     delete_message := Tg.Done tt |}.

(** Group 1, "Docs", owned by user 100, holding one file of 5000 bytes. *)
Definition docs_group : Groups.row :=
  {| Groups.id := 1; Groups.name := "Docs"; Groups.owner_id := 100;
     Groups.created_at := 0; Groups.total_files := 1;
     Groups.total_size := 5000 |}.

Definition report_file : Files.row :=
  {| Files.id := 1; Files.group_id := 1; Files.serial := 1;
     Files.unique_id := "AAECAwQFRgeICQoLDA";
     Files.file_name := Some "report.pdf"%string; Files.file_type := "file";
     Files.file_size := 5000; Files.storage_message_id := 77;
     Files.uploader_id := 100; Files.created_at := 0 |}.

Definition docs_db : db :=
  {| users := []; groups := [docs_group]; files := [report_file];
     links := []; stats := [];
     users_id_seq := 1; groups_id_seq := 2; files_id_seq := 2;
     links_id_seq := 1; stats_id_seq := 1 |}.

Definition visitor : Tg.user :=
  {| Tg.id := 200; Tg.username := Some "guest"%string; Tg.first_name := None |}.

(** A link to the report, created at time 5, that allows one download. *)
Definition limited_link : Links.row :=
  {| Links.id := 1; Links.code := "Zm9vYmFyYmF6cXV4MQ"; Links.file_id := 1;
     Links.group_id := 1; Links.owner_id := 100; Links.expires_at := None;
     Links.max_downloads := Some 1; Links.downloads := 0;
     Links.created_at := 5; Links.active := true |}.

Definition limited_db : db := set_links [limited_link] 2 docs_db.

(** A link to the report that expired at time 9 and allows two downloads. *)
Definition expired_link : Links.row :=
  {| Links.id := 1; Links.code := "Zm9vYmFyYmF6cXV4Mg"; Links.file_id := 1;
     Links.group_id := 1; Links.owner_id := 100; Links.expires_at := Some 9;
     Links.max_downloads := Some 2; Links.downloads := 0;
     Links.created_at := 5; Links.active := true |}.

Definition expired_db : db := set_links [expired_link] 2 docs_db.

(** User 100 picks group 1 in bulk mode and sends two documents, at times
    1 and 2. *)
Definition bulk_into_docs : user_data :=
  {| upload_group_id := Some 1; is_bulk_upload := Some true;
     awaiting_new_group := None |}.

Definition owner : Tg.user :=
  {| Tg.id := 100; Tg.username := Some "owner"%string;
     Tg.first_name := Some "Olga"%string |}.

Definition document_message (uid name : string) (size : Z) : Tg.message :=
  {| Tg.document := Some {| Tg.file_unique_id := uid;
                            Tg.file_name := Some name;
                            Tg.file_size := Some size |};
     Tg.photo := []; Tg.video := None; Tg.audio := None; Tg.voice := None |}.

Definition env_with (b : byte) (sid : Z) : env :=
  {| urandom := repeat b 16; forward := Tg.Done sid;
     copy_message := Tg.Done tt; delete_message := Tg.Done tt |}.

Definition two_uploads : list (Z * env * Tg.message) :=
  [(1, env_with x01 501, document_message "u1" "notes-old.txt" 10);
   (2, env_with x02 502, document_message "u2" "notes-new.txt" 20)].

Definition empty_docs_db : db :=
  {| users := [];
     groups := [{| Groups.id := 1; Groups.name := "Docs";
                   Groups.owner_id := 100; Groups.created_at := 0;
                   Groups.total_files := 0; Groups.total_size := 0 |}];
     files := []; links := []; stats := [];
     users_id_seq := 1; groups_id_seq := 2; files_id_seq := 1;
     links_id_seq := 1; stats_id_seq := 1 |}.

Definition notes_db : db :=
  snd (upload_all owner two_uploads bulk_into_docs empty_docs_db).





(** The storage channel answers a forward with [RetryAfter]. *)
Definition flood_env : env :=
  {| urandom := repeat x01 16; forward := Tg.RetryAfter;
     copy_message := Tg.Done tt; delete_message := Tg.Done tt |}.

(** Group 1 picked through "Upload", not "Bulk Upload". *)
Definition single_into_docs : user_data :=
  {| upload_group_id := Some 1; is_bulk_upload := Some false;
     awaiting_new_group := None |}.

(** User 200 again, under another username. *)
Definition renamed_visitor : Tg.user :=
  {| Tg.id := 200; Tg.username := Some "visitor"%string;
     Tg.first_name := Some "Vic"%string |}.

(** A text message: no file of any kind. *)
Definition text_message : Tg.message :=
  {| Tg.document := None; Tg.photo := []; Tg.video := None;
     Tg.audio := None; Tg.voice := None |}.

(** The first fourteen random bytes of [sample_env]. *)
Definition sample_prefix : list byte :=
  [x00; x01; x02; x03; x04; x05; x06; x07; x08; x09; x0a; x0b; x0c; x0d].

(** [sample_env] with another two bytes at the end of the random draw. *)
Definition other_tail_env : env :=
  {| urandom := sample_prefix ++ [xff; xfe];
     forward := Tg.Done 78;
     copy_message := Tg.Done tt;
     delete_message := Tg.Done tt |}.

(** Decimal numerals, the part of [int] the keyboards need. *)
Definition decimal (s : string) : option Z :=
  option_map Z.of_int (NilZero.int_of_string s).

(** ** Vocabulary of the further properties *)

(** The [UNIQUE] columns of the schema hold no value twice. *)
Record uniques_ok (d : db) : Prop := {
  users_user_id_unique : NoDup (map Users.user_id (users d));
  stats_user_id_unique : NoDup (map Stats.user_id (stats d));
  files_unique_id_unique : NoDup (map Files.unique_id (files d));
  links_code_unique : NoDup (map Links.code (links d))
}.

(** A user's downloads counter, as [uploads_of]. *)
Definition downloads_of (uid : Z) (d : db) : Z :=
  fold_right Z.add 0
    (map Stats.downloads (filter (fun r => Stats.user_id r =? uid) (stats d))).

(** The number of a group's files and the sum of their sizes. *)
Definition count_files (gid : Z) (d : db) : Z :=
  Z.of_nat (List.length (filter (in_group gid) (files d))).

Definition sum_sizes (gid : Z) (d : db) : Z :=
  fold_right Z.add 0 (map Files.file_size (filter (in_group gid) (files d))).


(** [l'] is [l] later on: the same row, except that it may have been
    deactivated. *)
Definition link_later (l l' : Links.row) : Prop :=
  same_but_active l l' /\ (Links.active l' = true -> Links.active l = true).

(** The links of [d0] are still in [d], in place and at most deactivated,
    followed by the links issued since. *)
Definition links_grown (d0 d : db) : Prop :=
  exists old new,
    links d = old ++ new /\ Forall2 link_later (links d0) old.

(** What [uuid4] makes of single bytes: the version nibble 4 in place of
    the high half of a byte, the variant bits 10 in place of its two highest
    bits. *)
Definition clear_bits (m : N) (b : byte) : byte :=
  Uuid.byte_of_N (N.ldiff (Byte.to_N b) m).

Definition set_version (b : byte) : byte :=
  Uuid.byte_of_N (N.lor (N.ldiff (Byte.to_N b) 0xf0) 0x40).

Definition set_variant (b : byte) : byte :=
  Uuid.byte_of_N (N.lor (N.ldiff (Byte.to_N b) 0xc0) 0x80).

(** The byte at index [i] of a version-4 UUID made from the random byte [b]. *)
Definition uuid4_byte (i : nat) (b : byte) : byte :=
  if Nat.eqb i 6 then set_version b
  else if Nat.eqb i 8 then set_variant b
  else b.

(** No character of [s] is [sep]. *)
Fixpoint no_sep (sep : ascii) (s : string) : bool :=
  match s with
  | EmptyString => true
  | String c s' => negb (Ascii.eqb c sep) && no_sep sep s'
  end.

(** [g'] is the group [g] with, at most, other totals. *)
Definition same_group (g g' : Groups.row) : Prop :=
  Groups.id g' = Groups.id g /\ Groups.name g' = Groups.name g
  /\ Groups.owner_id g' = Groups.owner_id g
  /\ Groups.created_at g' = Groups.created_at g.

(** * Properties *)

(** ** The token generator *)

Lemma string_length_of_list (l : list ascii) :
  String.length (string_of_list_ascii l) = List.length l.
Proof.
  induction l as [|c l IH]; simpl; [reflexivity | now rewrite IH].
Qed.

Lemma to_bytes_be_length (n : nat) (x : N) :
  List.length (Uuid.to_bytes_be n x) = n.
Proof.
  revert x; induction n as [|n IH]; intros x; simpl; [reflexivity|].
  rewrite length_app, IH; simpl; lia.
Qed.

Lemma uuid4_bytes_length (rand : list byte) :
  List.length (Uuid.uuid4_bytes rand) = 16%nat.
Proof. apply to_bytes_be_length. Qed.

(** Every entry of the table, translated, is in the URL-safe alphabet; so is
    the default the lookup falls back on. *)
Lemma b2a_urlsafe (i : N) :
  Base64.urlsafe_char (Base64.urlsafe_translate (Base64.b2a i)) = true.
Proof.
  unfold Base64.b2a.
  assert (Hall : Forall (fun c => Base64.urlsafe_char (Base64.urlsafe_translate c) = true)
                   Base64.table_b2a_base64).
  { apply Forall_forall. apply forallb_forall. vm_compute. reflexivity. }
  destruct (Nat.lt_ge_cases (N.to_nat i) (List.length Base64.table_b2a_base64)) as [Hlt|Hge].
  - rewrite Forall_forall in Hall. apply Hall. now apply nth_In.
  - rewrite nth_overflow by exact Hge. reflexivity.
Qed.

Lemma urlsafe_not_pad (c : ascii) :
  Base64.urlsafe_char c = true -> c <> Base64.pad.
Proof. intros H ->. discriminate H. Qed.

(** [rstrip] leaves a prefix free of the stripped character in place. *)
Lemma rstrip_keeps_prefix (c : ascii) (l1 l2 : list ascii) :
  Forall (fun x => x <> c) l1 ->
  exists r, rstrip c (l1 ++ l2) = l1 ++ r.
Proof.
  induction 1 as [|x l1 Hx Hl1 [r IH]]; simpl.
  - now exists (rstrip c l2).
  - rewrite IH. destruct (l1 ++ r) as [|y t] eqn:E.
    + destruct (app_eq_nil _ _ E) as [-> ->].
      apply Ascii.eqb_neq in Hx. rewrite Hx. now exists [].
    + rewrite <- E. now exists r.
Qed.

(** The encoding of sixteen bytes: twenty-two table characters and two pads. *)
Lemma b64encode_16 (bs : list byte) :
  List.length bs = 16%nat ->
  exists data,
    Base64.urlsafe_b64encode bs = data ++ [Base64.pad; Base64.pad]
    /\ List.length data = 22%nat
    /\ Forall (fun c => Base64.urlsafe_char c = true) data.
Proof.
  intros H.
  do 16 (destruct bs as [|? bs]; [discriminate H|]).
  destruct bs; [|discriminate H].
  unfold Base64.urlsafe_b64encode. cbn [Base64.b64encode map].
  eexists (_ :: _ :: _ :: _ :: _ :: _ :: _ :: _ :: _ :: _ :: _ :: _ :: _ :: _
             :: _ :: _ :: _ :: _ :: _ :: _ :: _ :: [_]).
  split; [|split].
  - cbn [app]. reflexivity.
  - reflexivity.
  - repeat constructor; apply b2a_urlsafe.
Qed.

Lemma gen_code_prefix (rand : list byte) :
  exists data,
    Base64.urlsafe_b64encode (Uuid.uuid4_bytes rand) = data ++ [Base64.pad; Base64.pad]
    /\ List.length data = 22%nat
    /\ Forall (fun c => Base64.urlsafe_char c = true) data
    /\ list_ascii_of_string (gen_code rand) = firstn 18 data.
Proof.
  destruct (b64encode_16 _ (uuid4_bytes_length rand)) as (data & E & Hlen & Hsafe).
  exists data. repeat split; try assumption.
  unfold gen_code. rewrite list_ascii_of_string_of_list_ascii, E.
  destruct (rstrip_keeps_prefix "="%char data [Base64.pad; Base64.pad]) as [r Hr].
  { eapply Forall_impl; [|exact Hsafe]. intros c Hc. now apply urlsafe_not_pad. }
  rewrite Hr, firstn_app, Hlen. simpl (18 - 22)%nat.
  now rewrite firstn_O, app_nil_r.
Qed.

Lemma gen_code_length (rand : list byte) :
  String.length (gen_code rand) = 18%nat.
Proof.
  destruct (gen_code_prefix rand) as (data & E & Hlen & Hsafe & Hcode).
  rewrite <- (string_of_list_ascii_of_string (gen_code rand)), Hcode.
  rewrite string_length_of_list, length_firstn, Hlen. reflexivity.
Qed.

(** C9.  Every code [gen_code] produces has exactly 18 characters, each of
    the URL-safe base64 alphabet (A-Z, a-z, 0-9, [-], [_]); it is the first 18
    characters of the URL-safe base64 encoding of the UUID's 16 bytes
    (128 bits). *)
Theorem gen_code_format (rand : list byte) :
  String.length (gen_code rand) = 18%nat
  /\ Forall (fun c => Base64.urlsafe_char c = true)
       (list_ascii_of_string (gen_code rand))
  /\ List.length (Uuid.uuid4_bytes rand) = 16%nat
  /\ list_ascii_of_string (gen_code rand)
     = firstn 18 (Base64.urlsafe_b64encode (Uuid.uuid4_bytes rand)).
Proof.
  destruct (gen_code_prefix rand) as (data & E & Hlen & Hsafe & Hcode).
  assert (Hfirst : firstn 18 (Base64.urlsafe_b64encode (Uuid.uuid4_bytes rand))
                   = firstn 18 data).
  { rewrite E, firstn_app, Hlen. simpl (18 - 22)%nat.
    now rewrite firstn_O, app_nil_r. }
  split; [|split; [|split]].
  - apply gen_code_length.
  - rewrite Hcode. apply Forall_forall. intros c Hc.
    rewrite Forall_forall in Hsafe. apply Hsafe.
    rewrite <- (firstn_skipn 18 data). apply in_or_app. now left.
  - apply uuid4_bytes_length.
  - now rewrite Hfirst.
Qed.

(** ** Frame lemmas: what each statement leaves alone *)

Ltac break_goal :=
  match goal with
  | |- context [match ?x with _ => _ end] => destruct x eqn:?
  end.

Ltac unfold_stmts :=
  unfold ensure_user, insert_user, touch_stats, count_upload, count_download,
    upsert_stats, update_group, select_file, select_group, delete_file,
    insert_file, insert_link, await, catch, bind, ret, raise, get, modify.

Ltac invert_pairs :=
  repeat match goal with
  | H : (_, _) = (_, _) |- _ => inversion H; subst; clear H
  | H : Ok _ = Ok _ |- _ => inversion H; subst; clear H
  | H : Ok _ = Raise _ |- _ => discriminate H
  | H : Raise _ = Ok _ |- _ => discriminate H
  end.

Ltac break_hyp :=
  match goal with
  | H : context [match ?x with _ => _ end] |- _ => destruct x eqn:?
  end.

Ltac crunch :=
  unfold_stmts; simpl;
  repeat (first [break_goal | break_hyp]; simpl in *; invert_pairs);
  simpl; auto.

Lemma ensure_user_frame (now : Z) (u : Tg.user) (d : db) :
  let d' := snd (ensure_user now u d) in
  files d' = files d /\ groups d' = groups d /\ links d' = links d
  /\ files_id_seq d' = files_id_seq d /\ links_id_seq d' = links_id_seq d.
Proof. crunch. Qed.

Lemma ensure_user_ok (now : Z) (u : Tg.user) (d : db) :
  fst (ensure_user now u d) = Ok tt.
Proof. crunch. Qed.

Lemma cmd_start_db now user args d :
  snd (cmd_start now user args d) = snd (ensure_user now user d).
Proof.
  unfold cmd_start, bind, ret. pose proof (ensure_user_ok now user d) as H.
  destruct (ensure_user now user d) as [[[]|ex] d1]; simpl in *;
    [reflexivity|discriminate].
Qed.

(** ** Sequence numbers *)

Lemma sql_max_snoc (l : list Z) (x : Z) :
  sql_max (l ++ [x])
  = Some (match sql_max l with Some m => Z.max m x | None => x end).
Proof.
  destruct l as [|y l]; simpl; [reflexivity|].
  now rewrite fold_left_app.
Qed.

Lemma one_to_S (n : nat) : one_to (S n) = one_to n ++ [Z.of_nat n + 1].
Proof.
  unfold one_to. rewrite seq_S, map_app. simpl. do 2 f_equal. lia.
Qed.

Lemma max_one_to (n : nat) : coalesce (sql_max (one_to n)) 0 = Z.of_nat n.
Proof.
  induction n as [|n IH]; [reflexivity|].
  rewrite one_to_S, sql_max_snoc. simpl.
  destruct (sql_max (one_to n)); simpl in *; lia.
Qed.

Lemma serials_snoc (g : Z) (d d' : db) (row : Files.row) :
  files d' = files d ++ [row] ->
  serials g d'
  = serials g d ++ (if Files.group_id row =? g then [Files.serial row] else []).
Proof.
  intros E. unfold serials. rewrite E, filter_app, map_app. simpl.
  unfold in_group. now destruct (Files.group_id row =? g).
Qed.

Lemma serials_same (g : Z) (d d' : db) :
  files d' = files d -> serials g d' = serials g d.
Proof. intros E. unfold serials. now rewrite E. Qed.

(** What an upload does to the files table. *)
Lemma handle_upload_files now e user msg ud d :
  let '(r, _, d') := handle_upload now e user msg ud d in
  (files d' = files d /\ forall fname n, r <> Saved fname n)
  \/ exists gid row,
       selected_group ud = Some gid
       /\ files d' = files d ++ [row]
       /\ Files.group_id row = gid
       /\ Files.serial row = next_serial gid d
       /\ forall fname n, r = Saved fname n -> n = Files.serial row.
Proof.
  unfold handle_upload.
  destruct (ensure_user_frame now user d) as (Hf & _).
  destruct (ensure_user now user d) as [r0 d1]. simpl in Hf |- *. clear r0.
  destruct (selected_group ud) as [gid|]; [|left; split; [assumption|discriminate]].
  destruct (upload_media msg) as [[fname fsize]|]; [|left; split; [assumption|discriminate]].
  unfold register_file.
  destruct (forward e) as [sid| |]; unfold_stmts; simpl;
    try (left; split; [assumption|discriminate]).
  destruct (existsb _ (files d1)) eqn:Hex; simpl.
  - left; split; [assumption|discriminate].
  - right. destruct (existsb _ (stats d1)); simpl;
      (eexists gid, _; split; [reflexivity|]; split; [now rewrite Hf|];
       split; [reflexivity|]; split;
       [ simpl; unfold next_serial, serials; now rewrite Hf
       | intros fname' n H; now inversion H ]).
Qed.

Lemma deactivate_all_frame (rows : list Links.row) (d : db) :
  let d' := fold_left (fun d r => deactivate_link (Links.id r) d) rows d in
  files d' = files d /\ groups d' = groups d /\ stats d' = stats d
  /\ users d' = users d.
Proof.
  revert d; induction rows as [|r rows IH]; intros d; simpl; [tauto|].
  specialize (IH (deactivate_link (Links.id r) d)). simpl in IH. exact IH.
Qed.

Lemma expiry_cycle_frame (now : Z) (stop : option nat) (d : db) :
  let d' := expiry_cycle now stop d in
  files d' = files d /\ groups d' = groups d /\ stats d' = stats d
  /\ users d' = users d.
Proof. unfold expiry_cycle. apply deactivate_all_frame. Qed.

Ltac unfold_handlers :=
  unfold callback_handler, cmd_start, choose_group_ui, share_item,
    create_share_link, download_item, delete_item, open_group.

Lemma callback_files (ADMIN_IDS : list Z) now e uid cb ud d :
  deletes (Callback e uid cb) = false ->
  files (snd (callback_handler ADMIN_IDS now e uid cb ud d)) = files d.
Proof.
  destruct cb; simpl; try discriminate; intros _; unfold_handlers; crunch.
Qed.

(** An update other than a delete leaves the files table alone or appends
    one row, numbered by [next_serial]. *)
Lemma step_files (ADMIN_IDS : list Z) (s : state) (ev : Z * update) :
  deletes (snd ev) = false ->
  files (st_db (step ADMIN_IDS s ev)) = files (st_db s)
  \/ exists row,
       files (st_db (step ADMIN_IDS s ev)) = files (st_db s) ++ [row]
       /\ Files.serial row = next_serial (Files.group_id row) (st_db s).
Proof.
  destruct ev as [now u]. unfold step. cbn [fst snd].
  destruct u as [user args|user bulk|e user msg|e uid cb|q|stop]; intros Hd.
  - left. cbn [st_db]. rewrite cmd_start_db. apply ensure_user_frame.
  - left. simpl. apply ensure_user_frame.
  - pose proof (handle_upload_files now e user msg
                  (st_user_data s (Tg.id user)) (st_db s)) as H.
    destruct (handle_upload now e user msg _ _) as [[r ud'] d']. simpl.
    destruct H as [[H _]|(gid & row & _ & H1 & H2 & H3 & _)]; [now left|].
    right. exists row. subst gid. now split.
  - left. pose proof (callback_files ADMIN_IDS now e uid cb
                        (st_user_data s uid) (st_db s) Hd) as H.
    destruct (callback_handler _ _ _ _ _ _ _) as [[r ud'] d']. exact H.
  - now left.
  - left. simpl. apply expiry_cycle_frame.
Qed.

Lemma dense_step (g : Z) (d d' : db) (row : Files.row) :
  serials g d = one_to (List.length (serials g d)) ->
  files d' = files d ++ [row] ->
  Files.serial row = next_serial (Files.group_id row) d ->
  serials g d' = one_to (List.length (serials g d')).
Proof.
  intros Hdense E Hrow. rewrite (serials_snoc g d d' row E).
  destruct (Z.eqb_spec (Files.group_id row) g) as [Hg|_].
  - rewrite Hg in Hrow. rewrite length_app. simpl List.length. rewrite Nat.add_1_r, one_to_S.
    rewrite <- Hdense. f_equal. rewrite Hrow. unfold next_serial.
    rewrite Hdense at 1. now rewrite max_one_to.
  - now rewrite app_nil_r.
Qed.

(** Without deletes, a group whose serials are 1..n keeps serials 1..n'. *)
Lemma run_dense (ADMIN_IDS : list Z) (g : Z) (evs : list (Z * update)) :
  forall s : state,
    forallb (fun ev => negb (deletes (snd ev))) evs = true ->
    serials g (st_db s) = one_to (List.length (serials g (st_db s))) ->
    let d' := st_db (run ADMIN_IDS evs s) in
    serials g d' = one_to (List.length (serials g d')).
Proof.
  induction evs as [|ev evs IH]; intros s Hnd Hdense; simpl; [assumption|].
  simpl in Hnd. apply andb_true_iff in Hnd as [Hev Hnd].
  apply negb_true_iff in Hev.
  apply IH; [assumption|].
  destruct (step_files ADMIN_IDS s ev Hev) as [E|(row & E & Hrow)].
  - now rewrite (serials_same g _ _ E).
  - eapply dense_step; eassumption.
Qed.

Lemma next_serial_spec (gid : Z) (d : db) :
  next_serial gid d
  = match serials gid d with
    | [] => 1
    | x :: xs => fold_left Z.max xs x + 1
    end.
Proof. unfold next_serial. now destruct (serials gid d). Qed.

Lemma after_upload_bulk (ud : user_data) :
  is_bulk_upload ud = Some true -> after_upload ud = ud.
Proof. unfold after_upload. now intros ->. Qed.

Lemma handle_upload_user_data now e user msg ud d :
  is_bulk_upload ud = Some true ->
  snd (fst (handle_upload now e user msg ud d)) = ud.
Proof.
  intros Hb. unfold handle_upload.
  destruct (selected_group ud); [|reflexivity].
  destruct (upload_media msg) as [[fname fsize]|]; [|reflexivity].
  destruct (bind _ _ _) as [r d']. simpl. now apply after_upload_bulk.
Qed.

(** Uploads in bulk mode into a group numbered 1..k: when all are stored, the
    replies report k+1, k+2, ... and the group ends numbered 1..k+n. *)
Lemma upload_all_dense (user : Tg.user) (g : Z)
    (reqs : list (Z * env * Tg.message)) :
  forall (ud : user_data) (d : db) (k : nat),
    selected_group ud = Some g ->
    is_bulk_upload ud = Some true ->
    serials g d = one_to k ->
    let '(rs, _, d') := upload_all user reqs ud d in
    Forall (fun r => saved_serial r <> None) rs ->
    map saved_serial rs
    = map (fun i => Some (Z.of_nat k + i)) (one_to (List.length reqs))
    /\ serials g d' = one_to (k + List.length reqs).
Proof.
  induction reqs as [|[[now e] msg] reqs IH]; intros ud d k Hsel Hbulk Hser.
  - simpl. intros _. now rewrite Nat.add_0_r.
  - cbn [upload_all].
    pose proof (handle_upload_files now e user msg ud d) as Hstep.
    pose proof (handle_upload_user_data now e user msg ud d Hbulk) as Hud.
    destruct (handle_upload now e user msg ud d) as [[r ud1] d1].
    simpl in Hud. subst ud1.
    specialize (IH ud d1 (S k) Hsel Hbulk).
    destruct (upload_all user reqs ud d1) as [[rs ud2] d2].
    intros Hall. inversion Hall as [|? ? Hr Hrs]; subst.
    destruct Hstep as [[_ Hno]|(gid & row & Hg & E & Hrg & Hrow & Hrep)].
    { exfalso. destruct r; try (now apply Hr). now apply (Hno fname serial). }
    rewrite Hsel in Hg. injection Hg as <-.
    assert (Hnext : Files.serial row = Z.of_nat k + 1).
    { rewrite Hrow. unfold next_serial. now rewrite Hser, max_one_to. }
    assert (Hser1 : serials g d1 = one_to (S k)).
    { rewrite (serials_snoc g d d1 row E), Hrg, Z.eqb_refl, Hser, one_to_S.
      now rewrite Hnext. }
    destruct (IH Hser1 Hrs) as [IH1 IH2]. split.
    + cbn [List.length]. unfold one_to. cbn [seq map].
      f_equal.
      * destruct r; try (exfalso; now apply Hr). simpl.
        rewrite (Hrep fname serial eq_refl), Hnext. reflexivity.
      * rewrite IH1. unfold one_to.
        rewrite <- (seq_shift (List.length reqs) 1), !map_map.
        apply map_ext. intros i. f_equal. lia.
    + rewrite IH2. f_equal. simpl. lia.
Qed.

(** C1.  An upload that stores a file appends one row whose serial is one
    plus the largest serial of the selected group (1 when the group has no
    file), and the reply reports that serial; N files sent one after another
    into a group without files, all stored, are numbered 1, 2, ..., N in that
    order, and the group's serials are then exactly 1..N, without duplicates.
    The same holds when other updates come in between, by any user and into
    any group, as long as none deletes a file: a group that started without
    files holds the serials 1..n, n the number of its files. *)
Theorem next_sequence_is_max_plus_one :
  (forall now e user msg ud d,
     let '(r, _, d') := handle_upload now e user msg ud d in
     (files d' = files d /\ forall fname n, r <> Saved fname n)
     \/ exists gid row,
          selected_group ud = Some gid
          /\ files d' = files d ++ [row]
          /\ Files.group_id row = gid
          /\ Files.serial row
             = match serials gid d with
               | [] => 1
               | x :: xs => fold_left Z.max xs x + 1
               end
          /\ forall fname n, r = Saved fname n -> n = Files.serial row)
  /\ (forall user g reqs ud d,
        selected_group ud = Some g ->
        is_bulk_upload ud = Some true ->
        serials g d = [] ->
        let '(rs, _, d') := upload_all user reqs ud d in
        Forall (fun r => saved_serial r <> None) rs ->
        map saved_serial rs = map Some (one_to (List.length reqs))
        /\ serials g d' = one_to (List.length reqs)
        /\ NoDup (serials g d'))
  /\ (forall ADMIN_IDS g evs s,
        forallb (fun ev => negb (deletes (snd ev))) evs = true ->
        serials g (st_db s) = [] ->
        let d' := st_db (run ADMIN_IDS evs s) in
        serials g d' = one_to (List.length (serials g d'))).
Proof.
  split; [|split].
  - intros now e user msg ud d.
    pose proof (handle_upload_files now e user msg ud d) as H.
    destruct (handle_upload now e user msg ud d) as [[r ud'] d'].
    destruct H as [H|(gid & row & H1 & H2 & H3 & H4 & H5)]; [now left|].
    right. exists gid, row. rewrite <- next_serial_spec. auto.
  - intros user g reqs ud d Hsel Hbulk Hempty.
    pose proof (upload_all_dense user g reqs ud d 0 Hsel Hbulk Hempty) as H.
    destruct (upload_all user reqs ud d) as [[rs ud'] d'].
    intros Hall. destruct (H Hall) as [H1 H2]. simpl in H2.
    split; [|split]; [| assumption |].
    + rewrite H1. apply map_ext. intros i. f_equal.
    + rewrite H2. unfold one_to. apply Injective_map_NoDup.
      * intros a b. apply Nat2Z.inj.
      * apply seq_NoDup.
  - intros ADMIN_IDS g evs s Hnd Hempty. apply run_dense; [exact Hnd|].
    now rewrite Hempty.
Qed.

(** ** Uploads that store nothing *)

Lemma touch_keeps_uploads (now uid who : Z) (rows : list Stats.row) :
  fold_right Z.add 0
    (map Stats.uploads
       (filter (fun r => Stats.user_id r =? uid)
          (map (fun r => if Stats.user_id r =? who then set_last_active now r else r)
             rows)))
  = fold_right Z.add 0
      (map Stats.uploads (filter (fun r => Stats.user_id r =? uid) rows)).
Proof.
  induction rows as [|r rows IH]; [reflexivity|]. cbn [map filter].
  destruct (Stats.user_id r =? who); cbn [set_last_active Stats.user_id];
    destruct (Stats.user_id r =? uid); cbn [map fold_right Stats.uploads];
    now rewrite IH.
Qed.

Lemma ensure_user_uploads (now : Z) (u : Tg.user) (d : db) (uid : Z) :
  uploads_of uid (snd (ensure_user now u d)) = uploads_of uid d.
Proof.
  unfold uploads_of, ensure_user, insert_user, touch_stats, upsert_stats,
    bind, modify. cbn [snd fst].
  assert (Hs : forall us k, stats (set_users us k d) = stats d) by reflexivity.
  destruct (existsb _ (users d)); rewrite !Hs;
    (destruct (existsb _ (stats d)); cbn [stats set_stats];
     [ apply touch_keeps_uploads
     | rewrite filter_app, map_app, fold_right_app; cbn [filter Stats.user_id];
       destruct (Tg.id u =? uid); cbn [map fold_right Stats.uploads];
       rewrite ?Z.add_0_l; reflexivity ]).
Qed.

Lemma upload_media_none (msg : Tg.message) :
  Tg.document msg = None -> Tg.photo msg = [] -> Tg.video msg = None ->
  upload_media msg = None.
Proof. unfold upload_media. now intros -> -> ->. Qed.

(** C10.  When no upload group is selected (the key is absent or holds 0),
    or the message carries neither a document, a photo nor a video, the
    upload handler answers with the matching notice and changes nothing but
    what [ensure_user] does: no row enters the files table, every group keeps
    its totals, and every user's uploads counter stays as it was. *)
Theorem upload_without_group_or_media now e user msg ud d :
  selected_group ud = None
  \/ (Tg.document msg = None /\ Tg.photo msg = [] /\ Tg.video msg = None) ->
  let '(r, ud', d') := handle_upload now e user msg ud d in
  (r = SelectGroupFirst \/ r = UnsupportedFileType)
  /\ ud' = ud
  /\ d' = snd (ensure_user now user d)
  /\ files d' = files d
  /\ groups d' = groups d
  /\ links d' = links d
  /\ forall uid, uploads_of uid d' = uploads_of uid d.
Proof.
  intros H.
  assert (Hd : let '(r, ud', d') := handle_upload now e user msg ud d in
               (r = SelectGroupFirst \/ r = UnsupportedFileType)
               /\ ud' = ud /\ d' = snd (ensure_user now user d)).
  { unfold handle_upload. destruct (selected_group ud) as [gid|] eqn:Hsel.
    - destruct H as [H|(H1 & H2 & H3)]; [discriminate H|].
      rewrite (upload_media_none msg H1 H2 H3). auto.
    - auto. }
  destruct (handle_upload now e user msg ud d) as [[r ud'] d'].
  destruct Hd as (Hr & Hud & ->).
  destruct (ensure_user_frame now user d) as (Hf & Hg & Hl & _).
  repeat split; try assumption.
  intros uid. apply ensure_user_uploads.
Qed.

(** ** Invariants through the monad *)

Section Preserves.

Context (P : db -> Prop).

Lemma preserves_ret {A} (a : A) : preserves P (ret a).
Proof. intros d H. exact H. Qed.

Lemma preserves_raise {A} (e : exn) : preserves P (@raise A e).
Proof. intros d H. exact H. Qed.

Lemma preserves_get {A} (f : db -> A) : preserves P (get f).
Proof. intros d H. exact H. Qed.

Lemma preserves_await {A} (a : Tg.answer A) : preserves P (await a).
Proof. destruct a; intros d H; exact H. Qed.

Lemma preserves_modify (f : db -> db) :
  (forall d, P d -> P (f d)) -> preserves P (modify f).
Proof. intros Hf d H. apply Hf, H. Qed.

Lemma preserves_bind {A B} (m : M A) (k : A -> M B) :
  preserves P m -> (forall a, preserves P (k a)) -> preserves P (bind m k).
Proof.
  intros Hm Hk d H. unfold bind. specialize (Hm d H).
  destruct (m d) as [[a|e] d']; simpl in *; [now apply Hk | assumption].
Qed.

Lemma preserves_catch {A} (m : M A) (h : exn -> M A) :
  preserves P m -> (forall e, preserves P (h e)) -> preserves P (catch m h).
Proof.
  intros Hm Hh d H. unfold catch. specialize (Hm d H).
  destruct (m d) as [[a|e] d']; simpl in *; [assumption | now apply Hh].
Qed.

End Preserves.

Ltac preserves_step :=
  first
    [ apply preserves_ret | apply preserves_raise | apply preserves_get
    | apply preserves_await
    | apply preserves_bind; [|intros ?]
    | apply preserves_catch; [|intros ?]
    | match goal with
      | |- preserves _ (match ?x with _ => _ end) => destruct x
      end ].

(** ** The key constraints hold in every reachable state *)

Lemma keys_ok_frame (d d' : db) :
  files d' = files d -> links d' = links d ->
  files_id_seq d' = files_id_seq d -> links_id_seq d' = links_id_seq d ->
  keys_ok d -> keys_ok d'.
Proof.
  intros Hf Hl Hfs Hls [H1 H2 H3 H4 H5 H6].
  constructor; rewrite ?Hf, ?Hl, ?Hfs, ?Hls; assumption.
Qed.

Lemma fresh_id_not_in {A} (key : A -> Z) (rows : list A) (k : Z) :
  Forall (fun r => 1 <= key r < k) rows -> ~ In k (map key rows).
Proof.
  intros H Hin. apply in_map_iff in Hin as (r & <- & Hr).
  rewrite Forall_forall in H. specialize (H r Hr). lia.
Qed.

Lemma issued_snoc {A} (key : A -> Z) (rows : list A) (r : A) (k : Z) :
  1 <= k -> key r = k ->
  Forall (fun r => 1 <= key r < k) rows ->
  Forall (fun r => 1 <= key r < k + 1) (rows ++ [r]).
Proof.
  intros Hk Hr H. apply Forall_app. split.
  - eapply Forall_impl; [|exact H]. simpl. intros; lia.
  - constructor; [lia|constructor].
Qed.

Lemma distinct_snoc {A} (key : A -> Z) (rows : list A) (r : A) :
  NoDup (map key rows) -> ~ In (key r) (map key rows) ->
  NoDup (map key (rows ++ [r])).
Proof.
  intros Hnd Hnew. rewrite map_app. simpl.
  apply NoDup_app; [assumption | repeat constructor; simpl; tauto |].
  intros x Hx [<-|[]]. tauto.
Qed.

Lemma issued_later {A} (key : A -> Z) (rows : list A) (k : Z) :
  Forall (fun r => 1 <= key r < k) rows ->
  Forall (fun r => 1 <= key r < k + 1) rows.
Proof. apply Forall_impl. intros; lia. Qed.

Lemma keys_ok_insert_user now u : preserves keys_ok (insert_user now u).
Proof.
  apply preserves_modify. intros d H.
  destruct (existsb _ (users d)); eapply keys_ok_frame; try exact H; reflexivity.
Qed.

Lemma keys_ok_upsert_stats uid fresh upd :
  preserves keys_ok (upsert_stats uid fresh upd).
Proof.
  apply preserves_modify. intros d H.
  destruct (existsb _ (stats d)); eapply keys_ok_frame; try exact H; reflexivity.
Qed.

Lemma keys_ok_update_group gid f : preserves keys_ok (update_group gid f).
Proof.
  apply preserves_modify. intros d H.
  eapply keys_ok_frame; try exact H; reflexivity.
Qed.

Lemma keys_ok_insert_file now gid serial uid fname fsize sid uploader :
  preserves keys_ok (insert_file now gid serial uid fname fsize sid uploader).
Proof.
  intros d [H1 H2 H3 H4 H5 H6]. unfold insert_file.
  destruct (existsb _ (files d)); constructor; simpl; try assumption; try lia.
  - now apply issued_later.
  - apply distinct_snoc; [assumption|]. now apply fresh_id_not_in.
  - now apply issued_snoc.
Qed.

Lemma keys_ok_insert_link now code fid gid owner expires maxd :
  preserves keys_ok (insert_link now code fid gid owner expires maxd).
Proof.
  intros d [H1 H2 H3 H4 H5 H6]. unfold insert_link.
  destruct (existsb _ (links d)); constructor; simpl; try assumption; try lia.
  - now apply issued_later.
  - apply distinct_snoc; [assumption|]. now apply fresh_id_not_in.
  - now apply issued_snoc.
Qed.

Lemma NoDup_map_filter {A} (key : A -> Z) (keep : A -> bool) (rows : list A) :
  NoDup (map key rows) -> NoDup (map key (filter keep rows)).
Proof.
  induction rows as [|r rows IH]; simpl; intros H; [constructor|].
  inversion H as [|? ? Hnot Hnd]; subst.
  destruct (keep r); simpl; [constructor|]; auto.
  intros Hin. apply Hnot. apply in_map_iff in Hin as (x & Hx & Hin).
  apply filter_In in Hin as [Hin _]. apply in_map_iff. eauto.
Qed.

Lemma keys_ok_delete_file fid : preserves keys_ok (delete_file fid).
Proof.
  apply preserves_modify. intros d [H1 H2 H3 H4 H5 H6].
  constructor; simpl; try assumption.
  - now apply NoDup_map_filter.
  - apply Forall_forall. intros f Hf. apply filter_In in Hf as [Hf _].
    rewrite Forall_forall in H2. now apply H2.
Qed.

Lemma deactivate_keeps_ids (lid : Z) (rows : list Links.row) :
  map Links.id
    (map (fun l => if Links.id l =? lid then Links.deactivate l else l) rows)
  = map Links.id rows.
Proof.
  rewrite map_map. apply map_ext. intros l.
  now destruct (Links.id l =? lid).
Qed.

Lemma keys_ok_deactivate_link lid d : keys_ok d -> keys_ok (deactivate_link lid d).
Proof.
  intros [H1 H2 H3 H4 H5 H6]. constructor; simpl; try assumption.
  - now rewrite deactivate_keeps_ids.
  - apply Forall_forall. intros l Hl. apply in_map_iff in Hl as (l0 & <- & Hl0).
    rewrite Forall_forall in H4. specialize (H4 l0 Hl0).
    now destruct (Links.id l0 =? lid).
Qed.

(** An invariant every statement keeps is kept by every handler, so by
    every step of the bot. *)
Section HandlerInvariant.

Context (P : db -> Prop).

Hypothesis inv_insert_user : forall now u, preserves P (insert_user now u).
Hypothesis inv_upsert_stats :
  forall uid fresh upd, preserves P (upsert_stats uid fresh upd).
Hypothesis inv_update_group : forall gid f, preserves P (update_group gid f).
Hypothesis inv_insert_file :
  forall now gid serial uid fname fsize sid uploader,
    preserves P (insert_file now gid serial uid fname fsize sid uploader).
Hypothesis inv_insert_link :
  forall now code fid gid owner expires maxd,
    preserves P (insert_link now code fid gid owner expires maxd).
Hypothesis inv_delete_file : forall fid, preserves P (delete_file fid).
Hypothesis inv_deactivate_link : forall lid d, P d -> P (deactivate_link lid d).

Ltac invariant_step :=
  first
    [ apply inv_insert_user | apply inv_upsert_stats | apply inv_update_group
    | apply inv_insert_file | apply inv_insert_link | apply inv_delete_file
    | preserves_step ].

Lemma invariant_ensure_user now u : preserves P (ensure_user now u).
Proof. unfold ensure_user, touch_stats. repeat invariant_step. Qed.

Lemma invariant_expiry_cycle now stop d : P d -> P (expiry_cycle now stop d).
Proof.
  unfold expiry_cycle.
  generalize (match stop with
              | Some n => firstn n (filter (expired now) (links d))
              | None => filter (expired now) (links d)
              end) as rows.
  intros rows. revert d. induction rows as [|r rows IH]; intros d H; simpl.
  - exact H.
  - apply IH. now apply inv_deactivate_link.
Qed.

Lemma invariant_handle_upload now e user msg ud d :
  P d -> P (snd (handle_upload now e user msg ud d)).
Proof.
  intros H. unfold handle_upload.
  apply (invariant_ensure_user now user) in H.
  destruct (selected_group ud) as [gid|]; [|exact H].
  destruct (upload_media msg) as [[fname fsize]|]; [|exact H].
  match goal with
  | |- context [let '(_, _) := ?m ?d0 in _] => assert (Hp : preserves P m)
  end.
  { unfold register_file, count_upload. repeat invariant_step. }
  specialize (Hp _ H). destruct (bind _ _ _) as [r d']. exact Hp.
Qed.

Lemma invariant_callback ADMIN_IDS now e uid cb ud d :
  P d -> P (snd (callback_handler ADMIN_IDS now e uid cb ud d)).
Proof.
  intros H. unfold callback_handler.
  assert (Hrun : forall (m : M reply) ud',
             preserves P m ->
             P (snd (match m d return reply * user_data * db with
                     | (Ok r, d') => (r, ud', d')
                     | (Raise _, d') => (ErrorProcessingAction, ud', d')
                     end))).
  { intros m ud' Hm. specialize (Hm d H).
    destruct (m d) as [[r|ex] d']; exact Hm. }
  destruct cb; try exact H; apply Hrun;
    unfold open_group, download_item, share_item, create_share_link,
      delete_item, count_download, select_file, select_group;
    repeat invariant_step.
Qed.

Lemma invariant_step_state ADMIN_IDS s ev :
  P (st_db s) -> P (st_db (step ADMIN_IDS s ev)).
Proof.
  intros H. destruct ev as [now u]. unfold step. cbn [fst snd].
  destruct u as [user args|user bulk|e user msg|e uid cb|q|stop].
  - cbn [st_db]. rewrite cmd_start_db. now apply invariant_ensure_user.
  - cbn [st_db]. simpl. now apply invariant_ensure_user.
  - pose proof (invariant_handle_upload now e user msg
                  (st_user_data s (Tg.id user)) (st_db s) H) as H'.
    destruct (handle_upload _ _ _ _ _ _) as [[r ud'] d']. exact H'.
  - pose proof (invariant_callback ADMIN_IDS now e uid cb
                  (st_user_data s uid) (st_db s) H) as H'.
    destruct (callback_handler _ _ _ _ _ _ _) as [[r ud'] d']. exact H'.
  - exact H.
  - cbn [st_db]. now apply invariant_expiry_cycle.
Qed.

Lemma invariant_run ADMIN_IDS evs :
  forall s, P (st_db s) -> P (st_db (run ADMIN_IDS evs s)).
Proof.
  unfold run. induction evs as [|ev evs IH]; intros s H.
  - exact H.
  - simpl. apply IH. now apply invariant_step_state.
Qed.

End HandlerInvariant.

Lemma keys_ok_run ADMIN_IDS evs s :
  keys_ok (st_db s) -> keys_ok (st_db (run ADMIN_IDS evs s)).
Proof.
  apply invariant_run.
  - apply keys_ok_insert_user.
  - apply keys_ok_upsert_stats.
  - apply keys_ok_update_group.
  - apply keys_ok_insert_file.
  - apply keys_ok_insert_link.
  - apply keys_ok_delete_file.
  - apply keys_ok_deactivate_link.
Qed.

Lemma keys_ok_empty : keys_ok empty_db.
Proof. constructor; simpl; try constructor; lia. Qed.

(** Every state the bot reaches from a fresh database satisfies the key
    constraints. *)
Lemma keys_ok_reachable ADMIN_IDS evs :
  keys_ok (st_db (run ADMIN_IDS evs initial_state)).
Proof. apply keys_ok_run. exact keys_ok_empty. Qed.

(** ** Issuing links *)

Lemma find_at_serial_none (gid serial : Z) (d : db) :
  find (at_serial gid serial) (files d) = None
  <-> forall f, In f (files d) ->
        ~ (Files.group_id f = gid /\ Files.serial f = serial).
Proof.
  split.
  - intros H f Hin [Hg Hs].
    pose proof (find_none _ _ H f Hin) as Hf. unfold at_serial in Hf.
    rewrite Hg, Hs, !Z.eqb_refl in Hf. discriminate Hf.
  - intros H. destruct (find _ _) as [f|] eqn:E; [|reflexivity].
    apply find_some in E as [Hin Hf]. unfold at_serial in Hf.
    apply andb_true_iff in Hf as [Hg Hs].
    apply Z.eqb_eq in Hg, Hs. exfalso. now apply (H f Hin).
Qed.

Lemma found_file_id (gid serial : Z) (d : db) (f : Files.row) :
  keys_ok d -> find (at_serial gid serial) (files d) = Some f ->
  (Files.id f =? 0) = false.
Proof.
  intros Hk E. apply find_some in E as [Hin _].
  pose proof (file_ids_issued d Hk) as H. rewrite Forall_forall in H.
  specialize (H f Hin). apply Z.eqb_neq. lia.
Qed.



(** A code that some link already carries is refused by the [UNIQUE]
    constraint: the call raises and stores nothing. *)
Lemma create_share_link_collision now e gid serial owner ttl maxd d f :
  keys_ok d ->
  find (at_serial gid serial) (files d) = Some f ->
  existsb (fun l => String.eqb (Links.code l) (gen_code (urandom e))) (links d)
  = true ->
  let r := create_share_link now e gid serial owner ttl maxd d in
  fst r = Raise (UniqueViolationError "links_code_key")
  /\ links (snd r) = links d.
Proof.
  intros Hk E Hdup. unfold create_share_link, select_file, bind, get, ret.
  rewrite E, (found_file_id gid serial d f Hk E). unfold insert_link.
  rewrite Hdup. simpl. split; reflexivity.
Qed.

(** ** Deleting files *)

Lemma exists_at_serial (gid serial : Z) (d : db) :
  (exists f, In f (files d) /\ Files.group_id f = gid /\ Files.serial f = serial) ->
  exists f, find (at_serial gid serial) (files d) = Some f.
Proof.
  intros (f & Hin & Hg & Hs).
  destruct (find (at_serial gid serial) (files d)) as [f'|] eqn:E; [eauto|].
  exfalso. apply (proj1 (find_at_serial_none gid serial d) E f Hin). now split.
Qed.

(** C5.  A delete request for an existing file by a user who is neither the
    owner of the file's group nor an administrator is answered "not
    permitted" and changes nothing: the database (file rows, the group's
    [total_files] and [total_size], and every other table) and the user's
    conversation state are as before. *)
Theorem delete_by_stranger_denied ADMIN_IDS now e uid gid serial ud d :
  (exists f, In f (files d) /\ Files.group_id f = gid /\ Files.serial f = serial) ->
  (forall g, In g (groups d) -> Groups.id g = gid -> Groups.owner_id g <> uid) ->
  ~ In uid ADMIN_IDS ->
  callback_handler ADMIN_IDS now e uid (Delete gid serial) ud d
  = (NotPermitted, ud, d).
Proof.
  intros Hex Hown Hadm. destruct (exists_at_serial gid serial d Hex) as [f E].
  unfold callback_handler, delete_item, select_file, select_group, bind, get, ret.
  rewrite E.
  assert (Hnp : not_permitted ADMIN_IDS uid
                  (option_map Groups.owner_id
                     (find (fun g => Groups.id g =? gid) (groups d))) = true).
  { unfold not_permitted. apply andb_true_iff. split.
    - destruct (find _ (groups d)) as [g|] eqn:Eg; [|reflexivity]. simpl.
      apply find_some in Eg as [Hin Hid]. apply Z.eqb_eq in Hid.
      apply negb_true_iff, Z.eqb_neq. intros ->. now apply (Hown g Hin Hid).
    - apply negb_true_iff. unfold is_admin.
      destruct (existsb (Z.eqb uid) ADMIN_IDS) eqn:Ea; [|reflexivity].
      apply existsb_exists in Ea as (a & Hin & Ha). apply Z.eqb_eq in Ha.
      subst a. contradiction. }
  rewrite Hnp. reflexivity.
Qed.

Lemma key_determines_row {A} (key : A -> Z) (rows : list A) (x y : A) :
  NoDup (map key rows) -> In x rows -> In y rows -> key x = key y -> x = y.
Proof.
  induction rows as [|r rows IH]; simpl; intros Hnd Hx Hy E; [contradiction|].
  inversion Hnd as [|? ? Hnot Hnd']; subst.
  destruct Hx as [->|Hx], Hy as [->|Hy]; auto.
  - exfalso. apply Hnot. rewrite E. now apply in_map.
  - exfalso. apply Hnot. rewrite <- E. now apply in_map.
Qed.

(** X18.  What a delete by the group's owner or by an administrator does,
    whatever [delete_message] answers: the row is gone, the group's
    [total_files] is one less and its [total_size] is what it was; links
    (also those to the deleted file), stats and users stay as they are. *)
Lemma delete_by_owner ADMIN_IDS now e uid gid serial ud d f :
  keys_ok d ->
  find (at_serial gid serial) (files d) = Some f ->
  not_permitted ADMIN_IDS uid
    (option_map Groups.owner_id (find (fun g => Groups.id g =? gid) (groups d)))
  = false ->
  let '(r, ud', d') :=
    callback_handler ADMIN_IDS now e uid (Delete gid serial) ud d in
  r = Deleted /\ ud' = ud
  /\ (forall x, In x (files d') <-> In x (files d) /\ x <> f)
  /\ groups d'
     = map (fun g => if Groups.id g =? gid then dec_total_files g else g)
         (groups d)
  /\ map Groups.total_size (groups d') = map Groups.total_size (groups d)
  /\ links d' = links d /\ stats d' = stats d /\ users d' = users d.
Proof.
  intros Hk E Hp.
  unfold callback_handler, delete_item, select_file, select_group, bind, get, ret.
  rewrite E, Hp. unfold delete_file, update_group, catch, modify, bind.
  assert (Hfiles : forall x,
             In x (filter (fun f0 => negb (Files.id f0 =? Files.id f)) (files d))
             <-> In x (files d) /\ x <> f).
  { intros x. rewrite filter_In. apply find_some in E as [Hin _].
    split; intros [Hx Hne]; split; auto.
    - intros ->. rewrite Z.eqb_refl in Hne. discriminate Hne.
    - apply negb_true_iff, Z.eqb_neq. intros Hid. apply Hne.
      exact (key_determines_row Files.id (files d) x f
               (file_ids_distinct d Hk) Hx Hin Hid). }
  assert (Hsize : forall gs,
             map Groups.total_size
               (map (fun g => if Groups.id g =? gid then dec_total_files g else g) gs)
             = map Groups.total_size gs).
  { intros gs. rewrite map_map. apply map_ext. intros g.
    now destruct (Groups.id g =? gid). }
  destruct (delete_message e); simpl;
    (split; [reflexivity|]; split; [reflexivity|]; split; [exact Hfiles|];
     split; [reflexivity|]; split; [apply Hsize|]; repeat split).
Qed.

(** C6 on sample data: the owner deletes the only file of "Docs".  The row
    is removed and [total_files] drops from 1 to 0, but [total_size] still
    counts the deleted file's 5000 bytes. *)
Example delete_leaves_total_size :
  callback_handler [] 10 sample_env 100 (Delete 1 1) no_user_data docs_db
  = (Deleted, no_user_data,
     {| users := [];
        groups := [{| Groups.id := 1; Groups.name := "Docs";
                      Groups.owner_id := 100; Groups.created_at := 0;
                      Groups.total_files := 0; Groups.total_size := 5000 |}];
        files := []; links := []; stats := [];
        users_id_seq := 1; groups_id_seq := 2; files_id_seq := 2;
        links_id_seq := 1; stats_id_seq := 1 |}).
Proof. reflexivity. Qed.

(** ** The expiry worker *)

(** The pass's loop deactivates exactly the rows whose id is among the
    selected rows' ids. *)
Lemma deactivate_all_links (rows : list Links.row) :
  forall d,
    let d' := fold_left (fun d r => deactivate_link (Links.id r) d) rows d in
    links d'
    = map (fun l =>
             if existsb (fun r => Links.id r =? Links.id l) rows
             then Links.deactivate l else l)
        (links d)
    /\ links_id_seq d' = links_id_seq d
    /\ files_id_seq d' = files_id_seq d.
Proof.
  induction rows as [|r rows IH]; intros d; simpl.
  - split; [|split; reflexivity]. now rewrite map_id.
  - destruct (IH (deactivate_link (Links.id r) d)) as (IHl & IHs & IHf).
    split; [|split; assumption]. rewrite IHl. simpl. rewrite map_map.
    apply map_ext. intros l. rewrite (Z.eqb_sym (Links.id r) (Links.id l)).
    destruct (Links.id l =? Links.id r); simpl; [|reflexivity].
    now destruct (existsb _ rows).
Qed.

Lemma Forall2_map_self {A} (R : A -> A -> Prop) (f : A -> A) (l : list A) :
  (forall x, In x l -> R x (f x)) -> Forall2 R l (map f l).
Proof.
  induction l as [|x l IH]; intros H; simpl; constructor.
  - apply H. now left.
  - apply IH. intros y Hy. apply H. now right.
Qed.

Lemma expired_spec (now : Z) (l : Links.row) :
  expired now l = true
  <-> Links.active l = true
      /\ exists t, Links.expires_at l = Some t /\ t <= now.
Proof.
  unfold expired. rewrite andb_true_iff. split.
  - intros [Ha He]. split; [assumption|].
    destruct (Links.expires_at l) as [t|]; [|discriminate He].
    exists t. split; [reflexivity|]. now apply Z.leb_le.
  - intros [Ha (t & -> & Ht)]. split; [assumption|]. now apply Z.leb_le.
Qed.

Lemma selected_rows (now : Z) (stop : option nat) (d : db) (r : Links.row) :
  In r (match stop with
        | Some n => firstn n (filter (expired now) (links d))
        | None => filter (expired now) (links d)
        end) ->
  In r (links d) /\ expired now r = true.
Proof.
  intros H. apply filter_In.
  destruct stop as [n|]; [|assumption].
  rewrite <- (firstn_skipn n (filter (expired now) (links d))).
  apply in_or_app. now left.
Qed.

(** Under the primary key, a row whose id is among the selected rows' ids is
    one of the selected rows. *)
Lemma selected_by_id (now : Z) (stop : option nat) (d : db) (l : Links.row) :
  keys_ok d ->
  In l (links d) ->
  existsb (fun r => Links.id r =? Links.id l)
    (match stop with
     | Some n => firstn n (filter (expired now) (links d))
     | None => filter (expired now) (links d)
     end) = true ->
  expired now l = true.
Proof.
  intros Hk Hin Hex. apply existsb_exists in Hex as (r & Hr & Hid).
  apply Z.eqb_eq in Hid. destruct (selected_rows now stop d r Hr) as [Hrin Hexp].
  assert (r = l) as <-
    by exact (key_determines_row Links.id (links d) r l
                (link_ids_distinct d Hk) Hrin Hin Hid).
  exact Hexp.
Qed.

(** A complete pass deactivates exactly the links that meet the condition. *)
Lemma expiry_cycle_complete (now : Z) (d : db) :
  keys_ok d ->
  links (expiry_cycle now None d)
  = map (fun l => if expired now l then Links.deactivate l else l) (links d).
Proof.
  intros Hk. unfold expiry_cycle.
  destruct (deactivate_all_links (filter (expired now) (links d)) d) as (Hl & _).
  rewrite Hl. apply map_ext_in. intros l Hin.
  destruct (existsb _ _) eqn:Hex.
  - now rewrite (selected_by_id now None d l Hk Hin Hex).
  - destruct (expired now l) eqn:Hexp; [|reflexivity].
    exfalso. apply Bool.not_true_iff_false in Hex. apply Hex.
    apply existsb_exists. exists l. split; [|apply Z.eqb_refl].
    apply filter_In. now split.
Qed.

(** C7.  One pass of the expiry worker, complete or cut short, changes the
    links table only: each link keeps every column but [active], and a link
    whose [active] changes was active with a non-null [expires_at <= now] when
    the pass selected its rows, so unexpired and unbounded links stay as they
    are.  A complete pass deactivates every link that meets the condition. *)
Theorem expiry_cycle_retires_only_expired now stop d :
  keys_ok d ->
  let d' := expiry_cycle now stop d in
  Forall2
    (fun l l' =>
       same_but_active l l'
       /\ (l' = l
           \/ (Links.active l = true /\ Links.active l' = false
               /\ exists t, Links.expires_at l = Some t /\ t <= now)))
    (links d) (links d')
  /\ users d' = users d /\ groups d' = groups d /\ files d' = files d
  /\ stats d' = stats d
  /\ (stop = None ->
      links d'
      = map (fun l => if expired now l then Links.deactivate l else l) (links d)).
Proof.
  intros Hk d'.
  destruct (expiry_cycle_frame now stop d) as (Hf & Hg & Hs & Hu).
  fold d' in Hf, Hg, Hs, Hu.
  split; [|repeat split; try assumption].
  - subst d'. unfold expiry_cycle.
    match goal with
    | |- context [fold_left _ ?rows d] =>
        destruct (deactivate_all_links rows d) as (Hl & _)
    end.
    rewrite Hl. apply Forall2_map_self. intros l Hin.
    destruct (existsb _ _) eqn:Hex.
    + pose proof (selected_by_id now stop d l Hk Hin Hex) as Hexp.
      apply expired_spec in Hexp as [Ha Ht].
      split; [repeat split|]. right. auto.
    + split; [repeat split|]. now left.
  - intros ->. subst d'. now apply expiry_cycle_complete.
Qed.

(** ** Deep links and the download counter *)

Lemma cmd_start_greets now user args d :
  fst (cmd_start now user args d) = Ok Welcome
  /\ links (snd (cmd_start now user args d)) = links d
  /\ files (snd (cmd_start now user args d)) = files d
  /\ groups (snd (cmd_start now user args d)) = groups d.
Proof.
  rewrite cmd_start_db.
  destruct (ensure_user_frame now user d) as (Hf & Hg & Hl & _).
  split; [|repeat split; assumption].
  unfold cmd_start, bind, ret. pose proof (ensure_user_ok now user d) as H.
  destruct (ensure_user now user d) as [[[]|ex] d1]; simpl in *;
    [reflexivity|discriminate].
Qed.

(** C2, as the source has it: a link with [max_downloads = 1] is visited
    three times through its deep link.  Every visit, the second and third
    included, is answered with the greeting, none of them reports
    [Exhausted], and [downloads] is still 0 afterwards. *)
Lemma start_ignores_download_limit :
  let '(rs, d') := visits 3 20 visitor (Links.code limited_link) limited_db in
  Links.max_downloads limited_link = Some 1
  /\ rs = [Ok Welcome; Ok Welcome; Ok Welcome]
  /\ reported_resolution Welcome <> Some Exhausted
  /\ links d' = [limited_link]
  /\ Links.downloads limited_link = 0.
Proof. vm_compute. repeat split; try discriminate. Qed.

Lemma never_downloaded_frame (d d' : db) :
  links d' = links d -> never_downloaded d -> never_downloaded d'.
Proof. unfold never_downloaded. now intros ->. Qed.

Lemma never_downloaded_run ADMIN_IDS evs s :
  never_downloaded (st_db s) -> never_downloaded (st_db (run ADMIN_IDS evs s)).
Proof.
  apply invariant_run.
  - intros now u. apply preserves_modify. intros d.
    destruct (existsb _ (users d)); now apply never_downloaded_frame.
  - intros uid fresh upd. apply preserves_modify. intros d.
    destruct (existsb _ (stats d)); now apply never_downloaded_frame.
  - intros gid f. apply preserves_modify. intros d.
    now apply never_downloaded_frame.
  - intros now gid serial uid fname fsize sid uploader d. unfold insert_file.
    destruct (existsb _ (files d)); now apply never_downloaded_frame.
  - intros now code fid gid owner expires maxd d H. unfold insert_link.
    destruct (existsb _ (links d)); [exact H|]. unfold never_downloaded.
    simpl. apply Forall_app. split; [exact H|]. now repeat constructor.
  - intros fid. apply preserves_modify. intros d.
    now apply never_downloaded_frame.
  - intros lid d H. unfold never_downloaded, deactivate_link. simpl.
    apply Forall_forall. intros l Hl. apply in_map_iff in Hl as (l0 & <- & Hl0).
    unfold never_downloaded in H. rewrite Forall_forall in H.
    specialize (H l0 Hl0). now destruct (Links.id l0 =? lid).
Qed.

(** C2, in the form that holds.  No handler of the source writes a link's [downloads]: in
    every state reached from one whose links all have [downloads = 0] (a
    fresh database, or one holding newly issued links), every link still
    has [downloads = 0], which no limit [k >= 0] is below; and a visit through
    a deep link is answered with the greeting and leaves the links table as
    it is, whatever code it carries: the handler's result does not depend on
    the payload. *)
Theorem downloads_never_counted ADMIN_IDS evs s :
  Forall (fun l => Links.downloads l = 0) (links (st_db s)) ->
  let d' := st_db (run ADMIN_IDS evs s) in
  Forall (fun l =>
            Links.downloads l = 0
            /\ forall k, Links.max_downloads l = Some k -> 0 <= k ->
                 Links.downloads l <= k)
    (links d')
  /\ forall now user args,
       fst (cmd_start now user args d') = Ok Welcome
       /\ links (snd (cmd_start now user args d')) = links d'
       /\ cmd_start now user args d' = cmd_start now user [] d'.
Proof.
  intros H d'. split.
  - pose proof (never_downloaded_run ADMIN_IDS evs s H) as H'.
    eapply Forall_impl; [|exact H']. simpl. intros l Hl. split; [exact Hl|].
    intros k _ Hk. now rewrite Hl.
  - intros now user args.
    destruct (cmd_start_greets now user args d') as (H1 & H2 & _).
    split; [exact H1|]. split; [exact H2|]. reflexivity.
Qed.

(** ** Deep links and expired links *)

(** C3, as the source has it: a link that expired at time 9, never
    downloaded, is visited through its deep link at time 10.  The visit is
    answered with the greeting, not with [Expired], and the link is still
    active afterwards. *)
Lemma start_leaves_expired_link_active :
  let r := cmd_start 10 visitor [Links.code expired_link] expired_db in
  Links.expires_at expired_link = Some 9
  /\ fst r = Ok Welcome
  /\ reported_resolution Welcome <> Some Expired
  /\ links (snd r) = [expired_link]
  /\ Links.active expired_link = true.
Proof. vm_compute. repeat split; try discriminate. Qed.

(** C3, in the form that holds.  A visit through the deep link of an active link whose
    [expires_at] has passed is answered with the greeting and leaves the link
    as it is, still active; the link is marked inactive by the expiry worker
    alone, whose next complete pass replaces it by its deactivated copy. *)
Theorem expired_link_waits_for_worker now user args d l t :
  keys_ok d ->
  In l (links d) ->
  Links.active l = true ->
  Links.expires_at l = Some t ->
  t <= now ->
  let r := cmd_start now user args d in
  fst r = Ok Welcome
  /\ links (snd r) = links d
  /\ forall later, now <= later ->
       let d' := expiry_cycle later None (snd r) in
       In (Links.deactivate l) (links d') /\ ~ In l (links d').
Proof.
  intros Hk Hin Ha He Ht r. subst r.
  destruct (cmd_start_greets now user args d) as (Hr & Hl & _).
  split; [exact Hr|]. split; [exact Hl|]. intros later Hlater d'. subst d'.
  assert (Hk' : keys_ok (snd (cmd_start now user args d))).
  { rewrite cmd_start_db. apply invariant_ensure_user; try assumption.
    - apply keys_ok_insert_user.
    - apply keys_ok_upsert_stats. }
  rewrite (expiry_cycle_complete later _ Hk'), Hl.
  assert (Hexp : expired later l = true).
  { apply expired_spec. split; [exact Ha|]. exists t. split; [exact He|lia]. }
  split.
  - apply in_map_iff. exists l. rewrite Hexp. now split.
  - intros Hin'. apply in_map_iff in Hin' as (x & Hx & _).
    destruct (expired later x) eqn:Ex.
    + rewrite <- Hx in Ha. discriminate Ha.
    + subst x. rewrite Hexp in Ex. discriminate Ex.
Qed.

(** ** Search *)

Lemma list_ascii_of_string_app (a b : string) :
  list_ascii_of_string (a ++ b)%string
  = list_ascii_of_string a ++ list_ascii_of_string b.
Proof. induction a as [|c a IH]; simpl; [reflexivity | now rewrite IH]. Qed.









(** ** Further facts about links *)



(** Any number of passes of the expiry worker touch the links table only. *)
Lemma expiry_worker_frame (passes : list (Z * option nat)) :
  forall d,
    let d' := expiry_worker passes d in
    files d' = files d /\ groups d' = groups d /\ stats d' = stats d
    /\ users d' = users d.
Proof.
  unfold expiry_worker. induction passes as [|[now stop] passes IH]; intros d.
  - simpl. tauto.
  - simpl. destruct (IH (expiry_cycle now stop d)) as (H1 & H2 & H3 & H4).
    destruct (expiry_cycle_frame now stop d) as (F1 & F2 & F3 & F4).
    simpl in *. repeat split; congruence.
Qed.

(** ** The theorems on sample data *)

Ltac solve_keys :=
  constructor; simpl;
  repeat first [ lia | constructor | (simpl; intuition lia) ].

Lemma keys_ok_docs : keys_ok docs_db.
Proof. solve_keys. Qed.

Lemma keys_ok_expired : keys_ok expired_db.
Proof. solve_keys. Qed.

(** Two documents sent in bulk mode into the empty group 1 are numbered 1
    and 2. *)
Lemma next_sequence_on_two_uploads :
  selected_group bulk_into_docs = Some 1
  /\ is_bulk_upload bulk_into_docs = Some true
  /\ serials 1 empty_docs_db = []
  /\ map saved_serial
       (fst (fst (upload_all owner two_uploads bulk_into_docs empty_docs_db)))
     = [Some 1; Some 2]
  /\ serials 1 notes_db = [1; 2].
Proof.
  pose proof (proj1 (proj2 next_sequence_is_max_plus_one) owner 1 two_uploads
                bulk_into_docs empty_docs_db eq_refl eq_refl eq_refl) as H.
  unfold notes_db.
  destruct (upload_all owner two_uploads bulk_into_docs empty_docs_db)
    as [[rs ud'] d'] eqn:E.
  vm_compute in E. injection E as <- <- <-.
  destruct H as (H1 & H2 & _).
  { repeat constructor; discriminate. }
  split; [reflexivity|]. split; [reflexivity|]. split; [reflexivity|].
  split; [exact H1 | exact H2].
Defined.

(** A document sent with no group selected is not stored. *)
Lemma upload_without_group_on_docs :
  selected_group no_user_data = None
  /\ handle_upload 5 sample_env visitor (document_message "u9" "x.bin" 7)
       no_user_data docs_db
     = (SelectGroupFirst, no_user_data,
        snd (ensure_user 5 visitor docs_db))
  /\ files (snd (ensure_user 5 visitor docs_db)) = [report_file]
  /\ groups (snd (ensure_user 5 visitor docs_db)) = [docs_group].
Proof.
  pose proof (upload_without_group_or_media 5 sample_env visitor
                (document_message "u9" "x.bin" 7) no_user_data docs_db
                (or_introl eq_refl)) as H.
  assert (E : handle_upload 5 sample_env visitor
                (document_message "u9" "x.bin" 7) no_user_data docs_db
              = (SelectGroupFirst, no_user_data,
                 snd (ensure_user 5 visitor docs_db)))
    by (vm_compute; reflexivity).
  rewrite E in H. destruct H as (_ & _ & _ & Hf & Hg & _).
  split; [reflexivity|]. split; [exact E|]. split; [exact Hf | exact Hg].
Defined.


(** User 200, neither the owner of "Docs" nor an administrator, may not
    delete the report. *)
Lemma delete_by_stranger_on_docs :
  callback_handler [1] 10 sample_env 200 (Delete 1 1) no_user_data docs_db
  = (NotPermitted, no_user_data, docs_db).
Proof.
  apply delete_by_stranger_denied.
  - exists report_file. simpl. auto.
  - simpl. intros g [<-|[]] _. discriminate.
  - simpl. intros [H|[]]. discriminate H.
Defined.

(** A pass at time 10 retires the link that expired at time 9. *)
Lemma expiry_cycle_on_expired_link :
  keys_ok expired_db
  /\ links (expiry_cycle 10 None expired_db) = [Links.deactivate expired_link]
  /\ files (expiry_cycle 10 None expired_db) = files expired_db.
Proof.
  split; [exact keys_ok_expired|].
  destruct (expiry_cycle_retires_only_expired 10 None expired_db keys_ok_expired)
    as (_ & _ & _ & Hf & _ & Hl).
  split; [|exact Hf]. rewrite (Hl eq_refl). reflexivity.
Defined.

(** Two visits through the deep link of the limited link and a download by
    button leave its counter at 0. *)
Lemma downloads_never_counted_on_limited_link :
  let s := {| st_db := limited_db; st_user_data := fun _ => no_user_data |} in
  let evs := [(20, Start visitor [Links.code limited_link]);
              (21, Start visitor [Links.code limited_link]);
              (22, Callback sample_env 200 (Download 1 1))] in
  Forall (fun l => Links.downloads l = 0) (links (st_db s))
  /\ Forall (fun l => Links.downloads l = 0)
       (links (st_db (run [] evs s))).
Proof.
  intros s evs.
  assert (H0 : Forall (fun l => Links.downloads l = 0) (links (st_db s)))
    by (repeat constructor).
  split; [exact H0|].
  destruct (downloads_never_counted [] evs s H0) as [H _].
  eapply Forall_impl; [|exact H]. simpl. intros l [Hl _]. exact Hl.
Defined.

(** The expired link survives a visit at time 10 and is retired by the pass
    at time 12. *)
Lemma expired_link_on_sample :
  keys_ok expired_db
  /\ In expired_link (links expired_db)
  /\ links (snd (cmd_start 10 visitor [Links.code expired_link] expired_db))
     = [expired_link]
  /\ In (Links.deactivate expired_link)
       (links (expiry_cycle 12 None
                 (snd (cmd_start 10 visitor [Links.code expired_link]
                         expired_db)))).
Proof.
  assert (Hin : In expired_link (links expired_db)) by (simpl; auto).
  destruct (expired_link_waits_for_worker 10 visitor
              [Links.code expired_link] expired_db expired_link 9
              keys_ok_expired Hin eq_refl eq_refl ltac:(lia))
    as (_ & Hl & Hlater).
  split; [exact keys_ok_expired|]. split; [exact Hin|]. split; [exact Hl|].
  apply (Hlater 12). lia.
Defined.


(** * Further properties of the handlers *)

(** ** Invariants the handlers keep, by the arguments they pass

    As [HandlerInvariant], with the hypotheses on the statements as the
    handlers call them: the three upserts on [stats], a link inserted with
    the code, expiry and limit the [sharec] button gives it, and a whole pass
    of the expiry worker. *)
Section CallSiteInvariant.

Context (P : db -> Prop).

Hypothesis inv_insert_user : forall now u, preserves P (insert_user now u).
Hypothesis inv_touch_stats : forall now uid, preserves P (touch_stats now uid).
Hypothesis inv_count_upload : forall now uid, preserves P (count_upload now uid).
Hypothesis inv_count_download :
  forall now uid, preserves P (count_download now uid).
Hypothesis inv_update_group : forall gid f, preserves P (update_group gid f).
Hypothesis inv_insert_file :
  forall now gid serial e fname fsize sid uploader,
    preserves P
      (insert_file now gid serial (gen_code (urandom e)) fname fsize sid uploader).
Hypothesis inv_insert_link :
  forall now e fid gid owner seconds,
    preserves P
      (insert_link now (gen_code (urandom e)) fid gid owner
         (expiry_of now (if 0 <? seconds then Some seconds else None)) None).
Hypothesis inv_delete_file : forall fid, preserves P (delete_file fid).
Hypothesis inv_expiry_cycle : forall now stop d, P d -> P (expiry_cycle now stop d).

Ltac call_site_step :=
  first
    [ apply inv_insert_user | apply inv_touch_stats | apply inv_count_upload
    | apply inv_count_download | apply inv_update_group
    | apply inv_insert_file | apply inv_insert_link | apply inv_delete_file
    | preserves_step ].

Lemma call_site_ensure_user now u : preserves P (ensure_user now u).
Proof. unfold ensure_user. repeat call_site_step. Qed.

Lemma call_site_handle_upload now e user msg ud d :
  P d -> P (snd (handle_upload now e user msg ud d)).
Proof.
  intros H. unfold handle_upload.
  apply (call_site_ensure_user now user) in H.
  destruct (selected_group ud) as [gid|]; [|exact H].
  destruct (upload_media msg) as [[fname fsize]|]; [|exact H].
  match goal with
  | |- context [let '(_, _) := ?m ?d0 in _] => assert (Hp : preserves P m)
  end.
  { unfold register_file. repeat call_site_step. }
  specialize (Hp _ H). destruct (bind _ _ _) as [r d']. exact Hp.
Qed.

Lemma call_site_callback ADMIN_IDS now e uid cb ud d :
  P d -> P (snd (callback_handler ADMIN_IDS now e uid cb ud d)).
Proof.
  intros H. unfold callback_handler.
  assert (Hrun : forall (m : M reply) ud',
             preserves P m ->
             P (snd (match m d return reply * user_data * db with
                     | (Ok r, d') => (r, ud', d')
                     | (Raise _, d') => (ErrorProcessingAction, ud', d')
                     end))).
  { intros m ud' Hm. specialize (Hm d H).
    destruct (m d) as [[r|ex] d']; exact Hm. }
  destruct cb; try exact H; apply Hrun;
    unfold open_group, download_item, share_item, create_share_link,
      delete_item, select_file, select_group;
    repeat call_site_step.
Qed.

Lemma call_site_step_state ADMIN_IDS s ev :
  P (st_db s) -> P (st_db (step ADMIN_IDS s ev)).
Proof.
  intros H. destruct ev as [now u]. unfold step. cbn [fst snd].
  destruct u as [user args|user bulk|e user msg|e uid cb|q|stop].
  - cbn [st_db]. rewrite cmd_start_db. now apply call_site_ensure_user.
  - cbn [st_db]. simpl. now apply call_site_ensure_user.
  - pose proof (call_site_handle_upload now e user msg
                  (st_user_data s (Tg.id user)) (st_db s) H) as H'.
    destruct (handle_upload _ _ _ _ _ _) as [[r ud'] d']. exact H'.
  - pose proof (call_site_callback ADMIN_IDS now e uid cb
                  (st_user_data s uid) (st_db s) H) as H'.
    destruct (callback_handler _ _ _ _ _ _ _) as [[r ud'] d']. exact H'.
  - exact H.
  - cbn [st_db]. now apply inv_expiry_cycle.
Qed.

Lemma call_site_run ADMIN_IDS evs :
  forall s, P (st_db s) -> P (st_db (run ADMIN_IDS evs s)).
Proof.
  unfold run. induction evs as [|ev evs IH]; intros s H.
  - exact H.
  - simpl. apply IH. now apply call_site_step_state.
Qed.

End CallSiteInvariant.

(** ** The unique columns *)

Lemma NoDup_map_snoc {A B} (key : A -> B) (rows : list A) (r : A) :
  NoDup (map key rows) -> ~ In (key r) (map key rows) ->
  NoDup (map key (rows ++ [r])).
Proof.
  intros Hnd Hnew. rewrite map_app. simpl.
  apply NoDup_app; [assumption | repeat constructor; simpl; tauto |].
  intros x Hx [<-|[]]. tauto.
Qed.

Lemma NoDup_map_filter_any {A B} (key : A -> B) (keep : A -> bool)
    (rows : list A) :
  NoDup (map key rows) -> NoDup (map key (filter keep rows)).
Proof.
  induction rows as [|r rows IH]; simpl; intros H; [constructor|].
  inversion H as [|? ? Hnot Hnd]; subst.
  destruct (keep r); simpl; [constructor|]; auto.
  intros Hin. apply Hnot. apply in_map_iff in Hin as (x & Hx & Hin).
  apply filter_In in Hin as [Hin _]. apply in_map_iff. eauto.
Qed.

Lemma no_row_with_key {A} (key : A -> Z) (rows : list A) (k : Z) :
  existsb (fun r => key r =? k) rows = false -> ~ In k (map key rows).
Proof.
  intros H Hin. apply in_map_iff in Hin as (r & Hr & Hin).
  apply Bool.not_true_iff_false in H. apply H. apply existsb_exists.
  exists r. split; [assumption|]. now apply Z.eqb_eq.
Qed.

Lemma no_row_with_text {A} (key : A -> string) (rows : list A) (k : string) :
  existsb (fun r => String.eqb (key r) k) rows = false -> ~ In k (map key rows).
Proof.
  intros H Hin. apply in_map_iff in Hin as (r & Hr & Hin).
  apply Bool.not_true_iff_false in H. apply H. apply existsb_exists.
  exists r. split; [assumption|]. now apply String.eqb_eq.
Qed.

Lemma uniques_ok_frame (d d' : db) :
  users d' = users d -> stats d' = stats d -> files d' = files d ->
  links d' = links d -> uniques_ok d -> uniques_ok d'.
Proof.
  intros Hu Hs Hf Hl [H1 H2 H3 H4].
  constructor; rewrite ?Hu, ?Hs, ?Hf, ?Hl; assumption.
Qed.

Lemma uniques_ok_insert_user now u : preserves uniques_ok (insert_user now u).
Proof.
  apply preserves_modify. intros d [H1 H2 H3 H4].
  destruct (existsb _ (users d)) eqn:E; constructor; simpl; try assumption.
  apply NoDup_map_snoc; [assumption|]. simpl. now apply no_row_with_key.
Qed.

(** An upsert whose inserted row carries the key and whose update keeps it
    keeps [stats.user_id] unique. *)
Lemma uniques_ok_upsert uid fresh upd :
  (forall k, Stats.user_id (fresh k) = uid) ->
  (forall r, Stats.user_id (upd r) = Stats.user_id r) ->
  preserves uniques_ok (upsert_stats uid fresh upd).
Proof.
  intros Hfresh Hupd. apply preserves_modify. intros d [H1 H2 H3 H4].
  destruct (existsb _ (stats d)) eqn:E; constructor; simpl; try assumption.
  - rewrite map_map.
    erewrite map_ext; [exact H2|]. intros r. simpl.
    destruct (Stats.user_id r =? uid); [apply Hupd | reflexivity].
  - apply NoDup_map_snoc; [assumption|]. rewrite Hfresh.
    now apply no_row_with_key.
Qed.

Lemma uniques_ok_insert_file now gid serial uid fname fsize sid uploader :
  preserves uniques_ok (insert_file now gid serial uid fname fsize sid uploader).
Proof.
  intros d [H1 H2 H3 H4]. unfold insert_file.
  destruct (existsb _ (files d)) eqn:E; constructor; simpl; try assumption.
  apply NoDup_map_snoc; [assumption|]. simpl. now apply no_row_with_text.
Qed.

Lemma uniques_ok_insert_link now code fid gid owner expires maxd :
  preserves uniques_ok (insert_link now code fid gid owner expires maxd).
Proof.
  intros d [H1 H2 H3 H4]. unfold insert_link.
  destruct (existsb _ (links d)) eqn:E; constructor; simpl; try assumption.
  apply NoDup_map_snoc; [assumption|]. simpl. now apply no_row_with_text.
Qed.

Lemma expiry_cycle_codes now stop d :
  map Links.code (links (expiry_cycle now stop d)) = map Links.code (links d).
Proof.
  unfold expiry_cycle.
  match goal with
  | |- context [fold_left _ ?rows d] =>
      destruct (deactivate_all_links rows d) as (Hl & _); rewrite Hl
  end.
  rewrite map_map. apply map_ext. intros l. now destruct (existsb _ _).
Qed.

(** X1.  The columns the schema declares [UNIQUE] stay free of duplicates
    through every update the bot handles: [users.user_id] and
    [stats.user_id] (by [ON CONFLICT]), [files.unique_id] and [links.code]
    (by the refused insert). *)
Theorem unique_columns_kept ADMIN_IDS evs s :
  uniques_ok (st_db s) -> uniques_ok (st_db (run ADMIN_IDS evs s)).
Proof.
  apply call_site_run.
  - apply uniques_ok_insert_user.
  - intros now uid. apply uniques_ok_upsert; reflexivity.
  - intros now uid. apply uniques_ok_upsert; reflexivity.
  - intros now uid. apply uniques_ok_upsert; reflexivity.
  - intros gid f. apply preserves_modify. intros d.
    now apply uniques_ok_frame.
  - intros. apply uniques_ok_insert_file.
  - intros. apply uniques_ok_insert_link.
  - intros fid. apply preserves_modify. intros d [H1 H2 H3 H4].
    constructor; simpl; try assumption. now apply NoDup_map_filter_any.
  - intros now stop d [H1 H2 H3 H4].
    destruct (expiry_cycle_frame now stop d) as (Hf & Hg & Hs & Hu).
    constructor; rewrite ?Hf, ?Hs, ?Hu, ?expiry_cycle_codes; assumption.
Qed.

(** ** The links the bot issues *)





(** ** Links are kept *)

Lemma link_later_refl (l : Links.row) : link_later l l.
Proof. unfold link_later, same_but_active. tauto. Qed.

Lemma link_later_deactivate (lid : Z) (l x : Links.row) :
  link_later l x ->
  link_later l (if Links.id x =? lid then Links.deactivate x else x).
Proof.
  intros H. destruct (Links.id x =? lid); [|exact H].
  destruct H as [Hs _]. split; [exact Hs | discriminate].
Qed.

Lemma links_grown_frame (d0 d d' : db) :
  links d' = links d -> links_grown d0 d -> links_grown d0 d'.
Proof. unfold links_grown. now intros ->. Qed.

(** X3.  Through every update the bot handles, the links table only grows:
    each link that was there is still there, in place, with every column as
    it was except that [active] may have gone from true to false; new links
    come after them.  No handler deletes a link (deleting a file leaves the
    links to it), changes one or makes an inactive link active again. *)
Theorem links_only_grow ADMIN_IDS evs s :
  links_grown (st_db s) (st_db (run ADMIN_IDS evs s)).
Proof.
  apply (invariant_run (links_grown (st_db s))).
  - intros now u. apply preserves_modify. intros d.
    destruct (existsb _ (users d)); now apply links_grown_frame.
  - intros uid fresh upd. apply preserves_modify. intros d.
    destruct (existsb _ (stats d)); now apply links_grown_frame.
  - intros gid f. apply preserves_modify. intros d. now apply links_grown_frame.
  - intros now gid serial uid fname fsize sid uploader d. unfold insert_file.
    destruct (existsb _ (files d)); now apply links_grown_frame.
  - intros now code fid gid owner expires maxd d (old & new & E & H).
    unfold insert_link. destruct (existsb _ (links d)).
    + now exists old, new.
    + simpl. eexists old, (new ++ [_]). rewrite E, <- app_assoc. now split.
  - intros fid. apply preserves_modify. intros d. now apply links_grown_frame.
  - intros lid d (old & new & E & H). unfold deactivate_link. simpl.
    rewrite E, map_app. eexists _, _. split; [reflexivity|].
    clear E. induction H as [|l x ls xs Hlx Hrest IH]; simpl; constructor.
    + now apply link_later_deactivate.
    + exact IH.
  - exists (links (st_db s)), []. split; [now rewrite app_nil_r|].
    induction (links (st_db s)); constructor; [apply link_later_refl | assumption].
Qed.

(** ** What a stored upload records *)

Lemma counter_after_increment (uid who : Z) (col : Stats.row -> Z)
    (incr : Stats.row -> Stats.row) (rows : list Stats.row) :
  (forall r, Stats.user_id (incr r) = Stats.user_id r) ->
  (forall r, col (incr r) = col r + 1) ->
  NoDup (map Stats.user_id rows) ->
  fold_right Z.add 0
    (map col
       (filter (fun r => Stats.user_id r =? uid)
          (map (fun r => if Stats.user_id r =? who then incr r else r) rows)))
  = fold_right Z.add 0 (map col (filter (fun r => Stats.user_id r =? uid) rows))
    + (if (uid =? who) && existsb (fun r => Stats.user_id r =? who) rows
       then 1 else 0).
Proof.
  intros Hid Hcol. induction rows as [|r rows IH]; intros Hnd.
  - simpl. now rewrite andb_false_r.
  - inversion Hnd as [|? ? Hnot Hnd']; subst. specialize (IH Hnd').
    cbn [map filter existsb].
    destruct (Z.eqb_spec (Stats.user_id r) who) as [Hw|Hw].
    + assert (Hrest : existsb (fun r0 => Stats.user_id r0 =? who) rows = false).
      { destruct (existsb _ rows) eqn:E; [|reflexivity]. exfalso. apply Hnot.
        apply existsb_exists in E as (x & Hx & Hk). apply Z.eqb_eq in Hk.
        rewrite Hw, <- Hk. now apply in_map. }
      rewrite Hrest, andb_false_r, Z.add_0_r in IH. rewrite Hid.
      rewrite orb_true_l, andb_true_r.
      destruct (Z.eqb_spec (Stats.user_id r) uid) as [Hu|Hu].
      * assert (Huw : (uid =? who) = true) by (apply Z.eqb_eq; congruence).
        rewrite Huw. cbn [map fold_right]. rewrite Hcol, IH. lia.
      * assert (Huw : (uid =? who) = false) by (apply Z.eqb_neq; congruence).
        rewrite Huw, IH. lia.
    + rewrite orb_false_l.
      destruct (Stats.user_id r =? uid); cbn [map fold_right]; rewrite IH; lia.
Qed.

Lemma counter_after_upsert (uid who : Z) (col : Stats.row -> Z)
    (fresh : Z -> Stats.row) (incr : Stats.row -> Stats.row) (d : db) :
  (forall k, Stats.user_id (fresh k) = who) ->
  (forall k, col (fresh k) = 1) ->
  (forall r, Stats.user_id (incr r) = Stats.user_id r) ->
  (forall r, col (incr r) = col r + 1) ->
  NoDup (map Stats.user_id (stats d)) ->
  fold_right Z.add 0
    (map col
       (filter (fun r => Stats.user_id r =? uid)
          (stats (snd (upsert_stats who fresh incr d)))))
  = fold_right Z.add 0
      (map col (filter (fun r => Stats.user_id r =? uid) (stats d)))
    + (if uid =? who then 1 else 0).
Proof.
  intros Hfk Hfc Hid Hcol Hnd. unfold upsert_stats, modify. cbn [snd].
  destruct (existsb _ (stats d)) eqn:E; cbn [stats set_stats].
  - rewrite (counter_after_increment uid who col incr _ Hid Hcol Hnd), E.
    now rewrite andb_true_r.
  - rewrite filter_app, map_app, fold_right_app. cbn [filter]. rewrite Hfk.
    rewrite (Z.eqb_sym who uid).
    destruct (uid =? who); cbn [map fold_right]; rewrite ?Hfc;
      generalize (map col (filter (fun r => Stats.user_id r =? uid) (stats d)));
      intros l; induction l as [|x l IHl]; simpl in *; lia.
Qed.

Lemma ensure_user_uniques now u d :
  uniques_ok d -> uniques_ok (snd (ensure_user now u d)).
Proof.
  unfold ensure_user. apply preserves_bind.
  - apply uniques_ok_insert_user.
  - intros _. apply uniques_ok_upsert; reflexivity.
Qed.

(** The [try] block of an upload whose forward succeeded: either the
    generated [unique_id] is taken and the insert raises, or the four
    statements run through. *)
Lemma register_file_runs now gid e fname fsize sid uploader d :
  register_file now gid e fname fsize sid uploader d
  = if existsb (fun f => String.eqb (Files.unique_id f) (gen_code (urandom e)))
         (files d)
    then (Raise (UniqueViolationError "files_unique_id_key"),
          set_files (files d) (files_id_seq d + 1) d)
    else (Ok (next_serial gid d),
          snd (count_upload now uploader
                 (set_groups
                    (map (fun g => if Groups.id g =? gid
                                   then inc_totals fsize g else g)
                       (groups d))
                    (set_files
                       (files d ++
                        [{| Files.id := files_id_seq d; Files.group_id := gid;
                            Files.serial := next_serial gid d;
                            Files.unique_id := gen_code (urandom e);
                            Files.file_name := fname; Files.file_type := "file";
                            Files.file_size := fsize;
                            Files.storage_message_id := sid;
                            Files.uploader_id := uploader;
                            Files.created_at := now |}])
                       (files_id_seq d + 1) d)))).
Proof.
  unfold register_file, insert_file, update_group, count_upload, upsert_stats,
    modify, bind, get, ret.
  generalize (gen_code (urandom e)) as code. intros code.
  destruct (existsb _ (files d)); reflexivity.
Qed.

Lemma count_upload_frame now uid d :
  files (snd (count_upload now uid d)) = files d
  /\ groups (snd (count_upload now uid d)) = groups d
  /\ links (snd (count_upload now uid d)) = links d
  /\ users (snd (count_upload now uid d)) = users d.
Proof.
  unfold count_upload, upsert_stats, modify. cbn [snd].
  destruct (existsb _ (stats d)); repeat split.
Qed.

(** X4.  An upload answered "Saved" has appended one file row carrying the
    selected group, the name and size taken from the message, the sender as
    uploader, the message id the storage channel returned and a fresh
    [gen_code]; it has added 1 to [total_files] and the size to [total_size]
    of the selected group only, and 1 to the sender's uploads counter only;
    the links table is untouched. *)
Theorem stored_upload_is_recorded now e user msg ud d fname n ud' d' :
  uniques_ok d ->
  handle_upload now e user msg ud d = (Saved fname n, ud', d') ->
  exists gid fsize sid,
    selected_group ud = Some gid
    /\ upload_media msg = Some (fname, fsize)
    /\ forward e = Tg.Done sid
    /\ files d'
       = files d ++
         [{| Files.id := files_id_seq d; Files.group_id := gid;
             Files.serial := n; Files.unique_id := gen_code (urandom e);
             Files.file_name := fname; Files.file_type := "file";
             Files.file_size := fsize; Files.storage_message_id := sid;
             Files.uploader_id := Tg.id user; Files.created_at := now |}]
    /\ groups d'
       = map (fun g => if Groups.id g =? gid then inc_totals fsize g else g)
           (groups d)
    /\ (forall uid,
          uploads_of uid d'
          = uploads_of uid d + (if uid =? Tg.id user then 1 else 0))
    /\ links d' = links d.
Proof.
  intros Hu. unfold handle_upload.
  pose proof (ensure_user_frame now user d) as (Hf & Hg & Hl & Hfs & _).
  pose proof (ensure_user_uploads now user d) as Hup.
  pose proof (ensure_user_uniques now user d Hu) as Hu1.
  destruct (ensure_user now user d) as [r0 d1]. cbn [snd] in *. clear r0.
  destruct (selected_group ud) as [gid|]; [|discriminate].
  destruct (upload_media msg) as [[fname0 fsize]|]; [|discriminate].
  unfold bind at 1.
  destruct (forward e) as [sid| |]; cbn [await ret raise];
    [|discriminate|discriminate].
  rewrite register_file_runs.
  destruct (existsb _ (files d1)) eqn:Hex; [discriminate|].
  cbn [upload_reply]. set (d2 := set_groups _ _).
  destruct (count_upload_frame now (Tg.id user) d2) as (Cf & Cg & Cl & _).
  assert (Cu : forall uid,
             uploads_of uid (snd (count_upload now (Tg.id user) d2))
             = uploads_of uid d + (if uid =? Tg.id user then 1 else 0)).
  { intros uid. unfold uploads_of at 1. unfold count_upload.
    rewrite (counter_after_upsert uid (Tg.id user) Stats.uploads);
      try reflexivity.
    - f_equal. subst d2. exact (Hup uid).
    - subst d2. exact (stats_user_id_unique _ Hu1). }
  remember (snd (count_upload now (Tg.id user) d2)) as d3 eqn:E3. clear E3.
  intros E. injection E as <- <- _ <-.
  exists gid, fsize, sid.
  split; [reflexivity|]. split; [reflexivity|]. split; [reflexivity|].
  split; [|split; [|split]].
  - rewrite Cf. subst d2. cbn [files set_groups set_files].
    unfold next_serial, serials. now rewrite Hf, Hfs.
  - rewrite Cg. subst d2. cbn [groups set_groups]. now rewrite Hg.
  - exact Cu.
  - rewrite Cl. subst d2. cbn [links set_groups set_files]. exact Hl.
Qed.

(** ** Group totals *)

(** The database an upload leaves: the registration's, or the [try]
    block's when a group is selected, the message carries a file and the
    forward succeeds. *)
Lemma handle_upload_db now e user msg ud d :
  snd (handle_upload now e user msg ud d)
  = match selected_group ud, upload_media msg, forward e with
    | Some gid, Some (fname, fsize), Tg.Done sid =>
        snd (register_file now gid e fname fsize sid (Tg.id user)
               (snd (ensure_user now user d)))
    | _, _, _ => snd (ensure_user now user d)
    end.
Proof.
  unfold handle_upload, bind.
  destruct (selected_group ud) as [gid|]; [|reflexivity].
  destruct (upload_media msg) as [[fname fsize]|]; [|reflexivity].
  destruct (forward e) as [sid| |]; cbn [await ret raise]; try reflexivity.
  now destruct (register_file _ _ _ _ _ _ _ _).
Qed.

(** What an upload does to the files and the groups: nothing, or one row
    more and that row's group counted up. *)
Lemma handle_upload_registry now e user msg ud d :
  let d' := snd (handle_upload now e user msg ud d) in
  (files d' = files d /\ groups d' = groups d)
  \/ exists row,
       files d' = files d ++ [row]
       /\ groups d'
          = map (fun g => if Groups.id g =? Files.group_id row
                          then inc_totals (Files.file_size row) g else g)
              (groups d).
Proof.
  intros d'. subst d'. rewrite handle_upload_db.
  pose proof (ensure_user_frame now user d) as (Hf & Hg & _).
  destruct (ensure_user now user d) as [r0 d1]. cbn [snd] in *. clear r0.
  destruct (selected_group ud) as [gid|]; [|now left].
  destruct (upload_media msg) as [[fname fsize]|]; [|now left].
  destruct (forward e) as [sid| |]; try (now left).
  rewrite register_file_runs.
  destruct (existsb _ (files d1)) eqn:Hex; cbn [snd].
  - left. cbn [files groups set_files]. now split.
  - right. set (d2 := set_groups _ _).
    destruct (count_upload_frame now (Tg.id user) d2) as (Cf & Cg & _).
    eexists. rewrite Cf, Cg. subst d2. cbn [files groups set_groups set_files].
    rewrite Hf, Hg. split; reflexivity.
Qed.

Lemma callback_groups (ADMIN_IDS : list Z) now e uid cb ud d :
  deletes (Callback e uid cb) = false ->
  groups (snd (callback_handler ADMIN_IDS now e uid cb ud d)) = groups d.
Proof.
  destruct cb; simpl; try discriminate; intros _; unfold_handlers; crunch.
Qed.

(** What the [delete] button does to the files and the groups: nothing, or
    one row of the named group less and that group counted down. *)
Lemma delete_registry (ADMIN_IDS : list Z) now e uid gid serial ud d :
  let d' := snd (callback_handler ADMIN_IDS now e uid (Delete gid serial) ud d) in
  (files d' = files d /\ groups d' = groups d)
  \/ exists f,
       In f (files d) /\ Files.group_id f = gid /\ Files.serial f = serial
       /\ files d' = filter (fun x => negb (Files.id x =? Files.id f)) (files d)
       /\ groups d'
          = map (fun g => if Groups.id g =? gid then dec_total_files g else g)
              (groups d).
Proof.
  unfold callback_handler, delete_item, select_file, select_group, bind, get, ret.
  destruct (find (at_serial gid serial) (files d)) as [f|] eqn:E; [|now left].
  destruct (not_permitted _ _ _); [now left|].
  right. exists f. apply find_some in E as [Hin Hat]. unfold at_serial in Hat.
  apply andb_true_iff in Hat as [Hg Hs]. apply Z.eqb_eq in Hg, Hs.
  split; [exact Hin|]. split; [exact Hg|]. split; [exact Hs|].
  unfold delete_file, update_group, catch, modify, bind.
  destruct (delete_message e); simpl; split; reflexivity.
Qed.

Lemma filter_other_ids (f : Files.row) (l : list Files.row) :
  ~ In (Files.id f) (map Files.id l) ->
  filter (fun x => negb (Files.id x =? Files.id f)) l = l.
Proof.
  induction l as [|x l IH]; simpl; intros H; [reflexivity|].
  destruct (Z.eqb_spec (Files.id x) (Files.id f)) as [E|_]; simpl.
  - exfalso. apply H. now left.
  - f_equal. apply IH. tauto.
Qed.

(** Deleting by a distinct id removes one row: the rows a test selects are
    one fewer exactly when the removed row passed the test. *)
Lemma filter_removed (p : Files.row -> bool) (f : Files.row)
    (l : list Files.row) :
  NoDup (map Files.id l) -> In f l ->
  exists before after,
    filter p l = before ++ (if p f then [f] else []) ++ after
    /\ filter p (filter (fun x => negb (Files.id x =? Files.id f)) l)
       = before ++ after.
Proof.
  induction l as [|x l IH]; intros Hnd Hin; [contradiction|].
  inversion Hnd as [|? ? Hnot Hnd']; subst. cbn [filter].
  destruct (Z.eqb_spec (Files.id x) (Files.id f)) as [E|E]; cbn [negb].
  - assert (x = f) as ->.
    { destruct Hin as [->|Hin]; [reflexivity|]. exfalso. apply Hnot.
      rewrite E. now apply in_map. }
    rewrite (filter_other_ids f l Hnot).
    exists [], (filter p l). split; [|reflexivity].
    now destruct (p f).
  - destruct Hin as [->|Hin]; [contradiction|].
    destruct (IH Hnd' Hin) as (before & after & H1 & H2).
    cbn [filter]. rewrite H1, H2.
    destruct (p x); [exists (x :: before), after | exists before, after];
      now split.
Qed.

Lemma sum_app (l1 l2 : list Z) :
  fold_right Z.add 0 (l1 ++ l2)
  = fold_right Z.add 0 l1 + fold_right Z.add 0 l2.
Proof. induction l1 as [|x l1 IH]; simpl; lia. Qed.

Lemma count_after_upload (g : Z) (d d' : db) (row : Files.row) :
  files d' = files d ++ [row] ->
  count_files g d'
  = count_files g d + (if Files.group_id row =? g then 1 else 0)
  /\ sum_sizes g d'
     = sum_sizes g d
       + (if Files.group_id row =? g then Files.file_size row else 0).
Proof.
  intros E. unfold count_files, sum_sizes. rewrite E, filter_app.
  rewrite length_app, map_app, sum_app. cbn [filter]. unfold in_group.
  destruct (Files.group_id row =? g); simpl; lia.
Qed.

Lemma count_after_delete (g : Z) (d d' : db) (f : Files.row) :
  NoDup (map Files.id (files d)) -> In f (files d) ->
  files d' = filter (fun x => negb (Files.id x =? Files.id f)) (files d) ->
  count_files g d'
  = count_files g d - (if Files.group_id f =? g then 1 else 0).
Proof.
  intros Hnd Hin E. unfold count_files. rewrite E.
  destruct (filter_removed (in_group g) f (files d) Hnd Hin)
    as (before & after & H1 & H2).
  rewrite H1, H2. unfold in_group at 1. rewrite !length_app.
  destruct (Files.group_id f =? g); simpl; lia.
Qed.

Lemma keys_ok_step ADMIN_IDS s ev :
  keys_ok (st_db s) -> keys_ok (st_db (step ADMIN_IDS s ev)).
Proof. intros H. exact (keys_ok_run ADMIN_IDS [ev] s H). Qed.

(** Every update leaves files and groups alone, adds a file and counts it, or
    removes a file and counts it down. *)
Lemma step_registry ADMIN_IDS s ev :
  let d := st_db s in
  let d' := st_db (step ADMIN_IDS s ev) in
  (files d' = files d /\ groups d' = groups d)
  \/ (exists row,
        files d' = files d ++ [row]
        /\ groups d'
           = map (fun g => if Groups.id g =? Files.group_id row
                           then inc_totals (Files.file_size row) g else g)
               (groups d))
  \/ (exists f,
        deletes (snd ev) = true /\ In f (files d)
        /\ files d' = filter (fun x => negb (Files.id x =? Files.id f)) (files d)
        /\ groups d'
           = map (fun g => if Groups.id g =? Files.group_id f
                           then dec_total_files g else g)
               (groups d)).
Proof.
  destruct ev as [now u]. unfold step. cbn [fst snd].
  destruct u as [user args|user bulk|e user msg|e uid cb|q|stop].
  - left. cbn [st_db]. rewrite cmd_start_db.
    destruct (ensure_user_frame now user (st_db s)) as (Hf & Hg & _). now split.
  - left. cbn [st_db]. simpl.
    destruct (ensure_user_frame now user (st_db s)) as (Hf & Hg & _). now split.
  - pose proof (handle_upload_registry now e user msg
                  (st_user_data s (Tg.id user)) (st_db s)) as H.
    destruct (handle_upload _ _ _ _ _ _) as [[r ud'] d']. cbn [snd st_db] in *.
    destruct H as [H|H]; [now left | right; now left].
  - destruct (deletes (Callback e uid cb)) eqn:Hd.
    + destruct cb; try discriminate Hd.
      pose proof (delete_registry ADMIN_IDS now e uid gid serial
                    (st_user_data s uid) (st_db s)) as H.
      destruct (callback_handler _ _ _ _ _ _ _) as [[r ud'] d'].
      cbn [snd st_db] in *.
      destruct H as [H|(f & Hin & Hg & _ & Hf & Hgs)]; [now left|].
      right. right. exists f. rewrite Hg. repeat split; assumption.
    + left.
      pose proof (callback_files ADMIN_IDS now e uid cb
                    (st_user_data s uid) (st_db s) Hd) as Hf.
      pose proof (callback_groups ADMIN_IDS now e uid cb
                    (st_user_data s uid) (st_db s) Hd) as Hg.
      destruct (callback_handler _ _ _ _ _ _ _) as [[r ud'] d']. now split.
  - left. now split.
  - left. cbn [st_db].
    destruct (expiry_cycle_frame now stop (st_db s)) as (Hf & Hg & _). now split.
Qed.

(** X5.  [total_files] counts the files: if every group's [total_files] is
    the number of file rows of that group, it still is after any updates,
    uploads and deletes included. *)
Theorem total_files_counts_files ADMIN_IDS evs :
  forall s,
    keys_ok (st_db s) ->
    Forall (fun g => Groups.total_files g = count_files (Groups.id g) (st_db s))
      (groups (st_db s)) ->
    let d' := st_db (run ADMIN_IDS evs s) in
    Forall (fun g => Groups.total_files g = count_files (Groups.id g) d')
      (groups d').
Proof.
  induction evs as [|ev evs IH]; intros s Hk H; [exact H|].
  cbn [run fold_left]. apply IH; [now apply keys_ok_step|]. clear IH.
  destruct (step_registry ADMIN_IDS s ev)
    as [[Hf Hg]|[(row & Hf & Hg)|(f & _ & Hin & Hf & Hg)]]; rewrite Hg.
  - eapply Forall_impl; [|exact H]. intros g Hgc. cbn beta in *.
    rewrite Hgc. unfold count_files. now rewrite Hf.
  - apply Forall_map. eapply Forall_impl; [|exact H]. intros g Hgc.
    cbn beta in *.
    destruct (count_after_upload (Groups.id g) _ _ row Hf) as [Hc _].
    rewrite (Z.eqb_sym (Files.group_id row)) in Hc.
    destruct (Groups.id g =? Files.group_id row) eqn:E;
      cbn [inc_totals Groups.id Groups.total_files]; rewrite ?E in Hc; lia.
  - apply Forall_map. eapply Forall_impl; [|exact H]. intros g Hgc.
    cbn beta in *.
    pose proof (count_after_delete (Groups.id g) _ _ f
                  (file_ids_distinct _ Hk) Hin Hf) as Hc.
    rewrite (Z.eqb_sym (Files.group_id f)) in Hc.
    destruct (Groups.id g =? Files.group_id f) eqn:E;
      cbn [dec_total_files Groups.id Groups.total_files]; rewrite ?E in Hc; lia.
Qed.

(** X6.  As long as no file is deleted, [total_size] sums the sizes: if
    every group's [total_size] is the sum of the [file_size] of its file
    rows, it still is after any updates that are not deletes. *)
Theorem total_size_sums_sizes ADMIN_IDS evs :
  forall s,
    forallb (fun ev => negb (deletes (snd ev))) evs = true ->
    Forall (fun g => Groups.total_size g = sum_sizes (Groups.id g) (st_db s))
      (groups (st_db s)) ->
    let d' := st_db (run ADMIN_IDS evs s) in
    Forall (fun g => Groups.total_size g = sum_sizes (Groups.id g) d')
      (groups d').
Proof.
  induction evs as [|ev evs IH]; intros s Hnd H; [exact H|].
  cbn [forallb] in Hnd. apply andb_true_iff in Hnd as [Hev Hnd].
  apply negb_true_iff in Hev.
  cbn [run fold_left]. apply IH; [exact Hnd|]. clear IH.
  destruct (step_registry ADMIN_IDS s ev)
    as [[Hf Hg]|[(row & Hf & Hg)|(f & Hdel & _)]]; [| |congruence]; rewrite Hg.
  - eapply Forall_impl; [|exact H]. intros g Hgc. cbn beta in *.
    rewrite Hgc. unfold sum_sizes. now rewrite Hf.
  - apply Forall_map. eapply Forall_impl; [|exact H]. intros g Hgc.
    cbn beta in *.
    destruct (count_after_upload (Groups.id g) _ _ row Hf) as [_ Hc].
    rewrite (Z.eqb_sym (Files.group_id row)) in Hc.
    destruct (Groups.id g =? Files.group_id row) eqn:E;
      cbn [inc_totals Groups.id Groups.total_size]; rewrite ?E in Hc; lia.
Qed.

(** ** Upload attempts *)

(** [handle_upload], case by case. *)
Lemma handle_upload_cases now e user msg ud d :
  handle_upload now e user msg ud d
  = let d1 := snd (ensure_user now user d) in
    match selected_group ud with
    | None => (SelectGroupFirst, ud, d1)
    | Some gid =>
        match upload_media msg with
        | None => (UnsupportedFileType, ud, d1)
        | Some (fname, fsize) =>
            match forward e with
            | Tg.Done sid =>
                if existsb
                     (fun f => String.eqb (Files.unique_id f) (gen_code (urandom e)))
                     (files d1)
                then (UploadFailed, after_upload ud,
                      set_files (files d1) (files_id_seq d1 + 1) d1)
                else (Saved fname (next_serial gid d1), after_upload ud,
                      snd (register_file now gid e fname fsize sid (Tg.id user) d1))
            | Tg.RetryAfter => (RateLimited, after_upload ud, d1)
            | Tg.Failed => (UploadFailed, after_upload ud, d1)
            end
        end
    end.
Proof.
  unfold handle_upload. cbv zeta.
  destruct (selected_group ud) as [gid|]; [|reflexivity].
  destruct (upload_media msg) as [[fname fsize]|]; [|reflexivity].
  unfold bind at 1.
  destruct (forward e) as [sid| |]; cbn [await ret raise]; try reflexivity.
  rewrite register_file_runs. now destruct (existsb _ _).
Qed.

(** X7.  An upload that gets as far as the [try] block but is not stored -
    the forward to the storage channel fails, or the generated [unique_id]
    is already taken - is answered "Rate limited" (on [RetryAfter]) or
    "Upload failed" and records nothing: files, groups, links and every
    uploads counter are as before. *)
Theorem failed_upload_records_nothing now e user msg ud d gid fname fsize :
  selected_group ud = Some gid ->
  upload_media msg = Some (fname, fsize) ->
  match forward e with
  | Tg.Done _ =>
      existsb (fun f => String.eqb (Files.unique_id f) (gen_code (urandom e)))
        (files d) = true
  | _ => True
  end ->
  let '(r, ud', d') := handle_upload now e user msg ud d in
  r = match forward e with Tg.RetryAfter => RateLimited | _ => UploadFailed end
  /\ ud' = after_upload ud
  /\ files d' = files d /\ groups d' = groups d /\ links d' = links d
  /\ forall uid, uploads_of uid d' = uploads_of uid d.
Proof.
  intros Hsel Hmedia Hfail. rewrite handle_upload_cases. cbv zeta.
  rewrite Hsel, Hmedia.
  pose proof (ensure_user_frame now user d) as (Hf & Hg & Hl & _).
  pose proof (ensure_user_uploads now user d) as Hup.
  destruct (ensure_user now user d) as [r0 d1]. cbn [snd] in *. clear r0.
  destruct (forward e) as [sid| |].
  - rewrite Hf, Hfail. repeat split; assumption.
  - repeat split; assumption.
  - repeat split; assumption.
Qed.

(** X8.  The [finally] clause: an upload attempt that reaches the [try]
    block clears the selected group unless bulk mode is on, whatever the
    outcome.  So in single mode the next file of the same user is answered
    "Select a group first" and is not stored, while in bulk mode the
    selection stays as it is. *)
Theorem selection_after_upload now e user msg ud d gid fname fsize :
  selected_group ud = Some gid ->
  upload_media msg = Some (fname, fsize) ->
  let '(_, ud', d') := handle_upload now e user msg ud d in
  (is_bulk_upload ud = Some true -> ud' = ud)
  /\ (is_bulk_upload ud <> Some true ->
      selected_group ud' = None
      /\ forall now2 e2 msg2,
           let '(r2, ud2, d2) := handle_upload now2 e2 user msg2 ud' d' in
           r2 = SelectGroupFirst /\ ud2 = ud' /\ files d2 = files d').
Proof.
  intros Hsel Hmedia. rewrite handle_upload_cases. cbv zeta.
  rewrite Hsel, Hmedia.
  assert (Hud : (is_bulk_upload ud = Some true -> after_upload ud = ud)
                /\ (is_bulk_upload ud <> Some true ->
                    selected_group (after_upload ud) = None)).
  { split; [apply after_upload_bulk|]. unfold after_upload.
    destruct (is_bulk_upload ud) as [[|]|]; try reflexivity. congruence. }
  assert (Hnext : forall ud' d',
             selected_group ud' = None ->
             forall now2 e2 msg2,
               let '(r2, ud2, d2) := handle_upload now2 e2 user msg2 ud' d' in
               r2 = SelectGroupFirst /\ ud2 = ud' /\ files d2 = files d').
  { intros ud' d' Hnone now2 e2 msg2. rewrite handle_upload_cases. cbv zeta.
    rewrite Hnone. repeat split. apply ensure_user_frame. }
  destruct Hud as [Hb Hs].
  destruct (forward e) as [sid| |]; [destruct (existsb _ _)| |];
    (split; [exact Hb|]; intros Hnb; split; [now apply Hs|];
     apply Hnext; now apply Hs).
Qed.

(** ** Picking a group *)


(** ** Buttons on a file *)

(** An upsert on [stats] that leaves a column alone on conflict, and starts
    it at 0, keeps every user's sum of that column. *)
Lemma counter_kept_by_upsert (uid who : Z) (col : Stats.row -> Z)
    (fresh : Z -> Stats.row) (upd : Stats.row -> Stats.row) (d : db) :
  (forall k, col (fresh k) = 0) ->
  (forall r, Stats.user_id (upd r) = Stats.user_id r) ->
  (forall r, col (upd r) = col r) ->
  fold_right Z.add 0
    (map col
       (filter (fun r => Stats.user_id r =? uid)
          (stats (snd (upsert_stats who fresh upd d)))))
  = fold_right Z.add 0
      (map col (filter (fun r => Stats.user_id r =? uid) (stats d))).
Proof.
  intros Hfc Hid Hcol. unfold upsert_stats, modify. cbn [snd].
  destruct (existsb _ (stats d)); cbn [stats set_stats].
  - induction (stats d) as [|r rows IH]; [reflexivity|]. cbn [map filter].
    destruct (Stats.user_id r =? who); rewrite ?Hid;
      destruct (Stats.user_id r =? uid); cbn [map fold_right];
      rewrite ?Hcol, IH; reflexivity.
  - rewrite filter_app, map_app, sum_app. cbn [filter].
    destruct (Stats.user_id (fresh (stats_id_seq d)) =? uid);
      cbn [map fold_right]; rewrite ?Hfc; lia.
Qed.

Lemma count_download_frame now uid d :
  files (snd (count_download now uid d)) = files d
  /\ groups (snd (count_download now uid d)) = groups d
  /\ links (snd (count_download now uid d)) = links d
  /\ users (snd (count_download now uid d)) = users d.
Proof.
  unfold count_download, upsert_stats, modify. cbn [snd].
  destruct (existsb _ (stats d)); repeat split.
Qed.

(** X10.  The [download] button asks for no permission: for any user and
    any existing file, when the copy from the storage channel succeeds the
    requester's downloads counter goes up by one, and nothing else is
    counted; when the copy fails the answer is "Could not send file" and the
    database is as before.  Files, groups, links and users are untouched
    either way. *)
Theorem download_counts_requester ADMIN_IDS now e uid gid serial ud d f :
  uniques_ok d ->
  find (at_serial gid serial) (files d) = Some f ->
  let '(r, ud', d') :=
    callback_handler ADMIN_IDS now e uid (Download gid serial) ud d in
  ud' = ud
  /\ files d' = files d /\ groups d' = groups d /\ links d' = links d
  /\ users d' = users d
  /\ match copy_message e with
     | Tg.Done _ =>
         r = FileSent
         /\ (forall u,
               downloads_of u d'
               = downloads_of u d + (if u =? uid then 1 else 0))
         /\ forall u, uploads_of u d' = uploads_of u d
     | _ => r = CouldNotSendFile /\ d' = d
     end.
Proof.
  intros Hu E.
  unfold callback_handler, download_item, select_file, bind, get, ret, catch.
  rewrite E.
  destruct (copy_message e) as [[]| |]; cbn [await ret raise];
    [|repeat split; reflexivity|repeat split; reflexivity].
  destruct (count_download_frame now uid d) as (Cf & Cg & Cl & Cu).
  assert (Cd : forall u,
             downloads_of u (snd (count_download now uid d))
             = downloads_of u d + (if u =? uid then 1 else 0)).
  { intros u. unfold downloads_of, count_download.
    apply (counter_after_upsert u uid Stats.downloads); try reflexivity.
    exact (stats_user_id_unique _ Hu). }
  assert (Cup : forall u,
             uploads_of u (snd (count_download now uid d)) = uploads_of u d).
  { intros u. unfold uploads_of, count_download.
    apply (counter_kept_by_upsert u uid Stats.uploads); reflexivity. }
  assert (Hok : fst (count_download now uid d) = Ok tt) by reflexivity.
  destruct (count_download now uid d) as [r0 d3]. cbn [fst snd] in *.
  rewrite Hok. repeat split; assumption.
Qed.



(** ** Passes of the expiry worker *)

Lemma expired_deactivated (now : Z) (l : Links.row) :
  expired now (Links.deactivate l) = false.
Proof. reflexivity. Qed.

Lemma expired_later (now now2 : Z) (l : Links.row) :
  now <= now2 -> expired now l = true -> expired now2 l = true.
Proof.
  intros Hle H. apply expired_spec in H as [Ha (t & Ht & Hlt)].
  apply expired_spec. split; [exact Ha|]. exists t. split; [exact Ht | lia].
Qed.

Lemma filter_none {A} (p : A -> bool) (l : list A) :
  Forall (fun x => p x = false) l -> filter p l = [].
Proof.
  induction 1 as [|x l Hx _ IH]; [reflexivity|]. simpl. now rewrite Hx.
Qed.

Lemma keys_ok_expiry_cycle now stop d :
  keys_ok d -> keys_ok (expiry_cycle now stop d).
Proof. apply invariant_expiry_cycle. apply keys_ok_deactivate_link. Qed.

(** X13.  A pass of the expiry worker that an exception cut short loses
    nothing: the next complete pass leaves the links as a complete pass would
    have left them without the interrupted one.  After a complete pass no link
    meets the expiry condition any more, so a second pass at the same time
    changes nothing. *)
Theorem interrupted_pass_is_made_up now stop now2 d :
  keys_ok d -> now <= now2 ->
  links (expiry_cycle now2 None (expiry_cycle now stop d))
  = links (expiry_cycle now2 None d)
  /\ Forall (fun l => expired now2 l = false) (links (expiry_cycle now2 None d))
  /\ expiry_cycle now2 None (expiry_cycle now2 None d)
     = expiry_cycle now2 None d.
Proof.
  intros Hk Hle.
  assert (Hdone : Forall (fun l => expired now2 l = false)
                    (links (expiry_cycle now2 None d))).
  { rewrite (expiry_cycle_complete now2 d Hk). apply Forall_map.
    apply Forall_forall. intros l _.
    destruct (expired now2 l) eqn:E; [apply expired_deactivated | exact E]. }
  split; [|split; [exact Hdone|]].
  - rewrite (expiry_cycle_complete now2 _ (keys_ok_expiry_cycle now stop d Hk)).
    rewrite (expiry_cycle_complete now2 d Hk).
    unfold expiry_cycle.
    match goal with
    | |- context [fold_left _ ?rows d] =>
        destruct (deactivate_all_links rows d) as (Hl & _); rewrite Hl
    end.
    rewrite map_map. apply map_ext_in. intros l Hin.
    destruct (existsb _ _) eqn:Hex; [|reflexivity].
    pose proof (selected_by_id now stop d l Hk Hin Hex) as Hexp.
    rewrite expired_deactivated, (expired_later now now2 l Hle Hexp).
    reflexivity.
  - unfold expiry_cycle at 1. now rewrite (filter_none _ _ Hdone).
Qed.

(** ** Registration *)

Lemma insert_user_registers now u d :
  existsb (fun r => Users.user_id r =? Tg.id u)
    (users (snd (insert_user now u d))) = true.
Proof.
  unfold insert_user, modify. cbn [snd].
  destruct (existsb _ (users d)) eqn:E; cbn [users set_users]; [exact E|].
  rewrite existsb_app. cbn [existsb Users.user_id].
  now rewrite Z.eqb_refl, orb_true_r.
Qed.

Lemma touch_stats_registers now uid d :
  existsb (fun r => Stats.user_id r =? uid)
    (stats (snd (touch_stats now uid d))) = true.
Proof.
  unfold touch_stats, upsert_stats, modify. cbn [snd].
  destruct (existsb _ (stats d)) eqn:E; cbn [stats set_stats].
  - induction (stats d) as [|r rows IH]; [discriminate E|].
    cbn [map existsb] in *.
    destruct (Stats.user_id r =? uid) eqn:Er;
      cbn [set_last_active Stats.user_id]; rewrite Er; [reflexivity|].
    now apply IH.
  - rewrite existsb_app. cbn [existsb Stats.user_id].
    now rewrite Z.eqb_refl, orb_true_r.
Qed.

Lemma ensure_user_tables now u d :
  users (snd (ensure_user now u d)) = users (snd (insert_user now u d))
  /\ stats (snd (ensure_user now u d))
     = stats (snd (touch_stats now (Tg.id u) d)).
Proof.
  unfold ensure_user, touch_stats, upsert_stats, insert_user, bind, modify.
  cbn [snd fst].
  destruct (existsb _ (users d)); cbn [stats set_users];
    destruct (existsb _ (stats d)); split; reflexivity.
Qed.

Lemma ensure_user_downloads (now : Z) (u : Tg.user) (d : db) (uid : Z) :
  downloads_of uid (snd (ensure_user now u d)) = downloads_of uid d.
Proof.
  unfold downloads_of. rewrite (proj2 (ensure_user_tables now u d)).
  unfold touch_stats.
  apply (counter_kept_by_upsert uid (Tg.id u) Stats.downloads); reflexivity.
Qed.

(** X14.  [ensure_user] registers a user once.  When the same user id comes
    again - with another username or first name, at another time - the users
    table stays as it is ([ON CONFLICT DO NOTHING]: the stored names are
    never refreshed), no second stats row appears, the user's stats row gets
    the new [last_active], and nobody's counters change. *)
Theorem ensure_user_registers_once now u now2 u2 d :
  Tg.id u2 = Tg.id u ->
  let d1 := snd (ensure_user now u d) in
  let d2 := snd (ensure_user now2 u2 d1) in
  users d2 = users d1
  /\ map Stats.user_id (stats d2) = map Stats.user_id (stats d1)
  /\ (forall r, In r (stats d2) -> Stats.user_id r = Tg.id u ->
        Stats.last_active r = Some now2)
  /\ forall uid,
       uploads_of uid d2 = uploads_of uid d1
       /\ downloads_of uid d2 = downloads_of uid d1.
Proof.
  intros Hid d1 d2.
  assert (Hu : existsb (fun r => Users.user_id r =? Tg.id u2) (users d1) = true).
  { subst d1. rewrite Hid, (proj1 (ensure_user_tables now u d)).
    apply insert_user_registers. }
  assert (Hs : existsb (fun r => Stats.user_id r =? Tg.id u2) (stats d1) = true).
  { subst d1. rewrite Hid, (proj2 (ensure_user_tables now u d)).
    apply touch_stats_registers. }
  assert (Hs2 : stats d2
                = map (fun r => if Stats.user_id r =? Tg.id u2
                                then set_last_active now2 r else r) (stats d1)).
  { subst d2. rewrite (proj2 (ensure_user_tables now2 u2 d1)).
    unfold touch_stats, upsert_stats, modify. cbn [snd]. now rewrite Hs. }
  split; [|split; [|split]].
  - subst d2. rewrite (proj1 (ensure_user_tables now2 u2 d1)).
    unfold insert_user, modify. cbn [snd]. now rewrite Hu.
  - rewrite Hs2, map_map. apply map_ext. intros r.
    now destruct (Stats.user_id r =? Tg.id u2).
  - intros r Hin Hr. rewrite Hs2 in Hin.
    apply in_map_iff in Hin as (r0 & <- & _).
    destruct (Stats.user_id r0 =? Tg.id u2) eqn:E; [reflexivity|].
    apply Z.eqb_neq in E. congruence.
  - intros uid. split; [apply ensure_user_uploads | apply ensure_user_downloads].
Qed.

(** ** Search *)

Lemma tokens_before_percent (p : list ascii) :
  Like.tokens (p ++ ["%"%char]) <> None
  /\ forall c, Like.tokens (c :: p ++ ["%"%char]) <> None.
Proof.
  assert (Hmap : forall (f : list Like.token -> list Like.token) o,
             o <> None -> option_map f o <> None)
    by (intros f [x|] H; [discriminate | contradiction]).
  induction p as [|a p [IH1 IH2]].
  - split; [discriminate|]. intros c. cbn [app Like.tokens].
    destruct (Ascii.eqb c "\"); [discriminate|].
    destruct (Ascii.eqb c "%"); [discriminate|].
    destruct (Ascii.eqb c "_"); discriminate.
  - split; [apply IH2|]. intros c. cbn [app] in *.
    change (Like.tokens (c :: a :: p ++ ["%"%char]))
      with (if Ascii.eqb c "\"
            then option_map (cons (Like.Lit a)) (Like.tokens (p ++ ["%"%char]))
            else if Ascii.eqb c "%"
            then option_map (cons Like.AnyRun)
                   (Like.tokens (a :: p ++ ["%"%char]))
            else if Ascii.eqb c "_"
            then option_map (cons Like.AnyOne)
                   (Like.tokens (a :: p ++ ["%"%char]))
            else option_map (cons (Like.Lit c))
                   (Like.tokens (a :: p ++ ["%"%char]))).
    destruct (Ascii.eqb c "\"); [now apply Hmap|].
    destruct (Ascii.eqb c "%"); [now apply Hmap|].
    destruct (Ascii.eqb c "_"); now apply Hmap.
Qed.

(** The query of [do_search] is never refused; it yields at most 25 rows of
    the files table, each with a name. *)
Lemma search_files_answers (q : string) (d : db) :
  exists rows,
    search_files q d = Some rows
    /\ (List.length rows <= 25)%nat
    /\ (forall f, In f rows -> In f (files d) /\ Files.file_name f <> None).
Proof.
  unfold search_files.
  rewrite !list_ascii_of_string_app. cbn [list_ascii_of_string app].
  destruct (tokens_before_percent (list_ascii_of_string q)) as [_ H].
  specialize (H "%"%char).
  destruct (Like.tokens _) as [ts|]; [|contradiction]. cbn [option_map].
  eexists. split; [reflexivity|]. split; [apply firstn_le_length|].
  intros f Hin.
  assert (Hf : In f (filter (name_ilike ts) (files d))).
  { rewrite <- (firstn_skipn 25 (filter _ _)). apply in_or_app. now left. }
  apply filter_In in Hf as [Hf Hn]. split; [exact Hf|].
  unfold name_ilike in Hn. now destruct (Files.file_name f).
Qed.

(** X15.  [do_search] answers every text: the pattern it builds by putting
    the text between two [%] never ends in a dangling escape character, even
    when the text ends in a backslash, so the query is never refused.  The
    answer lists at most 25 rows, each a row of the files table that has a
    name, whoever owns it. *)
Theorem do_search_always_answers (q : string) (d : db) :
  exists rows,
    search_files q d = Some rows
    /\ (List.length rows <= 25)%nat
    /\ (forall f, In f rows -> In f (files d) /\ Files.file_name f <> None)
    /\ do_search q d
       = Some (match rows with
               | [] => NoResults
               | _ :: _ => Results (map search_row rows)
               end).
Proof.
  destruct (search_files_answers q d) as (rows & E & Hlen & Hrows).
  exists rows. split; [exact E|]. split; [exact Hlen|]. split; [exact Hrows|].
  unfold do_search. rewrite E. reflexivity.
Qed.

(** ** Groups *)

Lemma same_group_refl (gs : list Groups.row) : Forall2 same_group gs gs.
Proof. induction gs; constructor; [now repeat split | assumption]. Qed.

Lemma same_group_map (f : Groups.row -> Groups.row) (gs0 gs : list Groups.row) :
  (forall g, same_group g (f g)) ->
  Forall2 same_group gs0 gs -> Forall2 same_group gs0 (map f gs).
Proof.
  intros Hf H. induction H as [|g0 g gs0 gs Hg _ IH]; simpl; constructor.
  - destruct Hg as (H1 & H2 & H3 & H4), (Hf g) as (F1 & F2 & F3 & F4).
    repeat split; congruence.
  - exact IH.
Qed.

(** X16.  No update the bot handles adds, removes, reorders or renames a
    group, or gives it another owner: through every sequence of updates the
    groups table holds the same groups, row by row; only their totals move.
    In particular a database without groups stays without groups. *)
Theorem groups_are_never_created ADMIN_IDS evs :
  forall s,
    Forall2 same_group (groups (st_db s)) (groups (st_db (run ADMIN_IDS evs s)))
    /\ (groups (st_db s) = [] -> groups (st_db (run ADMIN_IDS evs s)) = []).
Proof.
  enough (H : forall s gs0,
             Forall2 same_group gs0 (groups (st_db s)) ->
             Forall2 same_group gs0 (groups (st_db (run ADMIN_IDS evs s)))).
  { intros s. pose proof (H s _ (same_group_refl _)) as Hs.
    split; [exact Hs|]. intros E. rewrite E in Hs. now inversion Hs. }
  induction evs as [|ev evs IH]; intros s gs0 H; [exact H|].
  cbn [run fold_left]. apply IH. clear IH.
  destruct (step_registry ADMIN_IDS s ev)
    as [[_ Hg]|[(row & _ & Hg)|(f & _ & _ & _ & Hg)]]; rewrite Hg.
  - exact H.
  - apply same_group_map; [|exact H]. intros g.
    destruct (Groups.id g =? _); now repeat split.
  - apply same_group_map; [|exact H]. intros g.
    destruct (Groups.id g =? _); now repeat split.
Qed.

(** ** The further properties on sample data *)

Ltac solve_uniques :=
  constructor; simpl;
  repeat first
    [ apply NoDup_nil
    | apply NoDup_cons; [simpl; intuition discriminate|] ].

Lemma uniques_ok_docs : uniques_ok docs_db.
Proof. solve_uniques. Qed.

Lemma uniques_ok_empty_docs : uniques_ok empty_docs_db.
Proof. solve_uniques. Qed.


(** A start, an upload and a second start from a fresh database. *)
Lemma unique_columns_on_sample :
  let evs := [(1, Start owner []);
              (2, Upload (env_with x01 501) owner
                    (document_message "u1" "a.txt" 10));
              (3, Start owner [])] in
  uniques_ok (st_db initial_state)
  /\ uniques_ok (st_db (run [] evs initial_state)).
Proof.
  intros evs.
  assert (H0 : uniques_ok (st_db initial_state)) by solve_uniques.
  split; [exact H0 | exact (unique_columns_kept [] evs initial_state H0)].
Defined.

(** The first of the two sample uploads. *)
Lemma stored_upload_on_docs :
  uniques_ok empty_docs_db
  /\ map Files.serial
       (files (snd (handle_upload 1 (env_with x01 501) owner
                      (document_message "u1" "notes-old.txt" 10)
                      bulk_into_docs empty_docs_db))) = [1]
  /\ uploads_of 100
       (snd (handle_upload 1 (env_with x01 501) owner
               (document_message "u1" "notes-old.txt" 10)
               bulk_into_docs empty_docs_db)) = 1.
Proof.
  assert (E : handle_upload 1 (env_with x01 501) owner
                (document_message "u1" "notes-old.txt" 10)
                bulk_into_docs empty_docs_db
              = (Saved (Some "notes-old.txt"%string) 1, bulk_into_docs,
                 snd (handle_upload 1 (env_with x01 501) owner
                        (document_message "u1" "notes-old.txt" 10)
                        bulk_into_docs empty_docs_db)))
    by (vm_compute; reflexivity).
  destruct (stored_upload_is_recorded _ _ _ _ _ _ _ _ _ _
              uniques_ok_empty_docs E)
    as (gid & fsize & sid & _ & _ & _ & Hf & _ & Hup & _).
  split; [exact uniques_ok_empty_docs|]. split.
  - rewrite Hf. reflexivity.
  - rewrite (Hup 100). reflexivity.
Defined.

(** An upload into "Docs" and the delete of its first file. *)
Lemma total_files_on_docs :
  let s := {| st_db := docs_db; st_user_data := fun _ => bulk_into_docs |} in
  let evs := [(1, Upload (env_with x01 501) owner
                    (document_message "u1" "a.txt" 10));
              (2, Callback sample_env 100 (Delete 1 1))] in
  keys_ok docs_db
  /\ map Groups.total_files (groups (st_db (run [] evs s)))
     = map (fun g => count_files (Groups.id g) (st_db (run [] evs s)))
         (groups (st_db (run [] evs s))).
Proof.
  intros s evs. split; [exact keys_ok_docs|].
  assert (H0 : Forall (fun g => Groups.total_files g
                                = count_files (Groups.id g) (st_db s))
                 (groups (st_db s))) by (repeat constructor).
  pose proof (total_files_counts_files [] evs s keys_ok_docs H0) as H.
  apply map_ext_Forall. exact H.
Defined.

(** Two uploads into "Docs". *)
Lemma total_size_on_docs :
  let s := {| st_db := docs_db; st_user_data := fun _ => bulk_into_docs |} in
  let evs := [(1, Upload (env_with x01 501) owner
                    (document_message "u1" "a.txt" 10));
              (2, Upload (env_with x02 502) owner
                    (document_message "u2" "b.txt" 20))] in
  forallb (fun ev => negb (deletes (snd ev))) evs = true
  /\ map Groups.total_size (groups (st_db (run [] evs s)))
     = map (fun g => sum_sizes (Groups.id g) (st_db (run [] evs s)))
         (groups (st_db (run [] evs s))).
Proof.
  intros s evs. split; [reflexivity|].
  assert (H0 : Forall (fun g => Groups.total_size g
                                = sum_sizes (Groups.id g) (st_db s))
                 (groups (st_db s))) by (repeat constructor).
  pose proof (total_size_sums_sizes [] evs s eq_refl H0) as H.
  apply map_ext_Forall. exact H.
Defined.

(** A document sent into "Docs" while the storage channel is rate limited. *)
Lemma failed_upload_on_docs :
  selected_group bulk_into_docs = Some 1
  /\ upload_media (document_message "u1" "a.txt" 10)
     = Some (Some "a.txt"%string, 10)
  /\ fst (fst (handle_upload 5 flood_env owner
                 (document_message "u1" "a.txt" 10) bulk_into_docs docs_db))
     = RateLimited
  /\ files (snd (handle_upload 5 flood_env owner
                   (document_message "u1" "a.txt" 10) bulk_into_docs docs_db))
     = [report_file].
Proof.
  split; [reflexivity|]. split; [reflexivity|].
  generalize (failed_upload_records_nothing 5 flood_env owner
                (document_message "u1" "a.txt" 10) bulk_into_docs docs_db
                1 (Some "a.txt"%string) 10 eq_refl eq_refl I).
  destruct (handle_upload 5 flood_env owner _ _ _) as [[r ud'] d'].
  intros (Hr & _ & Hf & _). split; [exact Hr | exact Hf].
Defined.

(** A document sent into "Docs" in single mode: the selection is gone
    afterwards. *)
Lemma selection_after_single_upload :
  selected_group single_into_docs = Some 1
  /\ selected_group
       (snd (fst (handle_upload 5 sample_env owner
                    (document_message "u1" "a.txt" 10) single_into_docs
                    empty_docs_db)))
     = None.
Proof.
  split; [reflexivity|].
  generalize (selection_after_upload 5 sample_env owner
                (document_message "u1" "a.txt" 10) single_into_docs
                empty_docs_db 1 (Some "a.txt"%string) 10 eq_refl eq_refl).
  destruct (handle_upload 5 sample_env owner _ _ _) as [[r ud'] d'].
  intros [_ H]. apply H. discriminate.
Defined.


(** User 200 downloads the report. *)
Lemma download_by_stranger :
  uniques_ok docs_db
  /\ find (at_serial 1 1) (files docs_db) = Some report_file
  /\ downloads_of 200
       (snd (callback_handler [] 10 sample_env 200 (Download 1 1)
               no_user_data docs_db)) = 1.
Proof.
  split; [exact uniques_ok_docs|]. split; [reflexivity|].
  generalize (download_counts_requester [] 10 sample_env 200 1 1 no_user_data
                docs_db report_file uniques_ok_docs eq_refl).
  destruct (callback_handler [] 10 sample_env 200 (Download 1 1) _ _)
    as [[r ud'] d'].
  intros (_ & _ & _ & _ & _ & H). cbn [sample_env copy_message] in H.
  destruct H as (_ & H & _). cbn [snd]. rewrite (H 200). reflexivity.
Defined.



(** A pass at time 10 that stops before its first update, and the complete
    pass at time 12. *)
Lemma interrupted_pass_on_expired_link :
  keys_ok expired_db
  /\ links (expiry_cycle 12 None (expiry_cycle 10 (Some 0%nat) expired_db))
     = [Links.deactivate expired_link].
Proof.
  split; [exact keys_ok_expired|].
  destruct (interrupted_pass_is_made_up 10 (Some 0%nat) 12 expired_db
              keys_ok_expired ltac:(lia)) as (H & _).
  rewrite H. reflexivity.
Defined.

(** User 200 comes back under another username. *)
Lemma renamed_user_keeps_first_name :
  Tg.id renamed_visitor = Tg.id visitor
  /\ map Users.username
       (users (snd (ensure_user 9 renamed_visitor
                      (snd (ensure_user 5 visitor docs_db)))))
     = [Some "guest"%string].
Proof.
  split; [reflexivity|].
  destruct (ensure_user_registers_once 5 visitor 9 renamed_visitor docs_db
              eq_refl) as (H & _).
  rewrite H. reflexivity.
Defined.


(** Administrator 7 deletes the report of user 100. *)
Lemma delete_by_admin_on_docs :
  keys_ok docs_db
  /\ not_permitted [7] 7 (Some 100) = false
  /\ map Groups.total_files
       (groups (snd (callback_handler [7] 10 sample_env 7 (Delete 1 1)
                       no_user_data docs_db))) = [0]
  /\ map Groups.total_size
       (groups (snd (callback_handler [7] 10 sample_env 7 (Delete 1 1)
                       no_user_data docs_db))) = [5000].
Proof.
  split; [exact keys_ok_docs|]. split; [reflexivity|].
  generalize (delete_by_owner [7] 10 sample_env 7 1 1 no_user_data docs_db
                report_file keys_ok_docs eq_refl eq_refl).
  destruct (callback_handler [7] 10 sample_env 7 (Delete 1 1) _ _)
    as [[r ud'] d'].
  intros (_ & _ & _ & Hg & Hs & _). cbn [snd]. split.
  - rewrite Hg. reflexivity.
  - rewrite Hs. reflexivity.
Defined.

(** * Callback data *)

Lemma split_no_sep (sep : ascii) (s : string) :
  no_sep sep s = true -> split sep s = [s].
Proof.
  induction s as [|c s IH]; [reflexivity|]. cbn [no_sep split].
  intros H. apply andb_true_iff in H as [Hc Hs]. apply negb_true_iff in Hc.
  now rewrite Hc, (IH Hs).
Qed.

Lemma split_at_sep (sep : ascii) (a rest : string) :
  no_sep sep a = true ->
  split sep (a ++ String sep rest) = a :: split sep rest.
Proof.
  induction a as [|c a IH]; cbn [no_sep split append].
  - intros _. now rewrite Ascii.eqb_refl.
  - intros H. apply andb_true_iff in H as [Hc Ha]. apply negb_true_iff in Hc.
    now rewrite Hc, (IH Ha).
Qed.

Lemma digits_no_colon (d : Decimal.uint) :
  no_sep ":" (NilEmpty.string_of_uint d) = true.
Proof. induction d; cbn [NilEmpty.string_of_uint no_sep]; auto. Qed.

Lemma py_str_no_colon (n : Z) : no_sep ":" (py_str n) = true.
Proof.
  assert (H : forall d, no_sep ":" (NilZero.string_of_uint d) = true).
  { intros d. destruct d; try reflexivity;
      exact (digits_no_colon (_ d)) || apply digits_no_colon. }
  unfold py_str. destruct (Z.to_int n) as [d|d]; cbn [NilZero.string_of_int].
  - apply H.
  - cbn [no_sep]. apply H.
Qed.

(** [decimal] reads back what [py_str] writes. *)
Lemma decimal_py_str (n : Z) : decimal (py_str n) = Some n.
Proof.
  unfold decimal, py_str.
  assert (E : NilZero.int_of_string (NilZero.string_of_int (Z.to_int n))
              = Some (Z.to_int n)).
  { apply NilZero.isi; destruct n; discriminate || (cbn [Z.to_int]; intros H;
      injection H as H; revert H; apply Unsigned.to_uint_nonnil). }
  rewrite E. cbn [option_map]. f_equal. apply DecimalZ.of_to.
Qed.

Section Buttons.

Variable int : string -> option Z.
Hypothesis int_str : forall n, int (py_str n) = Some n.

Lemma parse_data1 (action : string) (a : Z) :
  no_sep ":" action = true ->
  parse_callback int (Some (Keyboard.data1 action a))
  = of_parts int [action; py_str a].
Proof.
  intros H. unfold parse_callback, Keyboard.data1.
  change (":" ++ py_str a)%string with (String ":" (py_str a)).
  now rewrite (split_at_sep ":" action _ H), (split_no_sep _ _ (py_str_no_colon a)).
Qed.

Lemma parse_data2 (action : string) (a b : Z) :
  no_sep ":" action = true ->
  parse_callback int (Some (Keyboard.data2 action a b))
  = of_parts int [action; py_str a; py_str b].
Proof.
  intros H. unfold parse_callback, Keyboard.data2.
  change (":" ++ py_str a ++ ":" ++ py_str b)%string
    with (String ":" (py_str a ++ String ":" (py_str b))).
  now rewrite (split_at_sep ":" action _ H),
    (split_at_sep ":" _ _ (py_str_no_colon a)),
    (split_no_sep _ _ (py_str_no_colon b)).
Qed.

Lemma parse_data3 (action : string) (a b c : Z) :
  no_sep ":" action = true ->
  parse_callback int (Some (Keyboard.data3 action a b c))
  = of_parts int [action; py_str a; py_str b; py_str c].
Proof.
  intros H. unfold parse_callback, Keyboard.data3.
  change (":" ++ py_str a ++ ":" ++ py_str b ++ ":" ++ py_str c)%string
    with (String ":" (py_str a ++ String ":" (py_str b ++ String ":" (py_str c)))).
  now rewrite (split_at_sep ":" action _ H),
    (split_at_sep ":" _ _ (py_str_no_colon a)),
    (split_at_sep ":" _ _ (py_str_no_colon b)),
    (split_no_sep _ _ (py_str_no_colon c)).
Qed.

(** The numerals in the parts of a button are read back by [int]; the
    numerals themselves stay folded while the action is compared. *)
Ltac read_numerals :=
  unfold of_parts, with_seconds, with_serial, with_gid, int_part;
  repeat match goal with
  | |- context [py_str ?n] =>
      let H := fresh "H" in
      pose proof (int_str n) as H; revert H;
      generalize (py_str n); intros ? H
  end;
  cbn;
  repeat match goal with
  | H : int _ = Some _ |- _ => rewrite H; clear H; cbn
  end;
  try reflexivity.

Lemma of_parts_pick a : of_parts int ["pick"%string; py_str a] = Pick a.
Proof. read_numerals. Qed.

Lemma of_parts_open a : of_parts int ["open"%string; py_str a] = Open a.
Proof. read_numerals. Qed.

Lemma of_parts_download a b :
  of_parts int ["download"%string; py_str a; py_str b] = Download a b.
Proof. read_numerals. Qed.

Lemma of_parts_share a b :
  of_parts int ["share"%string; py_str a; py_str b] = Share a b.
Proof. read_numerals. Qed.

Lemma of_parts_delete a b :
  of_parts int ["delete"%string; py_str a; py_str b] = Delete a b.
Proof. read_numerals. Qed.

Lemma of_parts_sharec a b c :
  of_parts int ["sharec"%string; py_str a; py_str b; py_str c] = ShareC a b c.
Proof. read_numerals. Qed.

(** X19.  The keyboard under a saved file, button by button: "Download",
    "Share", "Delete" and "Home" reach their branch of [callback_handler]
    with the group and serial of the file; "Rename", "Edit Caption", "Stats"
    and "Replace" carry actions the handler does not know. *)
Theorem file_actions_buttons (group_id serial : Z) :
  map (fun data => parse_callback int (Some data))
    (Keyboard.file_actions_inline group_id serial)
  = [Download group_id serial; Share group_id serial; Other; Other; Other;
     Delete group_id serial; Other; Home].
Proof.
  unfold Keyboard.file_actions_inline. cbn [map].
  rewrite !parse_data2 by reflexivity.
  rewrite of_parts_download, of_parts_share, of_parts_delete.
  repeat (f_equal; [try reflexivity; read_numerals|]).
  reflexivity.
Qed.

(** X20.  The expiry menu of the [share] button: its six options reach the
    [sharec] branch with the file's group and serial and 300, 600, 1800,
    3600, 86400 and 0 seconds, "Never" being the 0. *)
Theorem expiry_menu_buttons (gid serial : Z) :
  map (fun data => parse_callback int (Some data))
    (Keyboard.expiry_options gid serial)
  = map (ShareC gid serial) [300; 600; 1800; 3600; 86400; 0] ++ [Home].
Proof.
  unfold Keyboard.expiry_options. cbn [map app].
  rewrite !parse_data3 by reflexivity. rewrite !of_parts_sharec.
  reflexivity.
Qed.

(** X21.  The keyboards that offer a group or its files: each button of the
    upload menu picks the listed group, each button of "My Groups" opens it,
    and the three buttons per file of an opened group download, share and
    delete the file with that group and serial. *)
Theorem group_keyboards_buttons (ids serials : list Z) (gid : Z) :
  map (fun data => parse_callback int (Some data)) (Keyboard.choose_group ids)
  = map Pick ids ++ [NewGroup; Home]
  /\ map (fun data => parse_callback int (Some data)) (Keyboard.list_groups ids)
     = match ids with
       | [] => []
       | _ :: _ => map Open ids ++ [Home]
       end
  /\ map (fun data => parse_callback int (Some data))
       (Keyboard.open_group gid serials)
     = flat_map (fun s => [Download gid s; Share gid s; Delete gid s]) serials
       ++ [Home].
Proof.
  unfold Keyboard.choose_group, Keyboard.list_groups, Keyboard.open_group.
  split; [|split].
  - rewrite map_app, map_map. f_equal. apply map_ext. intros a.
    now rewrite parse_data1, of_parts_pick.
  - destruct ids as [|i ids]; [reflexivity|].
    rewrite map_app, map_map. f_equal. apply map_ext. intros a.
    now rewrite parse_data1, of_parts_open.
  - rewrite map_app. f_equal. induction serials as [|s l IH]; [reflexivity|].
    cbn [flat_map map app]. rewrite IH, !parse_data2 by reflexivity.
    now rewrite of_parts_download, of_parts_share, of_parts_delete.
Qed.

End Buttons.

(** X22.  Two menus lead nowhere: every "Open" button of "My Files" and
    both buttons of the admin panel carry an action [callback_handler] does
    not know; pressing one is answered "Unknown action" and changes
    nothing.  Only their "Home" buttons work. *)
Theorem unanswered_menus (int : string -> option Z) ADMIN_IDS now e uid ud d
    (rows : list (Z * Z * option string)) :
  map (fun data => on_callback_query int ADMIN_IDS now e uid (Some data) ud d)
    (Keyboard.manage_files rows)
  = match rows with
    | [] => []
    | _ :: _ => map (fun _ => (UnknownAction, ud, d)) rows ++ [(HomeMenu, ud, d)]
    end
  /\ map (fun data => on_callback_query int ADMIN_IDS now e uid (Some data) ud d)
       Keyboard.admin
     = [(UnknownAction, ud, d); (UnknownAction, ud, d); (HomeMenu, ud, d)].
Proof.
  split; [|reflexivity].
  unfold Keyboard.manage_files. destruct rows as [|r rows]; [reflexivity|].
  rewrite map_app, map_map.
  apply (f_equal (fun l => l ++ [(HomeMenu, ud, d)])).
  apply map_ext. intros [[g s] name]. unfold on_callback_query.
  rewrite parse_data2 by reflexivity. reflexivity.
Qed.

(** X23.  The buttons under a search answer work for whoever searched: each
    one but "Home" asks for the download of a file that is in the files table,
    by its group and serial, so pressing it at once is not answered "File not
    found" - whether or not the file is the user's own. *)
Theorem search_buttons_download (int : string -> option Z) ADMIN_IDS now e uid
    ud d q rows data :
  (forall n, int (py_str n) = Some n) ->
  do_search q d = Some (Results rows) ->
  In data (Keyboard.search_results rows) ->
  parse_callback int (Some data) = Home
  \/ exists f,
       In f (files d)
       /\ parse_callback int (Some data)
          = Download (Files.group_id f) (Files.serial f)
       /\ fst (fst (on_callback_query int ADMIN_IDS now e uid (Some data) ud d))
          <> FileNotFound.
Proof.
  intros int_str Hq Hin.
  destruct (search_files_answers q d) as (found & E & _ & Hfound).
  unfold do_search in Hq. rewrite E in Hq. cbn [option_map] in Hq.
  assert (Hrows : rows = map search_row found)
    by (destruct found; [discriminate Hq | now injection Hq as <-]).
  unfold Keyboard.search_results in Hin.
  destruct rows as [|r0 rows0] eqn:Er; [contradiction|]. rewrite <- Er in *.
  clear Er. apply in_app_or in Hin as [Hin|Hin].
  - right. rewrite Hrows, map_map in Hin.
    apply in_map_iff in Hin as (f & <- & Hf). cbn [search_row fst snd].
    destruct (Hfound f Hf) as [Hfd _]. exists f. split; [exact Hfd|].
    assert (Hp : parse_callback int
                   (Some (Keyboard.data2 "download" (Files.group_id f)
                            (Files.serial f)))
                 = Download (Files.group_id f) (Files.serial f))
      by (rewrite parse_data2 by reflexivity; now apply of_parts_download).
    split; [exact Hp|]. unfold on_callback_query. rewrite Hp.
    destruct (exists_at_serial (Files.group_id f) (Files.serial f) d) as [f' Ef].
    { exists f. auto. }
    unfold callback_handler, download_item, select_file, bind, get, ret, catch.
    rewrite Ef. destruct (copy_message e) as [[]| |]; cbn [await ret raise];
      discriminate.
  - left. destruct Hin as [<-|[]]. reflexivity.
Qed.

(** ** The keyboards on sample data *)

(** The keyboard under file 2 of group 1. *)
Lemma file_actions_on_sample :
  map (fun data => parse_callback decimal (Some data))
    ["download:1:2"; "share:1:2"; "rename:1:2"; "caption:1:2"; "stats:1:2";
     "delete:1:2"; "replace:1:2"; "home"]%string
  = [Download 1 2; Share 1 2; Other; Other; Other; Delete 1 2; Other; Home].
Proof. exact (file_actions_buttons decimal decimal_py_str 1 2). Defined.

(** The expiry menu for file 2 of group 1. *)
Lemma expiry_menu_on_sample :
  map (fun data => parse_callback decimal (Some data))
    ["sharec:1:2:300"; "sharec:1:2:600"; "sharec:1:2:1800"; "sharec:1:2:3600";
     "sharec:1:2:86400"; "sharec:1:2:0"; "home"]%string
  = [ShareC 1 2 300; ShareC 1 2 600; ShareC 1 2 1800; ShareC 1 2 3600;
     ShareC 1 2 86400; ShareC 1 2 0; Home].
Proof. exact (expiry_menu_buttons decimal decimal_py_str 1 2). Defined.

(** The upload menu over groups 1 and 12. *)
Lemma choose_group_on_sample :
  map (fun data => parse_callback decimal (Some data))
    ["pick:1"; "pick:12"; "newgroup"; "home"]%string
  = [Pick 1; Pick 12; NewGroup; Home].
Proof.
  exact (proj1 (group_keyboards_buttons decimal decimal_py_str [1; 12] [] 1)).
Defined.

(** The first button under the answer to "NOTES". *)
Lemma search_button_on_notes :
  do_search "NOTES" notes_db
  = Some (Results [(1, 1, Some "notes-old.txt"%string);
                   (1, 2, Some "notes-new.txt"%string)])
  /\ parse_callback decimal (Some "download:1:1"%string) <> Home
  /\ fst (fst (on_callback_query decimal [] 9 sample_env 200
                 (Some "download:1:1"%string) no_user_data notes_db))
     <> FileNotFound.
Proof.
  assert (Hq : do_search "NOTES" notes_db
               = Some (Results [(1, 1, Some "notes-old.txt"%string);
                                (1, 2, Some "notes-new.txt"%string)]))
    by (vm_compute; reflexivity).
  split; [exact Hq|]. split; [discriminate|].
  destruct (search_buttons_download decimal [] 9 sample_env 200 no_user_data
              notes_db "NOTES" _ "download:1:1" decimal_py_str Hq
              (or_introl eq_refl)) as [H|(f & _ & _ & H)].
  - discriminate H.
  - exact H.
Defined.

(** * Text messages *)

(** X24.  Every label of the reply keyboard a user is shown reaches its own
    branch of [message_router], whatever input is pending: the two upload
    buttons open the group menu, three buttons list, "Search" asks for the
    text, "Help" and (for an administrator) "Admin" answer - and "Settings"
    calls [settings_ui], a name the file does not define.  Only "Search"
    touches the pending-input flags, and the database is as it was or as
    [ensure_user] leaves it. *)
Theorem main_keyboard_routes ADMIN_IDS now e user msg rd d :
  map (fun txt => fst (fst (message_router ADMIN_IDS now e user txt msg rd d)))
    (Menu.main_keyboard (is_admin ADMIN_IDS (Tg.id user)))
  = [Answered SelectGroup; Answered SelectGroup; MyLinks; MyFiles; MyGroups;
     SendSearchText; Undefined "settings_ui"; HelpText]
    ++ (if is_admin ADMIN_IDS (Tg.id user) then [AdminPanel] else [])
  /\ Forall
       (fun txt =>
          let '(_, rd', d') := message_router ADMIN_IDS now e user txt msg rd d in
          awaiting_new_group (handler_data rd')
          = awaiting_new_group (handler_data rd)
          /\ upload_group_id (handler_data rd')
             = upload_group_id (handler_data rd)
          /\ awaiting_search rd'
             = (if String.eqb txt Menu.search then Some true
                else awaiting_search rd)
          /\ (d' = d \/ d' = snd (ensure_user now user d)))
       (Menu.main_keyboard (is_admin ADMIN_IDS (Tg.id user))).
Proof.
  unfold Menu.main_keyboard. split.
  - rewrite map_app. apply f_equal2; [reflexivity|].
    destruct (is_admin ADMIN_IDS (Tg.id user)) eqn:E; [|reflexivity].
    cbn [map]. unfold message_router, admin_ui. rewrite E. reflexivity.
  - assert (Hor : forall A B C D1 D2 : Prop,
               A -> B -> C -> D1 \/ D2 -> A /\ B /\ C /\ (D1 \/ D2))
      by tauto.
    apply Forall_app. split.
    + repeat (constructor;
              [apply Hor;
               [reflexivity | reflexivity | reflexivity
               | first [left; reflexivity | right; reflexivity]]|]).
      constructor.
    + destruct (is_admin ADMIN_IDS (Tg.id user)) eqn:E; [|constructor].
      constructor; [|constructor].
      unfold message_router, admin_ui. rewrite E.
      apply Hor; [reflexivity | reflexivity | reflexivity | left; reflexivity].
Qed.

Lemma not_a_label ADMIN_IDS uid (txt : string) :
  ~ In txt (Menu.main_keyboard (is_admin ADMIN_IDS uid)) ->
  String.eqb txt Menu.upload = false /\ String.eqb txt Menu.bulk_upload = false
  /\ String.eqb txt Menu.my_links = false /\ String.eqb txt Menu.my_files = false
  /\ String.eqb txt Menu.my_groups = false /\ String.eqb txt Menu.search = false
  /\ String.eqb txt Menu.settings = false /\ String.eqb txt Menu.help = false
  /\ String.eqb txt Menu.admin && is_admin ADMIN_IDS uid = false.
Proof.
  intros H. unfold Menu.main_keyboard in H.
  assert (Hl : forall l,
             In l [Menu.upload; Menu.bulk_upload; Menu.my_links; Menu.my_files;
                   Menu.my_groups; Menu.search; Menu.settings; Menu.help] ->
             String.eqb txt l = false).
  { intros l Hin. apply String.eqb_neq. intros ->. apply H.
    apply in_or_app. now left. }
  repeat (split; [apply Hl; cbn [In]; tauto|]).
  destruct (is_admin ADMIN_IDS uid); [|apply andb_false_r].
  rewrite andb_true_r. apply String.eqb_neq. intros ->. apply H.
  apply in_or_app. right. now left.
Qed.

(** X25.  A text that is no label of the user's keyboard, while input is
    pending.  A pending search takes it as the search text: the answer is
    [do_search]'s, the flag is cleared and nothing else changes.  Otherwise a
    pending new group takes it as the group's name: the flag is cleared and
    [create_group_from_text] is called, a name the file does not define - no
    group is created and the database is as it was. *)
Theorem pending_text_is_consumed ADMIN_IDS now e user txt msg rd d :
  ~ In txt (Menu.main_keyboard (is_admin ADMIN_IDS (Tg.id user))) ->
  txt <> EmptyString ->
  let '(out, rd', d') := message_router ADMIN_IDS now e user txt msg rd d in
  (awaiting_search rd = Some true ->
   (exists r, do_search txt d = Some r /\ out = Answered r)
   /\ awaiting_search rd' = None
   /\ handler_data rd' = handler_data rd
   /\ d' = d)
  /\ (truthy (awaiting_search rd) = false ->
      awaiting_new_group (handler_data rd) = Some true ->
      out = Undefined "create_group_from_text"
      /\ awaiting_new_group (handler_data rd') = None
      /\ upload_group_id (handler_data rd') = upload_group_id (handler_data rd)
      /\ awaiting_search rd' = awaiting_search rd
      /\ d' = d).
Proof.
  intros Hnot Hne.
  destruct (not_a_label ADMIN_IDS (Tg.id user) txt Hnot)
    as (H1 & H2 & H3 & H4 & H5 & H6 & H7 & H8 & H9).
  unfold message_router. rewrite H1, H2, H3, H4, H5, H6, H7, H8, H9.
  apply String.eqb_neq in Hne. rewrite Hne. cbn [negb]. rewrite !andb_true_r.
  destruct (truthy (awaiting_search rd)) eqn:Hs.
  - split; [|discriminate]. intros _.
    destruct (search_files_answers txt d) as (rows & E & _).
    unfold do_search. rewrite E. cbn [option_map].
    split; [eexists; split; reflexivity|]. repeat split.
  - cbn [andb].
    assert (Hno : awaiting_search rd <> Some true)
      by (intros E; rewrite E in Hs; discriminate Hs).
    destruct (awaiting_new_group (handler_data rd)) as [[|]|] eqn:Hg;
      cbn [truthy].
    + split; [intros E; contradiction|]. intros _ _. repeat split.
    + destruct (has_media msg);
        [destruct (handle_upload _ _ _ _ _ _) as [[r ud] d']|];
        (split; [intros E; contradiction | intros _ E; discriminate E]).
    + destruct (has_media msg);
        [destruct (handle_upload _ _ _ _ _ _) as [[r ud] d']|];
        (split; [intros E; contradiction | intros _ E; discriminate E]).
Qed.

Lemma handle_upload_links now e user msg ud d :
  links (snd (handle_upload now e user msg ud d)) = links d.
Proof.
  apply (invariant_handle_upload (fun x => links x = links d)); [| | | |reflexivity].
  - intros now0 u. apply preserves_modify. intros x Hx.
    now destruct (existsb _ (users x)).
  - intros uid fresh upd. apply preserves_modify. intros x Hx.
    now destruct (existsb _ (stats x)).
  - intros gid f. apply preserves_modify. now intros x Hx.
  - intros now0 gid serial uid fname fsize sid uploader x Hx.
    unfold insert_file. now destruct (existsb _ (files x)).
Qed.

Lemma handle_upload_keys now e user msg ud d :
  keys_ok d -> keys_ok (snd (handle_upload now e user msg ud d)).
Proof.
  apply invariant_handle_upload.
  - apply keys_ok_insert_user.
  - apply keys_ok_upsert_stats.
  - apply keys_ok_update_group.
  - apply keys_ok_insert_file.
Qed.

Lemma handle_upload_uniques now e user msg ud d :
  uniques_ok d -> uniques_ok (snd (handle_upload now e user msg ud d)).
Proof.
  apply call_site_handle_upload.
  - apply uniques_ok_insert_user.
  - intros now0 uid. apply uniques_ok_upsert; reflexivity.
  - intros now0 uid. apply uniques_ok_upsert; reflexivity.
  - intros gid f. apply preserves_modify. intros x.
    now apply uniques_ok_frame.
  - intros. apply uniques_ok_insert_file.
Qed.

Lemma handle_upload_groups now e user msg ud d :
  Forall2 same_group (groups d) (groups (snd (handle_upload now e user msg ud d))).
Proof.
  destruct (handle_upload_registry now e user msg ud d) as [[_ Hg]|(row & _ & Hg)];
    rewrite Hg; [apply same_group_refl|].
  apply same_group_map; [|apply same_group_refl]. intros g.
  destruct (Groups.id g =? _); now repeat split.
Qed.

(** X26.  [message_router] has no database effect of its own: after any text
    message the database is as it was, as [ensure_user] leaves it (the two
    upload buttons) or as [handle_upload] leaves it.  So it keeps the keys and
    the unique columns, leaves the links alone and adds, removes or renames no
    group.  It never answers "Admins only", and a pending search is never
    refused. *)
Theorem message_router_effects ADMIN_IDS now e user txt msg rd d :
  let '(out, _, d') := message_router ADMIN_IDS now e user txt msg rd d in
  (d' = d \/ d' = snd (ensure_user now user d)
   \/ d' = snd (handle_upload now e user msg (handler_data rd) d))
  /\ Forall2 same_group (groups d) (groups d')
  /\ links d' = links d
  /\ (keys_ok d -> keys_ok d')
  /\ (uniques_ok d -> uniques_ok d')
  /\ out <> AdminsOnly /\ out <> QueryRefused.
Proof.
  assert (Hsame : forall out,
             out <> AdminsOnly -> out <> QueryRefused ->
             (d = d \/ d = snd (ensure_user now user d)
              \/ d = snd (handle_upload now e user msg (handler_data rd) d))
             /\ Forall2 same_group (groups d) (groups d)
             /\ links d = links d
             /\ (keys_ok d -> keys_ok d)
             /\ (uniques_ok d -> uniques_ok d)
             /\ out <> AdminsOnly /\ out <> QueryRefused).
  { intros out H1 H2. split; [now left|]. split; [apply same_group_refl|].
    split; [reflexivity|]. split; [auto|]. split; [auto|].
    split; assumption. }
  assert (Hchoose : forall bulk,
             let '(out, _, d') :=
               let '(r, ud, d') :=
                 choose_group_ui now user bulk (handler_data rd) d in
               (Answered r,
                {| handler_data := ud; awaiting_search := awaiting_search rd |},
                d') in
             (d' = d \/ d' = snd (ensure_user now user d)
              \/ d' = snd (handle_upload now e user msg (handler_data rd) d))
             /\ Forall2 same_group (groups d) (groups d')
             /\ links d' = links d
             /\ (keys_ok d -> keys_ok d')
             /\ (uniques_ok d -> uniques_ok d')
             /\ out <> AdminsOnly /\ out <> QueryRefused).
  { intros bulk. unfold choose_group_ui.
    destruct (ensure_user_frame now user d) as (_ & Hg & Hl & _).
    split; [right; now left|]. split; [rewrite Hg; apply same_group_refl|].
    split; [exact Hl|].
    split; [apply invariant_ensure_user;
            [apply keys_ok_insert_user | apply keys_ok_upsert_stats]|].
    split; [apply ensure_user_uniques|]. split; discriminate. }
  unfold message_router.
  destruct (String.eqb txt Menu.upload); [apply Hchoose|].
  destruct (String.eqb txt Menu.bulk_upload); [apply Hchoose|].
  destruct (String.eqb txt Menu.my_links); [apply Hsame; discriminate|].
  destruct (String.eqb txt Menu.my_files); [apply Hsame; discriminate|].
  destruct (String.eqb txt Menu.my_groups); [apply Hsame; discriminate|].
  destruct (String.eqb txt Menu.search); [apply Hsame; discriminate|].
  destruct (String.eqb txt Menu.settings); [apply Hsame; discriminate|].
  destruct (String.eqb txt Menu.help); [apply Hsame; discriminate|].
  destruct (String.eqb txt Menu.admin && is_admin ADMIN_IDS (Tg.id user)) eqn:Ea.
  { apply andb_true_iff in Ea as [_ Ea]. unfold admin_ui. rewrite Ea.
    apply Hsame; discriminate. }
  destruct (truthy (awaiting_search rd) && _).
  { destruct (search_files_answers txt d) as (rows & E & _).
    unfold do_search. rewrite E. apply Hsame; discriminate. }
  destruct (truthy (awaiting_new_group (handler_data rd)) && _);
    [apply Hsame; discriminate|].
  destruct (has_media msg); [|apply Hsame; discriminate].
  pose proof (handle_upload_groups now e user msg (handler_data rd) d) as Hg.
  pose proof (handle_upload_links now e user msg (handler_data rd) d) as Hl.
  pose proof (handle_upload_keys now e user msg (handler_data rd) d) as Hk.
  pose proof (handle_upload_uniques now e user msg (handler_data rd) d) as Hu.
  destruct (handle_upload now e user msg (handler_data rd) d) as [[r ud] d'].
  cbn [snd] in *. split; [right; now right|].
  split; [exact Hg|]. split; [exact Hl|]. split; [exact Hk|].
  split; [exact Hu|]. split; discriminate.
Qed.

(** * The bytes of a code *)

Lemma to_N_lt (b : byte) : (Byte.to_N b < 256)%N.
Proof. pose proof (Byte.to_N_bounded b). lia. Qed.

Lemma byte_of_to_N (b : byte) : Uuid.byte_of_N (Byte.to_N b) = b.
Proof.
  unfold Uuid.byte_of_N. rewrite N.mod_small by apply to_N_lt.
  now rewrite Byte.of_to_N.
Qed.

Lemma from_bytes_be_acc (bs : list byte) :
  forall acc,
    fold_left (fun acc b => (acc * 256 + Byte.to_N b)%N) bs acc
    = (acc * 2 ^ (8 * N.of_nat (List.length bs)) + Uuid.from_bytes_be bs)%N.
Proof.
  unfold Uuid.from_bytes_be.
  induction bs as [|b bs IH]; intros acc.
  - simpl. lia.
  - cbn [fold_left List.length]. rewrite IH, (IH (0 * 256 + Byte.to_N b)%N).
    replace (8 * N.of_nat (S (List.length bs)))%N
      with (8 + 8 * N.of_nat (List.length bs))%N by lia.
    rewrite N.pow_add_r. change (2 ^ 8)%N with 256%N. lia.
Qed.

Lemma from_bytes_be_app (hi lo : list byte) :
  Uuid.from_bytes_be (hi ++ lo)
  = (Uuid.from_bytes_be hi * 2 ^ (8 * N.of_nat (List.length lo))
     + Uuid.from_bytes_be lo)%N.
Proof.
  unfold Uuid.from_bytes_be at 1. rewrite fold_left_app.
  now rewrite from_bytes_be_acc.
Qed.

Lemma from_bytes_be_cons (b : byte) (lo : list byte) :
  Uuid.from_bytes_be (b :: lo)
  = (Byte.to_N b * 2 ^ (8 * N.of_nat (List.length lo)) + Uuid.from_bytes_be lo)%N.
Proof.
  change (b :: lo) with ([b] ++ lo). rewrite from_bytes_be_app.
  reflexivity.
Qed.

Lemma from_bytes_be_lt (bs : list byte) :
  (Uuid.from_bytes_be bs < 2 ^ (8 * N.of_nat (List.length bs)))%N.
Proof.
  induction bs as [|b bs IH]; [reflexivity|].
  rewrite from_bytes_be_cons. cbn [List.length].
  replace (8 * N.of_nat (S (List.length bs)))%N
    with (8 + 8 * N.of_nat (List.length bs))%N by lia.
  rewrite N.pow_add_r. change (2 ^ 8)%N with 256%N.
  pose proof (to_N_lt b). nia.
Qed.

(** Bits of a number written as high part, then [k] low bits. *)
Lemma testbit_split (p c k n : N) :
  (c < 2 ^ k)%N ->
  N.testbit (p * 2 ^ k + c) n
  = if (n <? k)%N then N.testbit c n else N.testbit p (n - k).
Proof.
  intros Hc. destruct (N.ltb_spec n k) as [Hn|Hn].
  - rewrite <- (N.mod_pow2_bits_low (p * 2 ^ k + c) k n Hn).
    rewrite N.add_comm, N.Div0.mod_add. now rewrite N.mod_small.
  - transitivity (N.testbit ((p * 2 ^ k + c) / 2 ^ k) (n - k)).
    + rewrite N.div_pow2_bits. f_equal. lia.
    + f_equal. rewrite N.div_add_l by (apply N.pow_nonzero; discriminate).
      rewrite (N.div_small c) by exact Hc. lia.
Qed.

(** A bitwise operation with a mask of one byte, shifted to the place of
    one byte of a big-endian number, works on that byte alone. *)
Lemma bitwise_on_byte (op : N -> N -> N) (f : bool -> bool -> bool)
    (hi lo : list byte) (b b' : byte) (m : N) :
  (forall x y n, N.testbit (op x y) n = f (N.testbit x n) (N.testbit y n)) ->
  (forall x, f x false = x) ->
  (m < 256)%N ->
  Byte.to_N b' = op (Byte.to_N b) m ->
  op (Uuid.from_bytes_be (hi ++ b :: lo))
    (N.shiftl m (8 * N.of_nat (List.length lo)))
  = Uuid.from_bytes_be (hi ++ b' :: lo).
Proof.
  intros Hop Hf Hm Hb. set (k := (8 * N.of_nat (List.length lo))%N).
  rewrite !from_bytes_be_app, !from_bytes_be_cons. fold k.
  pose proof (from_bytes_be_lt lo) as Hlo. fold k in Hlo.
  set (H := Uuid.from_bytes_be hi). set (L := Uuid.from_bytes_be lo) in *.
  cbn [List.length].
  replace (8 * N.of_nat (S (List.length lo)))%N with (8 + k)%N by (subst k; lia).
  rewrite N.pow_add_r. change (2 ^ 8)%N with 256%N.
  replace (H * (256 * 2 ^ k) + (Byte.to_N b * 2 ^ k + L))%N
    with ((H * 256 + Byte.to_N b) * 2 ^ k + L)%N by lia.
  replace (H * (256 * 2 ^ k) + (Byte.to_N b' * 2 ^ k + L))%N
    with ((H * 256 + Byte.to_N b') * 2 ^ k + L)%N by lia.
  apply N.bits_inj. intros n.
  rewrite Hop, !(testbit_split _ L k n Hlo).
  destruct (N.ltb_spec n k) as [Hn|Hn].
  - rewrite N.shiftl_spec_low by exact Hn. apply Hf.
  - rewrite N.shiftl_spec_high' by exact Hn.
    change 256%N with (2 ^ 8)%N.
    rewrite !(testbit_split H _ 8 (n - k)) by (apply to_N_lt).
    destruct (N.ltb_spec (n - k) 8) as [Hb8|Hb8].
    + now rewrite Hb, Hop.
    + assert (Hz : N.testbit m (n - k) = false).
      { destruct (N.eq_dec m 0) as [->|Hm0]; [apply N.bits_0|].
        apply N.bits_above_log2. apply N.log2_lt_pow2; [lia|].
        apply N.lt_le_trans with (2 ^ 8)%N; [exact Hm|].
        apply N.pow_le_mono_r; [discriminate | exact Hb8]. }
      rewrite Hz. apply Hf.
Qed.

Lemma to_bytes_of_bytes (bs : list byte) :
  Uuid.to_bytes_be (List.length bs) (Uuid.from_bytes_be bs) = bs.
Proof.
  induction bs as [|b bs IH] using rev_ind; [reflexivity|].
  rewrite length_app, Nat.add_comm. cbn [List.length Nat.add Uuid.to_bytes_be].
  rewrite from_bytes_be_app. cbn [List.length].
  change (2 ^ (8 * N.of_nat 1))%N with 256%N.
  change (Uuid.from_bytes_be [b]) with (Byte.to_N b).
  pose proof (to_N_lt b) as Hb.
  rewrite N.div_add_l by discriminate. rewrite (N.div_small _ _ Hb), N.add_0_r, IH.
  f_equal. unfold Uuid.byte_of_N.
  rewrite N.add_comm, N.Div0.mod_add, (N.mod_small _ _ Hb), Byte.of_to_N.
  reflexivity.
Qed.

Lemma clear_bits_to_N (m : N) (b : byte) :
  m = 0xf0%N \/ m = 0xc0%N ->
  Byte.to_N (clear_bits m b) = N.ldiff (Byte.to_N b) m.
Proof. intros [->| ->]; destruct b; reflexivity. Qed.

Lemma set_version_to_N (b : byte) :
  Byte.to_N (set_version b) = N.lor (Byte.to_N (clear_bits 0xf0 b)) 0x40.
Proof. destruct b; reflexivity. Qed.

Lemma set_variant_to_N (b : byte) :
  Byte.to_N (set_variant b) = N.lor (Byte.to_N (clear_bits 0xc0 b)) 0x80.
Proof. destruct b; reflexivity. Qed.

Lemma uuid4_int_bytes (b0 b1 b2 b3 b4 b5 b6 b7 b8 b9 b10 b11 b12 b13 b14 b15 : byte) :
  Uuid.uuid4_int [b0; b1; b2; b3; b4; b5; b6; b7; b8; b9; b10; b11; b12; b13; b14; b15]
  = Uuid.from_bytes_be
      [b0; b1; b2; b3; b4; b5; set_version b6; b7; set_variant b8;
       b9; b10; b11; b12; b13; b14; b15].
Proof.
  unfold Uuid.uuid4_int. cbv zeta.
  pose (lo7 := [b9; b10; b11; b12; b13; b14; b15]).
  pose (hi8 := [b0; b1; b2; b3; b4; b5; b6; b7]).
  change (N.shiftl 0xc000 48) with (N.shiftl 0xc0 (8 * N.of_nat (List.length lo7))).
  change (N.shiftl 0x8000 48) with (N.shiftl 0x80 (8 * N.of_nat (List.length lo7))).
  change (Uuid.from_bytes_be
            [b0; b1; b2; b3; b4; b5; b6; b7; b8; b9; b10; b11; b12; b13; b14; b15])
    with (Uuid.from_bytes_be (hi8 ++ b8 :: lo7)).
  rewrite (bitwise_on_byte N.ldiff (fun x y => x && negb y) hi8 lo7 b8
             (clear_bits 0xc0 b8) 0xc0 N.ldiff_spec andb_true_r
             ltac:(reflexivity) (clear_bits_to_N _ b8 (or_intror eq_refl))).
  rewrite (bitwise_on_byte N.lor orb hi8 lo7 (clear_bits 0xc0 b8)
             (set_variant b8) 0x80 N.lor_spec orb_false_r
             ltac:(reflexivity) (set_variant_to_N b8)).
  pose (lo9 := [b7; set_variant b8; b9; b10; b11; b12; b13; b14; b15]).
  pose (hi6 := [b0; b1; b2; b3; b4; b5]).
  change (N.shiftl 0xf000 64) with (N.shiftl 0xf0 (8 * N.of_nat (List.length lo9))).
  change (N.shiftl 4 76) with (N.shiftl 0x40 (8 * N.of_nat (List.length lo9))).
  change (Uuid.from_bytes_be (hi8 ++ set_variant b8 :: lo7))
    with (Uuid.from_bytes_be (hi6 ++ b6 :: lo9)).
  rewrite (bitwise_on_byte N.ldiff (fun x y => x && negb y) hi6 lo9 b6
             (clear_bits 0xf0 b6) 0xf0 N.ldiff_spec andb_true_r
             ltac:(reflexivity) (clear_bits_to_N _ b6 (or_introl eq_refl))).
  rewrite (bitwise_on_byte N.lor orb hi6 lo9 (clear_bits 0xf0 b6)
             (set_version b6) 0x40 N.lor_spec orb_false_r
             ltac:(reflexivity) (set_version_to_N b6)).
  reflexivity.
Qed.

Lemma uuid4_bytes_explicit (b0 b1 b2 b3 b4 b5 b6 b7 b8 b9 b10 b11 b12 b13 b14 b15 : byte) :
  Uuid.uuid4_bytes [b0; b1; b2; b3; b4; b5; b6; b7; b8; b9; b10; b11; b12; b13; b14; b15]
  = [b0; b1; b2; b3; b4; b5; set_version b6; b7; set_variant b8;
     b9; b10; b11; b12; b13; b14; b15].
Proof.
  unfold Uuid.uuid4_bytes. rewrite uuid4_int_bytes.
  exact (to_bytes_of_bytes
           [b0; b1; b2; b3; b4; b5; set_version b6; b7; set_variant b8;
            b9; b10; b11; b12; b13; b14; b15]).
Qed.

Lemma gen_code_chars (rand : list byte) :
  list_ascii_of_string (gen_code rand)
  = firstn 18 (Base64.urlsafe_b64encode (Uuid.uuid4_bytes rand)).
Proof.
  destruct (gen_code_prefix rand) as (data & E & Hlen & _ & Hcode).
  rewrite Hcode, E, firstn_app, Hlen. simpl (18 - 22)%nat.
  now rewrite firstn_O, app_nil_r.
Qed.

(** X27.  [uuid4] keeps the sixteen random bytes but for six bits: byte 6
    gets the version nibble 4 in its high half and byte 8 the variant bits 10
    on top; the low half of byte 6, the low six bits of byte 8 and every other
    byte are the bytes [os.urandom] returned. *)
Theorem uuid4_keeps_random_bytes (rand : list byte) :
  List.length rand = 16%nat ->
  Uuid.uuid4_bytes rand
  = map (fun ib => uuid4_byte (fst ib) (snd ib)) (combine (seq 0 16) rand)
  /\ forall b,
       N.shiftr (Byte.to_N (set_version b)) 4 = 4%N
       /\ N.land (Byte.to_N (set_version b)) 15 = N.land (Byte.to_N b) 15
       /\ N.shiftr (Byte.to_N (set_variant b)) 6 = 2%N
       /\ N.land (Byte.to_N (set_variant b)) 63 = N.land (Byte.to_N b) 63.
Proof.
  intros H. split.
  - do 16 (destruct rand as [|? rand]; [discriminate H|]).
    destruct rand; [|discriminate H].
    rewrite uuid4_bytes_explicit. reflexivity.
  - intros b. destruct b; repeat split.
Qed.

(** The 18 characters of a code are made of the first fourteen bytes. *)
Lemma gen_code_same_prefix (pre : list byte) (x y x' y' : byte) :
  List.length pre = 14%nat ->
  gen_code (pre ++ [x; y]) = gen_code (pre ++ [x'; y']).
Proof.
  intros H.
  do 14 (destruct pre as [|? pre]; [discriminate H|]).
  destruct pre; [|discriminate H]. cbn [app].
  assert (E : forall s1 s2,
             list_ascii_of_string s1 = list_ascii_of_string s2 -> s1 = s2).
  { intros s1 s2 E. rewrite <- (string_of_list_ascii_of_string s1), E.
    apply string_of_list_ascii_of_string. }
  apply E. rewrite !gen_code_chars, !uuid4_bytes_explicit. reflexivity.
Qed.

(** X28.  A code does not use all of the UUID: its 18 characters are made of
    the first fourteen bytes, so two draws of random bytes that differ only
    in the last two give the same code.  And its ninth character carries the
    version nibble: it is always Q, R, S or T. *)
Theorem gen_code_ignores_the_tail (pre : list byte) (x y x' y' : byte) :
  List.length pre = 14%nat ->
  gen_code (pre ++ [x; y]) = gen_code (pre ++ [x'; y'])
  /\ exists c,
       nth_error (list_ascii_of_string (gen_code (pre ++ [x; y]))) 8 = Some c
       /\ In c ["Q"; "R"; "S"; "T"]%char.
Proof.
  intros H. split; [now apply gen_code_same_prefix|].
  do 14 (destruct pre as [|? pre]; [discriminate H|]).
  destruct pre; [|discriminate H]. cbn [app].
  rewrite gen_code_chars, uuid4_bytes_explicit.
  cbn [Base64.urlsafe_b64encode Base64.b64encode map firstn nth_error].
  eexists. split; [reflexivity|].
  match goal with
  | |- context [set_version ?b] => destruct b
  end;
    vm_compute;
    first [ left; reflexivity | right; left; reflexivity
          | right; right; left; reflexivity
          | right; right; right; left; reflexivity ].
Qed.


(** ** Text messages and codes on sample data *)

(** User 200 was asked for the name of a new group and sends "Holiday". *)
Lemma group_name_is_lost :
  let rd := {| handler_data := set_awaiting_new_group no_user_data;
               awaiting_search := None |} in
  fst (fst (message_router [] 5 sample_env visitor "Holiday" text_message rd
              docs_db))
  = Undefined "create_group_from_text"
  /\ groups (snd (message_router [] 5 sample_env visitor "Holiday" text_message
                    rd docs_db))
     = [docs_group].
Proof.
  intros rd.
  assert (Hnot : ~ In "Holiday"%string
                     (Menu.main_keyboard (is_admin [] (Tg.id visitor)))).
  { vm_compute. intuition discriminate. }
  generalize (pending_text_is_consumed [] 5 sample_env visitor "Holiday"
                text_message rd docs_db Hnot ltac:(discriminate)).
  destruct (message_router [] 5 sample_env visitor "Holiday" text_message rd
              docs_db) as [[out rd'] d'].
  intros [_ H]. destruct (H eq_refl eq_refl) as (Ho & _ & _ & _ & Hd).
  cbn [fst snd]. split; [exact Ho | now rewrite Hd].
Defined.

(** The UUID made of the bytes 00, 01, ..., 0f. *)
Lemma uuid4_on_sample_bytes :
  Uuid.uuid4_bytes (urandom sample_env)
  = [x00; x01; x02; x03; x04; x05; x46; x07; x88; x09; x0a; x0b; x0c; x0d;
     x0e; x0f].
Proof.
  exact (proj1 (uuid4_keeps_random_bytes (urandom sample_env) eq_refl)).
Defined.

(** The codes of [sample_env] and [other_tail_env]. *)
Lemma gen_code_on_other_tail :
  urandom sample_env <> urandom other_tail_env
  /\ gen_code (urandom other_tail_env) = "AAECAwQFRgeICQoLDA"%string.
Proof.
  split; [discriminate|].
  transitivity (gen_code (sample_prefix ++ [x0e; x0f])).
  - symmetry.
    exact (proj1 (gen_code_ignores_the_tail sample_prefix x0e x0f xff xfe
                    eq_refl)).
  - vm_compute. reflexivity.
Defined.


(** * Callback data that does not parse *)

(** X30.  The actions that read numbers from their data - [pick], [open],
    [download], [download_file], [share], [sharec] and [delete] - are
    answered "Error processing action" when the data stops after the action
    ([IndexError]) or when [int] refuses the first part after it
    ([ValueError]); the database and the conversation state stay as they
    are.  In particular [pick] does not select a group then. *)
Theorem truncated_data_is_an_error (int : string -> option Z) ADMIN_IDS now e
    uid ud d (action p : string) :
  In action ["pick"; "open"; "download"; "download_file"; "share"; "sharec";
             "delete"]%string ->
  no_sep ":" p = true ->
  int p = None ->
  on_callback_query int ADMIN_IDS now e uid (Some action) ud d
  = (ErrorProcessingAction, ud, d)
  /\ on_callback_query int ADMIN_IDS now e uid
       (Some (action ++ ":" ++ p)%string) ud d
     = (ErrorProcessingAction, ud, d).
Proof.
  intros Hin Hp Hint.
  assert (Hmal : parse_callback int (Some action) = Malformed
                 /\ parse_callback int (Some (action ++ ":" ++ p)%string)
                    = Malformed).
  { unfold parse_callback.
    change (":" ++ p)%string with (String ":" p).
    assert (Ha : no_sep ":" action = true).
    { cbn [In] in Hin.
      repeat (destruct Hin as [<-|Hin]; [reflexivity|]). contradiction. }
    rewrite (split_at_sep ":" action p Ha), (split_no_sep ":" p Hp),
      (split_no_sep ":" action Ha).
    unfold of_parts, with_seconds, with_serial, with_gid, int_part.
    cbn [hd nth_error]. rewrite Hint. cbn [In] in Hin.
    repeat (destruct Hin as [<-|Hin]; [split; reflexivity|]). contradiction. }
  unfold on_callback_query. destruct Hmal as [-> ->]. split; reflexivity.
Qed.

(** The data "delete" and "delete:all". *)
Lemma truncated_delete_on_docs :
  on_callback_query decimal [100] 10 sample_env 100 (Some "delete:all"%string)
    no_user_data docs_db
  = (ErrorProcessingAction, no_user_data, docs_db).
Proof.
  refine (proj2 (truncated_data_is_an_error decimal [100] 10 sample_env 100
                   no_user_data docs_db "delete" "all" _ eq_refl eq_refl)).
  cbn [In]. tauto.
Defined.
